(** * fullstack-app-backend: the authentication, authorization and CRUD contract

    A shallow embedding of the two servers of the repository,
    [server-dev.js] (in-memory store) and [server.js] (PostgreSQL store),
    and the proofs of their contract.

    Conventions.
    - A JS string is the [string] of the bytes of its UTF-8 encoding, which
      is what a literal of this file holds; text is well-formed Unicode.
      [undefined] is [None].
    - A request body is a JSON object.  The fields [email], [name], [title]
      and [content] are JSON strings; one that is absent is validated by
      express-validator as the empty string, which is how the register,
      login and create bodies are represented.  The two fields of an update
      are [option string]: [.optional()] skips an absent field altogether.
      The [password], the one field that no sanitizer rewrites, is any JSON
      value.  A request that Express gives up before it reaches a route, with
      a body that [express.json()] cannot parse or a path it cannot decode,
      is [Malformed].
    - The id of a path is the segment Express binds to [:id].
    - A time stamp is the number of milliseconds since the epoch ([Z]); the
      ISO-8601 text of [toISOString()] and a PostgreSQL [TIMESTAMP] are
      renderings of it.  The clock readings of one request are equal.
    - Ids are exact integers ([Z]): JS numbers below 2^53.
    - A run serves its requests one after the other.  The registration of
      [server-dev.js] gives up control at [await bcrypt.hash], between its
      lookup and its push: it is also given in these two halves.
    - The order in which PostgreSQL returns rows that [ORDER BY] leaves
      tied is not fixed by the statement: it is read from the environment
      of the request.
    - The npm libraries (validator, bcrypt, jsonwebtoken) and the process
      environment are not part of the repository: they are the fields of a
      [Platform]. *)

From Stdlib Require Import ZArith List String Ascii Bool Lia Permutation Sorted.
From Stdlib Require Import DecimalString.
Import ListNotations.
Local Open Scope string_scope.
Local Open Scope Z_scope.

(** ** JavaScript string primitives used by the handlers *)

Module Js.

(** [!s] is false exactly for a non-empty string. *)
Definition truthy (s : string) : bool := negb (s =? "")%string.

(** [s.split(sep)] for a one-character separator: never empty. *)
Fixpoint split (sep : ascii) (s : string) : list string :=
  match s with
  | EmptyString => [""]
  | String c r =>
      if Ascii.eqb c sep then "" :: split sep r
      else match split sep r with
           | h :: t => String c h :: t
           | [] => [String c ""]
           end
  end.

(** The white-space characters of JavaScript, which are those of the
    regular expression [\s] and of the [StrWhiteSpaceChar] that [parseInt]
    skips, in UTF-8.  One byte: U+0009 to U+000D and U+0020.  Two bytes:
    U+00A0.  Three bytes: U+1680, U+2000 to U+200A, U+2028, U+2029, U+202F,
    U+205F, U+3000 and U+FEFF. *)
Definition space1 (c : ascii) : bool :=
  let n := nat_of_ascii c in
  (((9 <=? n) && (n <=? 13)) || (n =? 32))%nat.

Definition space2 (c1 c2 : ascii) : bool :=
  ((nat_of_ascii c1 =? 194) && (nat_of_ascii c2 =? 160))%nat.

Definition space3 (c1 c2 c3 : ascii) : bool :=
  let n1 := nat_of_ascii c1 in
  let n2 := nat_of_ascii c2 in
  let n3 := nat_of_ascii c3 in
  (((n1 =? 225) && (n2 =? 154) && (n3 =? 128))
   || ((n1 =? 226) && (n2 =? 128)
       && (((128 <=? n3) && (n3 <=? 138)) || (n3 =? 168) || (n3 =? 169) || (n3 =? 175)))
   || ((n1 =? 226) && (n2 =? 129) && (n3 =? 159))
   || ((n1 =? 227) && (n2 =? 128) && (n3 =? 128))
   || ((n1 =? 239) && (n2 =? 187) && (n3 =? 191)))%nat.

(** The text that follows the white-space character a text begins with;
    [None] when it begins with none. *)
Definition space (s : string) : option string :=
  match s with
  | EmptyString => None
  | String c1 r1 =>
      if space1 c1 then Some r1 else
      match r1 with
      | EmptyString => None
      | String c2 r2 =>
          if space2 c1 c2 then Some r2 else
          match r2 with
          | EmptyString => None
          | String c3 r3 => if space3 c1 c2 c3 then Some r3 else None
          end
      end
  end.

(** validator's [ltrim]: [str.replace(/^\s+/g, '')]. *)
Fixpoint ltrim (s : string) : string :=
  match s with
  | EmptyString => ""
  | String c1 r1 =>
      if space1 c1 then ltrim r1 else
      match r1 with
      | EmptyString => s
      | String c2 r2 =>
          if space2 c1 c2 then ltrim r2 else
          match r2 with
          | EmptyString => s
          | String c3 r3 => if space3 c1 c2 c3 then ltrim r3 else s
          end
      end
  end.

(** validator's [rtrim]: the white-space characters at the end are dropped
    one after the other.  Going from the end of the text, what is kept of a
    text that is all white space is the empty text. *)
Fixpoint rtrim (s : string) : string :=
  match s with
  | EmptyString => ""
  | String c r =>
      let t := String c (rtrim r) in
      match space t with
      | Some EmptyString => ""
      | _ => t
      end
  end.

(** validator's [trim] sanitizer, as called by [.trim()]:
    [rtrim(ltrim(str))]. *)
Definition trim (s : string) : string := rtrim (ltrim s).

(** Value of a digit in a radix, as [parseInt] reads it. *)
Definition digit_val (radix : Z) (c : ascii) : option Z :=
  let n := Z.of_nat (nat_of_ascii c) in
  let v :=
    if (48 <=? n) && (n <=? 57) then Some (n - 48)
    else if (97 <=? n) && (n <=? 122) then Some (n - 87)
    else if (65 <=? n) && (n <=? 90) then Some (n - 55)
    else None in
  match v with
  | Some d => if d <? radix then Some d else None
  | None => None
  end.

(** The longest prefix of digits, folded into a number; [None] when the
    prefix is empty. *)
Fixpoint digits (radix : Z) (acc : option Z) (s : string) : option Z :=
  match s with
  | EmptyString => acc
  | String c r =>
      match digit_val radix c with
      | Some d =>
          digits radix (Some (match acc with Some a => a * radix + d | None => d end)) r
      | None => acc
      end
  end.

(** [parseInt(s)] with no radix argument; [None] is [NaN].  The white
    space in front is skipped. *)
Definition parseInt (s : string) : option Z :=
  let s1 := ltrim s in
  let '(sign, s2) :=
    match s1 with
    | String "-" r => (-1, r)
    | String "+" r => (1, r)
    | _ => (1, s1)
    end in
  let '(radix, s3) :=
    match s2 with
    | String "0" (String "x" r) => (16, r)
    | String "0" (String "X" r) => (16, r)
    | _ => (10, s2)
    end in
  match digits radix None s3 with
  | Some n => Some (sign * n)
  | None => None
  end.

(** [Array.prototype.findIndex]; [None] is [-1]. *)
Fixpoint findIndex {A} (f : A -> bool) (l : list A) : option nat :=
  match l with
  | [] => None
  | x :: r => if f x then Some 0%nat else option_map S (findIndex f r)
  end.

(** [a[i] = x] for an index inside the array. *)
Fixpoint set_nth {A} (i : nat) (x : A) (l : list A) : list A :=
  match l, i with
  | [], _ => []
  | _ :: r, O => x :: r
  | y :: r, S j => y :: set_nth j x r
  end.

(** [a.splice(i, 1)]. *)
Fixpoint splice1 {A} (i : nat) (l : list A) : list A :=
  match l, i with
  | [], _ => []
  | _ :: r, O => r
  | y :: r, S j => y :: splice1 j r
  end.

(** [Array.prototype.sort(cmp)]: the sort is stable, so for a consistent
    comparator its result is the one of a stable insertion sort. *)
Fixpoint insert {A} (cmp : A -> A -> Z) (x : A) (l : list A) : list A :=
  match l with
  | [] => [x]
  | y :: r => if cmp x y <=? 0 then x :: l else y :: insert cmp x r
  end.

Fixpoint sort {A} (cmp : A -> A -> Z) (l : list A) : list A :=
  match l with
  | [] => []
  | x :: r => insert cmp x (sort cmp r)
  end.

End Js.

(** The separator occurs in the text. *)
Fixpoint occurs (sep : ascii) (s : string) : bool :=
  match s with
  | EmptyString => false
  | String c r => Ascii.eqb c sep || occurs sep r
  end.

(** ** What the handlers take from outside the repository *)

Module Jwt.
(** The claims of a token: the payload [{ id, email }] given to [jwt.sign]
    and the [iat] and [exp] stamps (in seconds) that [expiresIn] adds. *)
Record Claims := mkClaims { id : Z; email : string; iat : Z; exp : Z }.
Record Token := mkToken { claims : Claims; signature : string }.
End Jwt.

Record Platform := mkPlatform {
  (** validator.js *)
  isEmail : string -> bool;
  normalizeEmail : string -> string;
  (** the number of characters that validator's [isLength] counts in a text *)
  isLength_count : string -> nat;
  (** bcrypt: [hash(password, 10)] with the salt it draws, and [compare], on
      a password that is a string; both refuse any other value *)
  bcrypt_hash : string -> string -> string;
  bcrypt_compare : string -> string -> bool;
  (** jsonwebtoken: the HS256 tag of the claims under a key, and the compact
      serialization of a token with its parser *)
  hs256 : string -> Jwt.Claims -> string;
  jwt_encode : Jwt.Token -> string;
  jwt_decode : string -> option Jwt.Token;
  (** [process.env.JWT_SECRET] and [process.env.NODE_ENV] *)
  env_JWT_SECRET : option string;
  env_NODE_ENV : option string;
  (** PostgreSQL: the conversion of a text parameter compared with an
      [INTEGER] column; [None] is the error it raises on other text *)
  pg_int4in : string -> option Z
}.

(** ** The data model *)

Module User.
Record t := mk { id : Z; email : string; password : string; name : string; created_at : Z }.
End User.

Module Post.
Record t := mk { id : Z; title : string; content : string; user_id : Z;
                 created_at : Z; updated_at : Z }.
End Post.

(** A post as [GET /api/posts] returns it. *)
Record PostWithAuthor := mkPostWithAuthor {
  post : Post.t; author_name : string; author_email : string }.

(** The [user] object of a response; it never carries the password hash.
    The login response leaves [created_at] out. *)
Record UserView := mkUserView {
  uv_id : Z; uv_email : string; uv_name : string; uv_created_at : option Z }.

Inductive Body :=
| JError (error : string)
| JErrors (errors : list string)
| JAuth (message : string) (user : UserView) (token : string)
| JUser (user : UserView)
| JPosts (posts : list PostWithAuthor)
| JPost (message : string) (p : Post.t)
| JMessage (message : string)
| JHealth (status : string) (timestamp : Z) (environment : string) (mode : option string)
| JApi (message version : string) (public protected : list string)
       (documentation : string)
| Html (text : string).

Record Response := mkResponse { status : Z; body : Body }.

(** The outcome names of the specification, read off the status line and
    the error text. *)
Inductive Outcome :=
| Success | ValidationError | Conflict | InvalidCredentials
| MissingToken | InvalidToken | NotFound | Forbidden | Internal.

Definition outcome (r : Response) : Outcome :=
  match status r, body r with
  | 400, _ => ValidationError
  | 409, _ => Conflict
  | 401, JError "Access token required" => MissingToken
  | 401, _ => InvalidCredentials
  | 403, JError "Invalid or expired token" => InvalidToken
  | 403, _ => Forbidden
  | 404, _ => NotFound
  | 500, _ => Internal
  | _, _ => Success
  end.

(** What a request reads from its environment: the clock, for a
    registration the salt bcrypt draws, and for a listing of the database
    the place [scan id] at which PostgreSQL comes upon the row of the post
    [id], which settles the order of the rows that [ORDER BY] leaves
    tied. *)
Record Env := mkEnv { now : Z; salt : string; scan : Z -> Z }.

(** The password of a body as the handler receives it: a JSON string, or
    another JSON value, of which [shown] is the text express-validator
    checks in its place. *)
Inductive Password :=
| PText (s : string)
| POther (shown : string).

Definition shown (p : Password) : string :=
  match p with PText s => s | POther s => s end.

Record RegisterBody := mkRegisterBody { rb_email : string; rb_password : Password; rb_name : string }.
Record LoginBody := mkLoginBody { lb_email : string; lb_password : Password }.
Record CreateBody := mkCreateBody { cb_title : string; cb_content : string }.
Record UpdateBody := mkUpdateBody { ub_title : option string; ub_content : option string }.

Inductive Request :=
| Register (b : RegisterBody)
| Login (b : LoginBody)
| Profile (authorization : option string)
| ListPosts
| CreatePost (authorization : option string) (b : CreateBody)
| UpdatePost (authorization : option string) (id : string) (b : UpdateBody)
| DeletePost (authorization : option string) (id : string)
| Health
| ApiIndex
| Malformed.

(** The answer of the [catch] of a handler. *)
Definition internal_error : Response := mkResponse 500 (JError "Internal server error").

(** The answer of the error-handling middleware, which is reached by
    [express.json()] with a body it cannot parse, by the router with a path
    it cannot decode, and by a handler that throws outside a [try]. *)
Definition error_handler : Response := mkResponse 500 (JError "Something went wrong!").

(** ** Middleware shared by the two servers *)

Section Middleware.
Variable P : Platform.

(** [process.env.JWT_SECRET || 'your-secret-key'] *)
Definition JWT_SECRET : string :=
  match env_JWT_SECRET P with
  | Some s => if Js.truthy s then s else "your-secret-key"
  | None => "your-secret-key"
  end.

(** [process.env.NODE_ENV || 'development'] *)
Definition NODE_ENV : string :=
  match env_NODE_ENV P with
  | Some s => if Js.truthy s then s else "development"
  | None => "development"
  end.

(** jsonwebtoken's [jwt.sign({ id, email }, secret, { expiresIn: '24h' })]:
    the claims are stamped with the issue time in whole seconds, expire
    86400 s later, and are serialized with their HS256 tag. *)
Definition jwt_sign (id : Z) (email : string) (secret : string) (now : Z) : string :=
  let c := Jwt.mkClaims id email (now / 1000) (now / 1000 + 86400) in
  jwt_encode P (Jwt.mkToken c (hs256 P secret c)).

(** jsonwebtoken's [jwt.verify(token, secret, cb)]: [None] is a call of
    [cb] with an error (malformed token, bad signature, or [exp] reached). *)
Definition jwt_verify (token secret : string) (now : Z) : option Jwt.Claims :=
  match jwt_decode P token with
  | None => None
  | Some t =>
      if (Jwt.signature t =? hs256 P secret (Jwt.claims t))%string then
        if Jwt.exp (Jwt.claims t) <=? now / 1000 then None
        else Some (Jwt.claims t)
      else None
  end.

(** [authHeader && authHeader.split(' ')[1]] *)
Definition header_token (authHeader : option string) : option string :=
  match authHeader with
  | None => None
  | Some h => if Js.truthy h then nth_error (Js.split " " h) 1 else Some h
  end.

(** [authenticateToken]: a response, or [req.user] for the next handler. *)
Definition authenticateToken (now : Z) (authHeader : option string)
  : Response + Jwt.Claims :=
  match header_token authHeader with
  | None => inl (mkResponse 401 (JError "Access token required"))
  | Some token =>
      if negb (Js.truthy token) then
        inl (mkResponse 401 (JError "Access token required"))
      else
        match jwt_verify token JWT_SECRET now with
        | None => inl (mkResponse 403 (JError "Invalid or expired token"))
        | Some user => inr user
        end
  end.

(** The validation chains; each returns the fields of [errors.array()].
    A validator sees the field before the sanitizer that follows it. *)
Definition register_errors (b : RegisterBody) : list string :=
  (if isEmail P (rb_email b) then [] else ["email"]) ++
  (if (6 <=? isLength_count P (shown (rb_password b)))%nat then [] else ["password"]) ++
  (if Js.truthy (rb_name b) then [] else ["name"]).

Definition login_errors (b : LoginBody) : list string :=
  (if isEmail P (lb_email b) then [] else ["email"]) ++
  (if Js.truthy (shown (lb_password b)) then [] else ["password"]).

Definition create_errors (b : CreateBody) : list string :=
  (if Js.truthy (cb_title b) then [] else ["title"]) ++
  (if Js.truthy (cb_content b) then [] else ["content"]).

(** [.optional().trim()] twice: sanitizers only, no validator. *)
Definition update_errors (b : UpdateBody) : list string := [].

Definition user_view (u : User.t) : UserView :=
  mkUserView (User.id u) (User.email u) (User.name u) (Some (User.created_at u)).

Definition login_view (u : User.t) : UserView :=
  mkUserView (User.id u) (User.email u) (User.name u) None.

(** A sanitized field of an update when it is truthy: what
    [if (title) ...] and [if (content) ...] let through. *)
Definition supplied (field : option string) : option string :=
  match option_map Js.trim field with
  | Some v => if Js.truthy v then Some v else None
  | None => None
  end.

Definition pick (field : option string) (old : string) : string :=
  match supplied field with Some v => v | None => old end.

(** [if (title) post.title = title; if (content) post.content = content;
    post.updated_at = now] *)
Definition apply_update (b : UpdateBody) (now : Z) (p : Post.t) : Post.t :=
  Post.mk (Post.id p) (pick (ub_title b) (Post.title p))
          (pick (ub_content b) (Post.content p))
          (Post.user_id p) (Post.created_at p) now.

End Middleware.

(** ** server-dev.js: the in-memory store *)

Module Dev.

Record DataStore := mk {
  users : list User.t; posts : list Post.t; nextUserId : Z; nextPostId : Z }.

Definition dataStore : DataStore := mk [] [] 1 1.

Section Handlers.
Variable P : Platform.

Definition by_email (email : string) (u : User.t) : bool := (User.email u =? email)%string.
Definition by_id (id : Z) (u : User.t) : bool := User.id u =? id.
(** [p.id === postId], false for [NaN]. *)
Definition post_is (postId : option Z) (p : Post.t) : bool :=
  match postId with Some n => Post.id p =? n | None => false end.

(** What the registration handler holds when it reaches
    [await bcrypt.hash]: the sanitized fields of the body. *)
Record Registration := mkRegistration {
  reg_email : string; reg_password : Password; reg_name : string }.

(** The registration handler up to [await bcrypt.hash]: the validation and
    the lookup of the email. *)
Definition register_check (b : RegisterBody) (s : DataStore) : Response + Registration :=
  match register_errors P b with
  | (_ :: _) as errors => inl (mkResponse 400 (JErrors errors))
  | [] =>
      let email := normalizeEmail P (rb_email b) in
      let password := rb_password b in
      let name := Js.trim (rb_name b) in
      match find (by_email email) (users s) with
      | Some _ => inl (mkResponse 409 (JError "User already exists"))
      | None => inr (mkRegistration email password name)
      end
  end.

(** The registration handler from [await bcrypt.hash] on, on the store as
    it is by then: the push of the new user and the answer.  [bcrypt.hash]
    rejects a password that is not a string, which the [catch] answers. *)
Definition register_store (e : Env) (g : Registration) (s : DataStore)
  : DataStore * Response :=
  match reg_password g with
  | POther _ => (s, internal_error)
  | PText password =>
      let hashedPassword := bcrypt_hash P password (salt e) in
      let newUser :=
        User.mk (nextUserId s) (reg_email g) hashedPassword (reg_name g) (now e) in
      let token := jwt_sign P (User.id newUser) (User.email newUser) (JWT_SECRET P) (now e) in
      (mk (users s ++ [newUser]) (posts s) (nextUserId s + 1) (nextPostId s),
       mkResponse 201 (JAuth "User registered successfully" (user_view newUser) token))
  end.

(** A registration that no other request overlaps. *)
Definition register (e : Env) (b : RegisterBody) (s : DataStore) : DataStore * Response :=
  match register_check b s with
  | inl r => (s, r)
  | inr g => register_store e g s
  end.


(** The store is read once, by [find]; [bcrypt.compare] rejects a password
    that is not a string, which the [catch] answers. *)
Definition login (e : Env) (b : LoginBody) (s : DataStore) : DataStore * Response :=
  match login_errors P b with
  | (_ :: _) as errors => (s, mkResponse 400 (JErrors errors))
  | [] =>
      let email := normalizeEmail P (lb_email b) in
      match find (by_email email) (users s) with
      | None => (s, mkResponse 401 (JError "Invalid credentials"))
      | Some user =>
          match lb_password b with
          | POther _ => (s, internal_error)
          | PText password =>
              if negb (bcrypt_compare P password (User.password user)) then
                (s, mkResponse 401 (JError "Invalid credentials"))
              else
                let token :=
                  jwt_sign P (User.id user) (User.email user) (JWT_SECRET P) (now e) in
                (s, mkResponse 200 (JAuth "Login successful" (login_view user) token))
          end
      end
  end.

Definition profile (e : Env) (auth : option string) (s : DataStore) : DataStore * Response :=
  match authenticateToken P (now e) auth with
  | inl r => (s, r)
  | inr user =>
      match find (by_id (Jwt.id user)) (users s) with
      | None => (s, mkResponse 404 (JError "User not found"))
      | Some u => (s, mkResponse 200 (JUser (user_view u)))
      end
  end.

Definition with_author (us : list User.t) (p : Post.t) : PostWithAuthor :=
  match find (by_id (Post.user_id p)) us with
  | Some author => mkPostWithAuthor p (User.name author) (User.email author)
  | None => mkPostWithAuthor p "Unknown" "unknown@example.com"
  end.

(** [(a, b) => new Date(b.created_at) - new Date(a.created_at)] *)
Definition newest_first (a b : PostWithAuthor) : Z :=
  Post.created_at (post b) - Post.created_at (post a).

Definition postsWithAuthors (s : DataStore) : list PostWithAuthor :=
  Js.sort newest_first (map (with_author (users s)) (posts s)).

Definition listPosts (s : DataStore) : DataStore * Response :=
  (s, mkResponse 200 (JPosts (postsWithAuthors s))).

Definition createPost (e : Env) (auth : option string) (b : CreateBody) (s : DataStore)
  : DataStore * Response :=
  match authenticateToken P (now e) auth with
  | inl r => (s, r)
  | inr user =>
      match create_errors b with
      | (_ :: _) as errors => (s, mkResponse 400 (JErrors errors))
      | [] =>
          let title := Js.trim (cb_title b) in
          let content := Js.trim (cb_content b) in
          let newPost := Post.mk (nextPostId s) title content (Jwt.id user) (now e) (now e) in
          (mk (users s) (posts s ++ [newPost]) (nextUserId s) (nextPostId s + 1),
           mkResponse 201 (JPost "Post created successfully" newPost))
      end
  end.

Definition updatePost (e : Env) (auth : option string) (id : string) (b : UpdateBody)
  (s : DataStore) : DataStore * Response :=
  match authenticateToken P (now e) auth with
  | inl r => (s, r)
  | inr user =>
      match update_errors b with
      | (_ :: _) as errors => (s, mkResponse 400 (JErrors errors))
      | [] =>
          let postId := Js.parseInt id in
          match Js.findIndex (post_is postId) (posts s) with
          | None => (s, mkResponse 404 (JError "Post not found"))
          | Some postIndex =>
              match nth_error (posts s) postIndex with
              | None => (s, error_handler)
              | Some post =>
                  if negb (Post.user_id post =? Jwt.id user) then
                    (s, mkResponse 403 (JError "Unauthorized to edit this post"))
                  else
                    let post' := apply_update b (now e) post in
                    (mk (users s) (Js.set_nth postIndex post' (posts s))
                        (nextUserId s) (nextPostId s),
                     mkResponse 200 (JPost "Post updated successfully" post'))
              end
          end
      end
  end.

Definition deletePost (e : Env) (auth : option string) (id : string) (s : DataStore)
  : DataStore * Response :=
  match authenticateToken P (now e) auth with
  | inl r => (s, r)
  | inr user =>
      let postId := Js.parseInt id in
      match Js.findIndex (post_is postId) (posts s) with
      | None => (s, mkResponse 404 (JError "Post not found"))
      | Some postIndex =>
          match nth_error (posts s) postIndex with
          | None => (s, error_handler)
          | Some post =>
              if negb (Post.user_id post =? Jwt.id user) then
                (s, mkResponse 403 (JError "Unauthorized to delete this post"))
              else
                (mk (users s) (Js.splice1 postIndex (posts s)) (nextUserId s) (nextPostId s),
                 mkResponse 200 (JMessage "Post deleted successfully"))
          end
      end
  end.

(** [GET /api/health] *)
Definition health (e : Env) (s : DataStore) : DataStore * Response :=
  (s, mkResponse 200 (JHealth "healthy" (now e) (NODE_ENV P) (Some "in-memory-storage"))).

(** [GET /api], the index of the endpoints. *)
Definition apiIndex (s : DataStore) : DataStore * Response :=
  (s, mkResponse 200
        (JApi "Welcome to the Full-Stack App API" "1.0.0"
              ["GET /api/health"; "POST /api/auth/register"; "POST /api/auth/login";
               "GET /api/posts"]
              ["GET /api/users/profile"; "POST /api/posts"; "PUT /api/posts/:id";
               "DELETE /api/posts/:id"]
              "See README.md for detailed API documentation")).

Definition handle (e : Env) (r : Request) (s : DataStore) : DataStore * Response :=
  match r with
  | Register b => register e b s
  | Login b => login e b s
  | Profile auth => profile e auth s
  | ListPosts => listPosts s
  | CreatePost auth b => createPost e auth b s
  | UpdatePost auth id b => updatePost e auth id b s
  | DeletePost auth id => deletePost e auth id s
  | Health => health e s
  | ApiIndex => apiIndex s
  | Malformed => (s, error_handler)
  end.

(** A run of the server: the requests are served one after the other. *)
Fixpoint run (rs : list (Env * Request)) (s : DataStore) : DataStore * list Response :=
  match rs with
  | [] => (s, [])
  | (e, r) :: rest =>
      let '(s1, resp) := handle e r s in
      let '(s2, resps) := run rest s1 in
      (s2, resp :: resps)
  end.

End Handlers.
End Dev.

(** ** server.js: the PostgreSQL store

    The tables are those of [init.sql].  The statements are the SQL texts of
    [server.js], read with the constraints the schema declares: the [SERIAL]
    keys are [INTEGER]s drawn from a sequence, [users.email] is [UNIQUE],
    the [VARCHAR(255)] columns refuse text of more than 255 characters and
    [posts.user_id] references [users(id)]; no text parameter may hold the
    NUL character and an [INTEGER] parameter is a 32-bit integer.  A
    statement that raises is caught by the handler's [catch] and answered
    with 500.  A parameter that is refused makes the statement raise before
    it runs, so no sequence value is drawn; a row that is refused by the
    [UNIQUE] or the [FOREIGN KEY] constraint has drawn its id, which is
    lost.  The statements of one handler are run with no other request
    between them.  The column [users.updated_at] is never read and is left
    out.

    PostgreSQL cuts, instead of refusing, a text for a [VARCHAR(255)] column
    whose characters beyond the 255th are all spaces.  No value that
    [server.js] stores ends with a space (a name and a title are trimmed, an
    email is one that validator accepts, a bcrypt hash has 60 characters
    and no space), so this case is not distinguished. *)

Module Db.

Record Database := mk {
  users : list User.t; posts : list Post.t; users_id_seq : Z; posts_id_seq : Z }.

(** The database after [init.sql]. *)
Definition empty : Database := mk [] [] 1 1.

(** A byte that continues a character of UTF-8. *)
Definition continuation (c : ascii) : bool :=
  let n := nat_of_ascii c in ((128 <=? n) && (n <=? 191))%nat.

(** The number of characters of a text. *)
Fixpoint char_length (s : string) : nat :=
  match s with
  | EmptyString => 0
  | String c r => ((if continuation c then 0 else 1) + char_length r)%nat
  end.

(** A text parameter that PostgreSQL accepts: it holds no NUL. *)
Definition text (s : string) : bool := negb (occurs "000"%char s).

(** A text parameter that a [VARCHAR(n)] column accepts. *)
Definition varchar (n : nat) (s : string) : bool :=
  text s && (char_length s <=? n)%nat.

(** A number that an [INTEGER] column or parameter accepts. *)
Definition int4 (n : Z) : bool := (-2147483648 <=? n) && (n <=? 2147483647).

Section Handlers.
Variable P : Platform.

(** [INSERT INTO users (email, password, name, created_at)
     VALUES ($1, $2, $3, NOW()) RETURNING id, email, name, created_at].
    It raises, leaving the database as it is, on a parameter its column
    does not accept and when the sequence has run out of [INTEGER]s; it
    raises with the id drawn when the email is already there. *)
Definition insert_user (email password name : string) (now : Z) (d : Database)
  : Database * option User.t :=
  let row := User.mk (users_id_seq d) email password name now in
  if negb (varchar 255 email && varchar 255 password && varchar 255 name) then (d, None)
  else if negb (int4 (users_id_seq d)) then (d, None)
  else if existsb (Dev.by_email email) (users d)
  then (mk (users d) (posts d) (users_id_seq d + 1) (posts_id_seq d), None)
  else (mk (users d ++ [row]) (posts d) (users_id_seq d + 1) (posts_id_seq d), Some row).

(** [INSERT INTO posts (title, content, user_id, created_at, updated_at)
     VALUES ($1, $2, $3, NOW(), NOW()) RETURNING *].
    It raises, leaving the database as it is, on a parameter its column
    does not accept and when the sequence has run out of [INTEGER]s; it
    raises with the id drawn when no user has the [user_id]. *)
Definition insert_post (title content : string) (user_id now : Z) (d : Database)
  : Database * option Post.t :=
  let row := Post.mk (posts_id_seq d) title content user_id now now in
  if negb (varchar 255 title && text content && int4 user_id) then (d, None)
  else if negb (int4 (posts_id_seq d)) then (d, None)
  else if existsb (Dev.by_id user_id) (users d)
  then (mk (users d) (posts d ++ [row]) (users_id_seq d) (posts_id_seq d + 1), Some row)
  else (mk (users d) (posts d) (users_id_seq d) (posts_id_seq d + 1), None).

Definition post_has_id (id : Z) (p : Post.t) : bool := Post.id p =? id.

Definition register (e : Env) (b : RegisterBody) (d : Database) : Database * Response :=
  match register_errors P b with
  | (_ :: _) as errors => (d, mkResponse 400 (JErrors errors))
  | [] =>
      let email := normalizeEmail P (rb_email b) in
      let name := Js.trim (rb_name b) in
      (* SELECT id FROM users WHERE email = $1 *)
      if negb (text email) then (d, internal_error) else
      match filter (Dev.by_email email) (users d) with
      | _ :: _ => (d, mkResponse 409 (JError "User already exists"))
      | [] =>
          match rb_password b with
          | POther _ => (d, internal_error)
          | PText password =>
              let hashedPassword := bcrypt_hash P password (salt e) in
              match insert_user email hashedPassword name (now e) d with
              | (d', None) => (d', internal_error)
              | (d', Some user) =>
                  let token :=
                    jwt_sign P (User.id user) (User.email user) (JWT_SECRET P) (now e) in
                  (d', mkResponse 201
                         (JAuth "User registered successfully" (user_view user) token))
              end
          end
      end
  end.

Definition login (e : Env) (b : LoginBody) (d : Database) : Database * Response :=
  match login_errors P b with
  | (_ :: _) as errors => (d, mkResponse 400 (JErrors errors))
  | [] =>
      let email := normalizeEmail P (lb_email b) in
      (* SELECT id, email, password, name FROM users WHERE email = $1 *)
      if negb (text email) then (d, internal_error) else
      match filter (Dev.by_email email) (users d) with
      | [] => (d, mkResponse 401 (JError "Invalid credentials"))
      | user :: _ =>
          match lb_password b with
          | POther _ => (d, internal_error)
          | PText password =>
              if negb (bcrypt_compare P password (User.password user)) then
                (d, mkResponse 401 (JError "Invalid credentials"))
              else
                let token :=
                  jwt_sign P (User.id user) (User.email user) (JWT_SECRET P) (now e) in
                (d, mkResponse 200 (JAuth "Login successful" (login_view user) token))
          end
      end
  end.

Definition profile (e : Env) (auth : option string) (d : Database) : Database * Response :=
  match authenticateToken P (now e) auth with
  | inl r => (d, r)
  | inr user =>
      (* SELECT id, email, name, created_at FROM users WHERE id = $1 *)
      if negb (int4 (Jwt.id user)) then (d, internal_error) else
      match filter (Dev.by_id (Jwt.id user)) (users d) with
      | [] => (d, mkResponse 404 (JError "User not found"))
      | u :: _ => (d, mkResponse 200 (JUser (user_view u)))
      end
  end.

(** [SELECT p.*, u.name as author_name, u.email as author_email
     FROM posts p JOIN users u ON p.user_id = u.id
     ORDER BY p.created_at DESC].
    SQL leaves the order of rows with equal [created_at] open: they come in
    the order in which the scan of the request finds them. *)
Definition join_author (us : list User.t) (p : Post.t) : list PostWithAuthor :=
  map (fun u => mkPostWithAuthor p (User.name u) (User.email u))
      (filter (Dev.by_id (Post.user_id p)) us).

Definition scan_order (e : Env) (a b : PostWithAuthor) : Z :=
  scan e (Post.id (post a)) - scan e (Post.id (post b)).

Definition select_posts (e : Env) (d : Database) : list PostWithAuthor :=
  Js.sort Dev.newest_first
    (Js.sort (scan_order e) (flat_map (join_author (users d)) (posts d))).

Definition listPosts (e : Env) (d : Database) : Database * Response :=
  (d, mkResponse 200 (JPosts (select_posts e d))).

Definition createPost (e : Env) (auth : option string) (b : CreateBody) (d : Database)
  : Database * Response :=
  match authenticateToken P (now e) auth with
  | inl r => (d, r)
  | inr user =>
      match create_errors b with
      | (_ :: _) as errors => (d, mkResponse 400 (JErrors errors))
      | [] =>
          let title := Js.trim (cb_title b) in
          let content := Js.trim (cb_content b) in
          match insert_post title content (Jwt.id user) (now e) d with
          | (d', None) => (d', internal_error)
          | (d', Some row) => (d', mkResponse 201 (JPost "Post created successfully" row))
          end
      end
  end.

(** [UPDATE posts SET title = .., content = .., updated_at = NOW()
     WHERE id = $n RETURNING *], with the [SET] list built from the
    fields that are truthy; [None] when a new value is refused by its
    column. *)
Definition set_fits (b : UpdateBody) : bool :=
  match supplied (ub_title b) with Some v => varchar 255 v | None => true end
  && match supplied (ub_content b) with Some v => text v | None => true end.

Definition update_post (b : UpdateBody) (now id : Z) (d : Database)
  : option (Database * list Post.t) :=
  if set_fits b then
    let upd p := if post_has_id id p then apply_update b now p else p in
    Some (mk (users d) (map upd (posts d)) (users_id_seq d) (posts_id_seq d),
          map (apply_update b now) (filter (post_has_id id) (posts d)))
  else None.

(** [DELETE FROM posts WHERE id = $1] *)
Definition delete_post (id : Z) (d : Database) : Database :=
  mk (users d) (filter (fun p => negb (post_has_id id p)) (posts d))
     (users_id_seq d) (posts_id_seq d).

Definition updatePost (e : Env) (auth : option string) (id : string) (b : UpdateBody)
  (d : Database) : Database * Response :=
  match authenticateToken P (now e) auth with
  | inl r => (d, r)
  | inr user =>
      match update_errors b with
      | (_ :: _) as errors => (d, mkResponse 400 (JErrors errors))
      | [] =>
          match pg_int4in P id with
          | None => (d, internal_error)
          | Some n =>
              (* SELECT user_id FROM posts WHERE id = $1 *)
              match filter (post_has_id n) (posts d) with
              | [] => (d, mkResponse 404 (JError "Post not found"))
              | row :: _ =>
                  if negb (Post.user_id row =? Jwt.id user) then
                    (d, mkResponse 403 (JError "Unauthorized to edit this post"))
                  else
                    match update_post b (now e) n d with
                    | None => (d, internal_error)
                    | Some (d', r0 :: _) =>
                        (d', mkResponse 200 (JPost "Post updated successfully" r0))
                    | Some (d', []) =>
                        (d', mkResponse 200 (JMessage "Post updated successfully"))
                    end
              end
          end
      end
  end.

Definition deletePost (e : Env) (auth : option string) (id : string) (d : Database)
  : Database * Response :=
  match authenticateToken P (now e) auth with
  | inl r => (d, r)
  | inr user =>
      match pg_int4in P id with
      | None => (d, internal_error)
      | Some n =>
          (* SELECT user_id FROM posts WHERE id = $1 *)
          match filter (post_has_id n) (posts d) with
          | [] => (d, mkResponse 404 (JError "Post not found"))
          | row :: _ =>
              if negb (Post.user_id row =? Jwt.id user) then
                (d, mkResponse 403 (JError "Unauthorized to delete this post"))
              else
                (delete_post n d, mkResponse 200 (JMessage "Post deleted successfully"))
          end
      end
  end.

(** [GET /api/health] *)
Definition health (e : Env) (d : Database) : Database * Response :=
  (d, mkResponse 200 (JHealth "healthy" (now e) (NODE_ENV P) None)).

(** [server.js] has no route for [GET /api]: Express answers 404. *)
Definition no_route (d : Database) : Database * Response :=
  (d, mkResponse 404 (Html "Cannot GET /api")).

Definition handle (e : Env) (r : Request) (d : Database) : Database * Response :=
  match r with
  | Register b => register e b d
  | Login b => login e b d
  | Profile auth => profile e auth d
  | ListPosts => listPosts e d
  | CreatePost auth b => createPost e auth b d
  | UpdatePost auth id b => updatePost e auth id b d
  | DeletePost auth id => deletePost e auth id d
  | Health => health e d
  | ApiIndex => no_route d
  | Malformed => (d, error_handler)
  end.

Fixpoint run (rs : list (Env * Request)) (d : Database) : Database * list Response :=
  match rs with
  | [] => (d, [])
  | (e, r) :: rest =>
      let '(d1, resp) := handle e r d in
      let '(d2, resps) := run rest d1 in
      (d2, resp :: resps)
  end.

End Handlers.
End Db.

(** ** A concrete platform

    Small stand-ins for the libraries, on which the servers run inside Rocq:
    they give the examples and the instances of the theorems below.  The
    hash and the tag are not cryptographic. *)

Module Demo.

Definition dec (z : Z) : string := NilZero.string_of_int (Z.to_int z).

Definition lower (c : ascii) : ascii :=
  let n := nat_of_ascii c in
  if ((65 <=? n) && (n <=? 90))%nat then ascii_of_nat (n + 32) else c.

Fixpoint map_string (f : ascii -> ascii) (s : string) : string :=
  match s with
  | EmptyString => ""
  | String c r => String (f c) (map_string f r)
  end.

Fixpoint contains (c : ascii) (s : string) : bool :=
  match s with
  | EmptyString => false
  | String d r => Ascii.eqb c d || contains c r
  end.

Definition tag (key : string) (c : Jwt.Claims) : string :=
  dec (Z.of_nat (String.length key) + 3 * Jwt.id c + 5 * Jwt.iat c + 7 * Jwt.exp c
       + Z.of_nat (String.length (Jwt.email c))).

Definition encode (t : Jwt.Token) : string :=
  let c := Jwt.claims t in
  dec (Jwt.id c) ++ "." ++ dec (Jwt.iat c) ++ "." ++ dec (Jwt.exp c) ++ "."
  ++ Jwt.signature t ++ "." ++ Jwt.email c.

Definition decode (s : string) : option Jwt.Token :=
  match Js.split "." s with
  | i :: a :: x :: g :: e0 :: es =>
      match Js.parseInt i, Js.parseInt a, Js.parseInt x with
      | Some i', Some a', Some x' =>
          Some (Jwt.mkToken (Jwt.mkClaims i' (String.concat "." (e0 :: es)) a' x') g)
      | _, _, _ => None
      end
  | _ => None
  end.

Definition all_digits (s : string) : bool :=
  Js.truthy s &&
  forallb (fun c => match Js.digit_val 10 c with Some _ => true | None => false end)
          (list_ascii_of_string s).

(** An [INTEGER] in decimal digits, with a sign or without. *)
Definition int4in (s : string) : option Z :=
  let '(sign, digits) :=
    match s with
    | String "-" r => (-1, r)
    | String "+" r => (1, r)
    | _ => (1, s)
    end in
  if all_digits digits then
    match Js.parseInt digits with
    | Some n => if Db.int4 (sign * n) then Some (sign * n) else None
    | None => None
    end
  else None.

Definition platform : Platform := {|
  isEmail := contains "@";
  normalizeEmail := map_string lower;
  isLength_count := Db.char_length;
  bcrypt_hash := fun password salt => password ++ "$" ++ salt;
  bcrypt_compare := fun password hash => String.prefix (password ++ "$") hash;
  hs256 := tag;
  jwt_encode := encode;
  jwt_decode := decode;
  env_JWT_SECRET := None;
  env_NODE_ENV := None;
  pg_int4in := int4in
|}.

Definition at_ (t : Z) : Env := mkEnv t "salt" (fun id => id).

End Demo.

(** Two registered users and one post of the first, on both servers. *)
Module Scenario.
Import Demo.

Definition alice := mkRegisterBody "Alice@Example.com" (PText "secret1") "Alice".
Definition bob := mkRegisterBody "bob@example.com" (PText "secret2") " Bob ".

Definition token_alice : string :=
  jwt_sign platform 1 "alice@example.com" (JWT_SECRET platform) 1000.
Definition token_bob : string :=
  jwt_sign platform 2 "bob@example.com" (JWT_SECRET platform) 2000.
Definition auth_alice : option string := Some ("Bearer " ++ token_alice).
Definition auth_bob : option string := Some ("Bearer " ++ token_bob).
Definition claims_alice := Jwt.mkClaims 1 "alice@example.com" 1 86401.
Definition claims_bob := Jwt.mkClaims 2 "bob@example.com" 2 86402.

(** A registration whose name is 256 characters long. *)
Definition long_name : string := string_of_list_ascii (repeat "a"%char 256).
Definition carol := mkRegisterBody "carol@example.com" (PText "secret3") long_name.

Definition requests : list (Env * Request) :=
  [ (at_ 1000, Register alice);
    (at_ 2000, Register bob);
    (at_ 3000, CreatePost auth_alice (mkCreateBody "Hi" "World")) ].

(** The whole session of the specification: Bob may not edit the post,
    Alice edits, lists and deletes it. *)
Definition session : list (Env * Request) :=
  requests ++
  [ (at_ 4000, UpdatePost auth_bob "1" (mkUpdateBody (Some "x") None));
    (at_ 5000, UpdatePost auth_alice "1" (mkUpdateBody (Some " Hello ") None));
    (at_ 6000, ListPosts);
    (at_ 7000, DeletePost auth_alice "1");
    (at_ 8000, ListPosts);
    (at_ 9000, Login (mkLoginBody "bob@example.com" (PText "secret2")));
    (at_ 9500, Profile auth_bob) ].

Definition store : Dev.DataStore := fst (Dev.run platform requests Dev.dataStore).

(** A store whose only post has no author. *)
Definition orphan : Post.t := Post.mk 1 "Hi" "World" 7 3000 3000.
Definition orphaned : Dev.DataStore := Dev.mk [] [orphan] 1 2.
Definition database : Db.Database := fst (Db.run platform requests Db.empty).

End Scenario.

(** ** Notions used to state the contract *)




(** The outcome of the middleware alone. *)
Definition auth_outcome (r : Response + Jwt.Claims) : Outcome :=
  match r with inl resp => outcome resp | inr _ => Success end.

(** The error outcomes of the contract ([Internal] is not one of them). *)
Definition error_outcomes : list Outcome :=
  [ValidationError; Conflict; InvalidCredentials; MissingToken; InvalidToken;
   NotFound; Forbidden].

(** What the claim says of the answer [r] of a login with the email of
    [b] and the password [password] on the users [us]: 401 exactly when no
    user has the (normalized) email or the hash comparison fails, with one
    and the same answer in both cases, and otherwise the user without its
    hash together with a token. *)
Definition login_contract (P : Platform) (e : Env) (b : LoginBody) (password : string)
  (us : list User.t) (r : Response) : Prop :=
  let email := normalizeEmail P (lb_email b) in
  (outcome r = InvalidCredentials <->
     (forall u, In u us -> User.email u <> email) \/
     (exists u, find (Dev.by_email email) us = Some u /\
                bcrypt_compare P password (User.password u) = false)) /\
  (outcome r = InvalidCredentials -> r = mkResponse 401 (JError "Invalid credentials")) /\
  (forall u, find (Dev.by_email email) us = Some u ->
     bcrypt_compare P password (User.password u) = true ->
     r = mkResponse 200
           (JAuth "Login successful"
                  (mkUserView (User.id u) (User.email u) (User.name u) None)
                  (jwt_sign P (User.id u) (User.email u) (JWT_SECRET P) (now e)))).

(** The constraints the two stores maintain: emails and ids are unique, ids
    lie below the counters; on the database every post has its author. *)
Definition users_ok (us : list User.t) (next : Z) : Prop :=
  NoDup (map User.email us) /\ NoDup (map User.id us) /\
  Forall (fun u => User.id u < next) us.

Definition posts_ok (ps : list Post.t) (next : Z) : Prop :=
  NoDup (map Post.id ps) /\ Forall (fun p => Post.id p < next) ps.

Definition authors_ok (us : list User.t) (ps : list Post.t) : Prop :=
  Forall (fun p => existsb (Dev.by_id (Post.user_id p)) us = true) ps.

Definition dev_ok (s : Dev.DataStore) : Prop :=
  users_ok (Dev.users s) (Dev.nextUserId s) /\ posts_ok (Dev.posts s) (Dev.nextPostId s).

Definition db_ok (d : Db.Database) : Prop :=
  users_ok (Db.users d) (Db.users_id_seq d) /\ posts_ok (Db.posts d) (Db.posts_id_seq d) /\
  authors_ok (Db.users d) (Db.posts d).

(** The order of a listing: no post is followed by a newer one. *)
Definition not_older (a b : PostWithAuthor) : Prop :=
  Post.created_at (post b) <= Post.created_at (post a).

(** An entry of a listing carries the name and email of the first user
    whose id is the post's [user_id], or the placeholder when there is
    none. *)
Definition enriched (us : list User.t) (x : PostWithAuthor) : Prop :=
  match find (Dev.by_id (Post.user_id (post x))) us with
  | Some u => author_name x = User.name u /\ author_email x = User.email u
  | None => author_name x = "Unknown" /\ author_email x = "unknown@example.com"
  end.

(** The second space-separated field of the Authorization header, if any. *)
Definition second_field (authHeader : option string) : option string :=
  match authHeader with
  | Some h => nth_error (Js.split " " h) 1
  | None => None
  end.

(** The token whose serialization [jwt_sign] returns. *)
Definition issued (P : Platform) (id : Z) (email : string) (now : Z) : Jwt.Token :=
  let c := Jwt.mkClaims id email (now / 1000) (now / 1000 + 86400) in
  Jwt.mkToken c (hs256 P (JWT_SECRET P) c).

(** The serialization of a token can travel in a header and be read back. *)
Definition travels (P : Platform) (t : Jwt.Token) : Prop :=
  jwt_decode P (jwt_encode P t) = Some t /\
  Js.split " " (jwt_encode P t) = [jwt_encode P t] /\
  jwt_encode P t <> "".

(** The token text of an answer of register or login. *)
Definition token_of (r : Response) : option string :=
  match body r with JAuth _ _ tok => Some tok | _ => None end.

Definition user_of (r : Response) : option UserView :=
  match body r with JAuth _ u _ => Some u | _ => None end.

(** ** Comparing the two servers *)

(** The database that holds what an in-memory store holds. *)
Definition embed (s : Dev.DataStore) : Db.Database :=
  Db.mk (Dev.users s) (Dev.posts s) (Dev.nextUserId s) (Dev.nextPostId s).

(** The id of a path is read as the same integer by [parseInt] and by
    PostgreSQL. *)
Definition same_id (P : Platform) (id : string) : bool :=
  match Js.parseInt id, pg_int4in P id with
  | Some a, Some b => a =? b
  | _, _ => false
  end.

(** No number occurs twice. *)
Fixpoint distinct (l : list Z) : bool :=
  match l with
  | [] => true
  | x :: r => negb (existsb (Z.eqb x) r) && distinct r
  end.

(** A request that PostgreSQL and the schema of [init.sql] have room for:
    the text it hands to the database holds no NUL, what it would store
    fits its column, the ids it uses and draws are [INTEGER]s, a post is
    created for a user that exists, the id of a path is the same integer
    for both servers, and a listing is asked for when no two posts have the
    same [created_at].  The health check and the index of the endpoints,
    which the two servers answer differently, are left out. *)
Definition admissible (P : Platform) (e : Env) (r : Request) (s : Dev.DataStore) : bool :=
  match r with
  | Register b =>
      Db.varchar 255 (normalizeEmail P (rb_email b))
      && match rb_password b with
         | PText password => Db.varchar 255 (bcrypt_hash P password (salt e))
         | POther _ => true
         end
      && Db.varchar 255 (Js.trim (rb_name b))
      && Db.int4 (Dev.nextUserId s)
  | Login b => Db.text (normalizeEmail P (lb_email b))
  | Profile auth =>
      match authenticateToken P (now e) auth with
      | inr user => Db.int4 (Jwt.id user)
      | inl _ => true
      end
  | ListPosts => distinct (map Post.created_at (Dev.posts s))
  | CreatePost auth b =>
      Db.varchar 255 (Js.trim (cb_title b))
      && Db.text (Js.trim (cb_content b))
      && Db.int4 (Dev.nextPostId s)
      && match authenticateToken P (now e) auth with
         | inr user =>
             Db.int4 (Jwt.id user) && existsb (Dev.by_id (Jwt.id user)) (Dev.users s)
         | inl _ => true
         end
  | UpdatePost _ id b =>
      same_id P id && Db.set_fits b
  | DeletePost _ id => same_id P id
  | Health | ApiIndex => false
  | Malformed => true
  end.

Fixpoint admissible_run (P : Platform) (rs : list (Env * Request)) (s : Dev.DataStore)
  : bool :=
  match rs with
  | [] => true
  | (e, r) :: rest => admissible P e r s && admissible_run P rest (fst (Dev.handle P e r s))
  end.

(** ** Notions used to state the further properties *)

(** The text is one white-space character. *)
Definition one_space (w : string) : Prop := Js.space w = Some "".

(** The text is made of white-space characters only (the empty text
    included). *)
Inductive all_space : string -> Prop :=
| all_space_nil : all_space ""
| all_space_cons w s : one_space w -> all_space s -> all_space (w ++ s).

Definition starts_with_space (s : string) : Prop :=
  exists w r, one_space w /\ s = w ++ r.

Definition ends_with_space (s : string) : Prop :=
  exists r w, one_space w /\ s = r ++ w.

(** The routes behind [authenticateToken]. *)
Definition protected (r : Request) : option (option string) :=
  match r with
  | Profile auth | CreatePost auth _ | UpdatePost auth _ _ | DeletePost auth _ => Some auth
  | _ => None
  end.

(** The routes that only read. *)
Definition read_only (r : Request) : bool :=
  match r with
  | Login _ | Profile _ | ListPosts | Health | ApiIndex => true
  | _ => false
  end.

(** [p'] is the post [p] at a later time: same id, owner and creation
    time. *)
Definition descends (p p' : Post.t) : Prop :=
  Post.id p' = Post.id p /\ Post.user_id p' = Post.user_id p /\
  Post.created_at p' = Post.created_at p.

(** The stored password is what [bcrypt.hash] returned for a password that
    passed the length check. *)
Definition hashed (P : Platform) (u : User.t) : Prop :=
  exists password salt,
    User.password u = bcrypt_hash P password salt /\
    (6 <= isLength_count P password)%nat.

(** Text that [trim] leaves as it is. *)
Definition trimmed (s : string) : Prop := Js.trim s = s.

Definition tidy_user (u : User.t) : Prop := trimmed (User.name u).
Definition tidy_post (p : Post.t) : Prop :=
  trimmed (Post.title p) /\ trimmed (Post.content p).

(** The clock never runs backwards over the requests, starting at [t]. *)
Fixpoint clock_ok (t : Z) (rs : list (Env * Request)) : Prop :=
  match rs with
  | [] => True
  | (e, _) :: rest => t <= now e /\ clock_ok (now e) rest
  end.

(** The clock reading of the last request. *)
Fixpoint last_clock (t : Z) (rs : list (Env * Request)) : Z :=
  match rs with
  | [] => t
  | (e, _) :: rest => last_clock (now e) rest
  end.

Definition timely (t : Z) (p : Post.t) : Prop :=
  Post.created_at p <= Post.updated_at p /\ Post.updated_at p <= t.

(** A non-empty text of decimal digits. *)
Fixpoint all_decimal (s : string) : bool :=
  match s with
  | EmptyString => true
  | String c r =>
      match Js.digit_val 10 c with Some _ => all_decimal r | None => false end
  end.

Definition decimal (s : string) : bool := Js.truthy s && all_decimal s.

(** Text at which [parseInt] stops after decimal digits: it is empty or
    starts with a character that is neither a digit nor the [x] of a
    hexadecimal prefix. *)
Definition stops (rest : string) : bool :=
  match rest with
  | EmptyString => true
  | String c _ =>
      match Js.digit_val 10 c with
      | Some _ => false
      | None => negb (Ascii.eqb c "x") && negb (Ascii.eqb c "X")
      end
  end.

(** The posts of a listing, or of a store, created at the instant [t]. *)
Definition created_at_is (t : Z) (p : Post.t) : bool := Post.created_at p =? t.



(** * Proofs *)

(** ** Facts about the JavaScript primitives *)

Lemma truthy_true (s : string) : Js.truthy s = true <-> s <> "".
Proof.
  unfold Js.truthy. destruct (String.eqb_spec s ""); simpl; split; congruence.
Qed.

Lemma truthy_false (s : string) : Js.truthy s = false <-> s = "".
Proof.
  unfold Js.truthy. destruct (String.eqb_spec s ""); simpl; split; congruence.
Qed.



Lemma findIndex_Some {A} (f : A -> bool) (l : list A) (i : nat) :
  Js.findIndex f l = Some i ->
  exists x, nth_error l i = Some x /\ find f l = Some x /\ f x = true.
Proof.
  revert i. induction l as [|y r IH]; simpl; intros i H; [discriminate|].
  destruct (f y) eqn:Fy.
  - injection H as <-. exists y. auto.
  - destruct (Js.findIndex f r) as [j|]; [|discriminate].
    injection H as <-. destruct (IH j eq_refl) as (x & ? & ? & ?).
    exists x. auto.
Qed.

Lemma findIndex_None {A} (f : A -> bool) (l : list A) :
  Js.findIndex f l = None <-> find f l = None.
Proof.
  induction l as [|y r IH]; simpl; [tauto|].
  destruct (f y); [split; discriminate|].
  destruct (Js.findIndex f r); simpl.
  - split; intro H; [discriminate|]. apply IH in H. discriminate.
  - split; intro H; [apply IH|]; reflexivity.
Qed.

Lemma find_findIndex {A} (f : A -> bool) (l : list A) (x : A) :
  find f l = Some x ->
  exists i, Js.findIndex f l = Some i /\ nth_error l i = Some x.
Proof.
  induction l as [|y r IH]; simpl; [discriminate|].
  destruct (f y).
  - intros [= <-]. exists 0%nat. auto.
  - intros H. destruct (IH H) as (i & -> & ?). exists (S i). auto.
Qed.

Lemma find_hd_filter {A} (f : A -> bool) (l : list A) :
  find f l = hd_error (filter f l).
Proof.
  induction l as [|y r IH]; simpl; [reflexivity|]. destruct (f y); auto.
Qed.

Lemma find_none_iff {A} (f : A -> bool) (l : list A) :
  find f l = None <-> forall x, In x l -> f x = false.
Proof.
  split; [apply find_none|].
  induction l as [|y r IH]; simpl; intros H; [reflexivity|].
  rewrite (H y (or_introl eq_refl)). apply IH. auto.
Qed.

Lemma existsb_find {A} (f : A -> bool) (l : list A) :
  existsb f l = match find f l with Some _ => true | None => false end.
Proof.
  induction l as [|y r IH]; simpl; [reflexivity|]. destruct (f y); auto.
Qed.

(** ** The ownership check of update and delete *)

Section Ownership.
Variable P : Platform.
Variables (e : Env) (auth : option string) (id : string) (user : Jwt.Claims).
Hypothesis Hauth : authenticateToken P (now e) auth = inr user.

Lemma dev_update_not_found b s :
  find (Dev.post_is (Js.parseInt id)) (Dev.posts s) = None ->
  Dev.updatePost P e auth id b s = (s, mkResponse 404 (JError "Post not found")).
Proof.
  intros H. unfold Dev.updatePost. rewrite Hauth. simpl.
  apply findIndex_None in H. rewrite H. reflexivity.
Qed.

Lemma dev_delete_not_found s :
  find (Dev.post_is (Js.parseInt id)) (Dev.posts s) = None ->
  Dev.deletePost P e auth id s = (s, mkResponse 404 (JError "Post not found")).
Proof.
  intros H. unfold Dev.deletePost. rewrite Hauth.
  apply findIndex_None in H. rewrite H. reflexivity.
Qed.

Lemma dev_update_found b s p :
  find (Dev.post_is (Js.parseInt id)) (Dev.posts s) = Some p ->
  exists i, Js.findIndex (Dev.post_is (Js.parseInt id)) (Dev.posts s) = Some i /\
    nth_error (Dev.posts s) i = Some p /\
    Dev.updatePost P e auth id b s =
      if Post.user_id p =? Jwt.id user then
        (Dev.mk (Dev.users s) (Js.set_nth i (apply_update b (now e) p) (Dev.posts s))
                (Dev.nextUserId s) (Dev.nextPostId s),
         mkResponse 200 (JPost "Post updated successfully" (apply_update b (now e) p)))
      else (s, mkResponse 403 (JError "Unauthorized to edit this post")).
Proof.
  intros H. destruct (find_findIndex _ _ _ H) as (i & Hi & Hn).
  exists i. repeat split; trivial.
  unfold Dev.updatePost. rewrite Hauth. simpl. rewrite Hi, Hn.
  destruct (Post.user_id p =? Jwt.id user); reflexivity.
Qed.

Lemma dev_delete_found s p :
  find (Dev.post_is (Js.parseInt id)) (Dev.posts s) = Some p ->
  exists i, Js.findIndex (Dev.post_is (Js.parseInt id)) (Dev.posts s) = Some i /\
    nth_error (Dev.posts s) i = Some p /\
    Dev.deletePost P e auth id s =
      if Post.user_id p =? Jwt.id user then
        (Dev.mk (Dev.users s) (Js.splice1 i (Dev.posts s))
                (Dev.nextUserId s) (Dev.nextPostId s),
         mkResponse 200 (JMessage "Post deleted successfully"))
      else (s, mkResponse 403 (JError "Unauthorized to delete this post")).
Proof.
  intros H. destruct (find_findIndex _ _ _ H) as (i & Hi & Hn).
  exists i. repeat split; trivial.
  unfold Dev.deletePost. rewrite Hauth. rewrite Hi, Hn.
  destruct (Post.user_id p =? Jwt.id user); reflexivity.
Qed.

Variable n : Z.
Hypothesis Hid : pg_int4in P id = Some n.

Lemma db_update_not_found b d :
  find (Db.post_has_id n) (Db.posts d) = None ->
  Db.updatePost P e auth id b d = (d, mkResponse 404 (JError "Post not found")).
Proof.
  intros H. unfold Db.updatePost. rewrite Hauth, Hid. simpl.
  rewrite find_hd_filter in H.
  destruct (filter (Db.post_has_id n) (Db.posts d)); [reflexivity | discriminate].
Qed.

Lemma db_delete_not_found d :
  find (Db.post_has_id n) (Db.posts d) = None ->
  Db.deletePost P e auth id d = (d, mkResponse 404 (JError "Post not found")).
Proof.
  intros H. unfold Db.deletePost. rewrite Hauth, Hid.
  rewrite find_hd_filter in H.
  destruct (filter (Db.post_has_id n) (Db.posts d)); [reflexivity | discriminate].
Qed.

Lemma db_update_found b d p :
  find (Db.post_has_id n) (Db.posts d) = Some p ->
  Db.updatePost P e auth id b d =
    if Post.user_id p =? Jwt.id user then
      match Db.update_post b (now e) n d with
      | None => (d, internal_error)
      | Some (d', r0 :: _) => (d', mkResponse 200 (JPost "Post updated successfully" r0))
      | Some (d', []) => (d', mkResponse 200 (JMessage "Post updated successfully"))
      end
    else (d, mkResponse 403 (JError "Unauthorized to edit this post")).
Proof.
  intros H. unfold Db.updatePost. rewrite Hauth, Hid. simpl.
  rewrite find_hd_filter in H.
  destruct (filter (Db.post_has_id n) (Db.posts d)) as [|q rows]; [discriminate|].
  injection H as ->. destruct (Post.user_id p =? Jwt.id user); reflexivity.
Qed.

Lemma db_delete_found d p :
  find (Db.post_has_id n) (Db.posts d) = Some p ->
  Db.deletePost P e auth id d =
    if Post.user_id p =? Jwt.id user then
      (Db.delete_post n d, mkResponse 200 (JMessage "Post deleted successfully"))
    else (d, mkResponse 403 (JError "Unauthorized to delete this post")).
Proof.
  intros H. unfold Db.deletePost. rewrite Hauth, Hid.
  rewrite find_hd_filter in H.
  destruct (filter (Db.post_has_id n) (Db.posts d)) as [|q rows]; [discriminate|].
  injection H as ->. destruct (Post.user_id p =? Jwt.id user); reflexivity.
Qed.

End Ownership.

Lemma db_no_integer_id (P : Platform) e auth id b user d :
  authenticateToken P (now e) auth = inr user -> pg_int4in P id = None ->
  Db.updatePost P e auth id b d = (d, internal_error) /\
  Db.deletePost P e auth id d = (d, internal_error).
Proof.
  intros Hauth Hid. unfold Db.updatePost, Db.deletePost. rewrite Hauth, Hid. auto.
Qed.

(** C2 (amended): for an authenticated actor, update and delete answer 404
    when no post has the id of the request, 403 when the post is owned by
    somebody else (whatever else the actor owns), and only an owner's
    request changes the store or succeeds.  In [server-dev.js] the id is
    what [parseInt] reads in the path, and a path in which it reads no
    number is answered with 404; in [server.js] it is the integer PostgreSQL
    reads there, and a path that PostgreSQL does not read as an [INTEGER] is
    answered with 500, the store being left as it is. *)
Theorem C2_not_found_forbidden_owner
  (P : Platform) (e : Env) (auth : option string) (id : string) (b : UpdateBody)
  (user : Jwt.Claims) (s : Dev.DataStore) (d : Db.Database) :
  authenticateToken P (now e) auth = inr user ->
  let dev_post := find (Dev.post_is (Js.parseInt id)) (Dev.posts s) in
  let db_post n := find (Db.post_has_id n) (Db.posts d) in
  let not_found r := r = mkResponse 404 (JError "Post not found") /\ outcome r = NotFound in
  let forbidden r := status r = 403 /\ outcome r = Forbidden in
  (dev_post = None ->
     fst (Dev.updatePost P e auth id b s) = s /\ not_found (snd (Dev.updatePost P e auth id b s)) /\
     fst (Dev.deletePost P e auth id s) = s /\ not_found (snd (Dev.deletePost P e auth id s))) /\
  (forall p, dev_post = Some p -> Post.user_id p <> Jwt.id user ->
     fst (Dev.updatePost P e auth id b s) = s /\ forbidden (snd (Dev.updatePost P e auth id b s)) /\
     fst (Dev.deletePost P e auth id s) = s /\ forbidden (snd (Dev.deletePost P e auth id s))) /\
  (fst (Dev.updatePost P e auth id b s) <> s \/ outcome (snd (Dev.updatePost P e auth id b s)) = Success \/
   fst (Dev.deletePost P e auth id s) <> s \/ outcome (snd (Dev.deletePost P e auth id s)) = Success ->
     exists p, dev_post = Some p /\ Post.user_id p = Jwt.id user) /\
  (forall n, pg_int4in P id = Some n -> db_post n = None ->
     fst (Db.updatePost P e auth id b d) = d /\ not_found (snd (Db.updatePost P e auth id b d)) /\
     fst (Db.deletePost P e auth id d) = d /\ not_found (snd (Db.deletePost P e auth id d))) /\
  (forall n p, pg_int4in P id = Some n -> db_post n = Some p -> Post.user_id p <> Jwt.id user ->
     fst (Db.updatePost P e auth id b d) = d /\ forbidden (snd (Db.updatePost P e auth id b d)) /\
     fst (Db.deletePost P e auth id d) = d /\ forbidden (snd (Db.deletePost P e auth id d))) /\
  (fst (Db.updatePost P e auth id b d) <> d \/ outcome (snd (Db.updatePost P e auth id b d)) = Success \/
   fst (Db.deletePost P e auth id d) <> d \/ outcome (snd (Db.deletePost P e auth id d)) = Success ->
     exists n p, pg_int4in P id = Some n /\ db_post n = Some p /\ Post.user_id p = Jwt.id user) /\
  (Js.parseInt id = None ->
     Dev.updatePost P e auth id b s = (s, mkResponse 404 (JError "Post not found")) /\
     Dev.deletePost P e auth id s = (s, mkResponse 404 (JError "Post not found"))) /\
  (pg_int4in P id = None ->
     Db.updatePost P e auth id b d = (d, internal_error) /\
     Db.deletePost P e auth id d = (d, internal_error) /\
     outcome internal_error = Internal).
Proof.
  intros Hauth dev_post db_post not_found forbidden.
  assert (Hne : forall p, Post.user_id p <> Jwt.id user -> (Post.user_id p =? Jwt.id user) = false)
    by (intros; apply Z.eqb_neq; assumption).
  repeat apply conj.
  - intros H.
    rewrite (dev_update_not_found P e auth id user Hauth b s H).
    rewrite (dev_delete_not_found P e auth id user Hauth s H).
    unfold not_found. repeat split.
  - intros p H Hp.
    destruct (dev_update_found P e auth id user Hauth b s p H) as (i & _ & _ & ->).
    destruct (dev_delete_found P e auth id user Hauth s p H) as (j & _ & _ & ->).
    rewrite (Hne p Hp). unfold forbidden. repeat split.
  - intros H. destruct dev_post as [p|] eqn:E; subst dev_post.
    + exists p. split; [reflexivity|].
      destruct (Z.eq_dec (Post.user_id p) (Jwt.id user)) as [|Hp]; [assumption|exfalso].
      destruct (dev_update_found P e auth id user Hauth b s p E) as (i & _ & _ & Hu).
      destruct (dev_delete_found P e auth id user Hauth s p E) as (j & _ & _ & Hd).
      rewrite Hu, Hd, (Hne p Hp) in H. simpl in H.
      destruct H as [H|[H|[H|H]]]; try discriminate; apply H; reflexivity.
    + exfalso.
      rewrite (dev_update_not_found P e auth id user Hauth b s E) in H.
      rewrite (dev_delete_not_found P e auth id user Hauth s E) in H. simpl in H.
      destruct H as [H|[H|[H|H]]]; try discriminate; apply H; reflexivity.
  - intros n Hid H.
    rewrite (db_update_not_found P e auth id user Hauth n Hid b d H).
    rewrite (db_delete_not_found P e auth id user Hauth n Hid d H).
    unfold not_found. repeat split.
  - intros n p Hid H Hp.
    rewrite (db_update_found P e auth id user Hauth n Hid b d p H).
    rewrite (db_delete_found P e auth id user Hauth n Hid d p H).
    rewrite (Hne p Hp). unfold forbidden. repeat split.
  - intros H. destruct (pg_int4in P id) as [n|] eqn:Hid.
    2:{ exfalso. destruct (db_no_integer_id P e auth id b user d Hauth Hid) as [Hu Hd].
        rewrite Hu, Hd in H. simpl in H.
        destruct H as [H|[H|[H|H]]]; try discriminate; apply H; reflexivity. }
    exists n. destruct (db_post n) as [p|] eqn:E; subst db_post.
    + exists p. split; [reflexivity|]. split; [reflexivity|].
      destruct (Z.eq_dec (Post.user_id p) (Jwt.id user)) as [|Hp]; [assumption|exfalso].
      rewrite (db_update_found P e auth id user Hauth n Hid b d p E) in H.
      rewrite (db_delete_found P e auth id user Hauth n Hid d p E) in H.
      rewrite (Hne p Hp) in H. simpl in H.
      destruct H as [H|[H|[H|H]]]; try discriminate; apply H; reflexivity.
    + exfalso.
      rewrite (db_update_not_found P e auth id user Hauth n Hid b d E) in H.
      rewrite (db_delete_not_found P e auth id user Hauth n Hid d E) in H. simpl in H.
      destruct H as [H|[H|[H|H]]]; try discriminate; apply H; reflexivity.
  - intros Hnan.
    assert (F : find (Dev.post_is (Js.parseInt id)) (Dev.posts s) = None).
    { rewrite Hnan. apply find_none_iff. reflexivity. }
    rewrite (dev_update_not_found P e auth id user Hauth b s F).
    rewrite (dev_delete_not_found P e auth id user Hauth s F). auto.
  - intros Hid. destruct (db_no_integer_id P e auth id b user d Hauth Hid) as [-> ->].
    repeat split.
Qed.

(** C2 as stated fails on the database server: for a path whose id is not
    an [INTEGER], such as [abc] or 2147483648, no post has the id, and yet
    the answer to the owner of every post is not NotFound but the 500 of the
    [catch]; the in-memory server answers 404. *)
Lemma C2_counterexample :
  authenticateToken Demo.platform 4000 Scenario.auth_alice = inr Scenario.claims_alice /\
  pg_int4in Demo.platform "abc" = None /\ pg_int4in Demo.platform "2147483648" = None /\
  (forall p, In p (Db.posts Scenario.database) -> Post.id p <> 2147483648) /\
  Db.updatePost Demo.platform (Demo.at_ 4000) Scenario.auth_alice "abc"
    (mkUpdateBody (Some "x") None) Scenario.database
    = (Scenario.database, mkResponse 500 (JError "Internal server error")) /\
  Db.deletePost Demo.platform (Demo.at_ 4000) Scenario.auth_alice "2147483648"
    Scenario.database
    = (Scenario.database, mkResponse 500 (JError "Internal server error")) /\
  outcome (mkResponse 500 (JError "Internal server error")) = Internal /\
  snd (Dev.updatePost Demo.platform (Demo.at_ 4000) Scenario.auth_alice "abc"
         (mkUpdateBody (Some "x") None) Scenario.store)
    = mkResponse 404 (JError "Post not found") /\
  snd (Dev.deletePost Demo.platform (Demo.at_ 4000) Scenario.auth_alice "2147483648"
         Scenario.store)
    = mkResponse 404 (JError "Post not found").
Proof.
  split; [vm_compute; reflexivity|]. split; [reflexivity|]. split; [reflexivity|].
  split.
  - intros p [<- | []]. discriminate.
  - repeat split; vm_compute; reflexivity.
Qed.

Lemma C2_witness :
  authenticateToken Demo.platform 4000 Scenario.auth_bob = inr Scenario.claims_bob /\
  outcome (snd (Dev.updatePost Demo.platform (Demo.at_ 4000) Scenario.auth_bob "1"
                  (mkUpdateBody (Some "x") None) Scenario.store)) = Forbidden /\
  outcome (snd (Db.deletePost Demo.platform (Demo.at_ 4000) Scenario.auth_bob "1"
                  Scenario.database)) = Forbidden /\
  outcome (snd (Dev.deletePost Demo.platform (Demo.at_ 4000) Scenario.auth_bob "7"
                  Scenario.store)) = NotFound.
Proof.
  assert (Ha : authenticateToken Demo.platform (now (Demo.at_ 4000)) Scenario.auth_bob
               = inr Scenario.claims_bob) by (vm_compute; reflexivity).
  destruct (C2_not_found_forbidden_owner Demo.platform (Demo.at_ 4000) Scenario.auth_bob "1"
              (mkUpdateBody (Some "x") None) Scenario.claims_bob
              Scenario.store Scenario.database Ha)
    as (_ & Hdev & _ & _ & Hdb & _).
  destruct (C2_not_found_forbidden_owner Demo.platform (Demo.at_ 4000) Scenario.auth_bob "7"
              (mkUpdateBody (Some "x") None) Scenario.claims_bob
              Scenario.store Scenario.database Ha)
    as (Hnone & _).
  split; [exact Ha|]. split; [|split].
  - refine (proj2 (proj1 (proj2 (Hdev (Post.mk 1 "Hi" "World" 1 3000 3000) _ _)))).
    + vm_compute; reflexivity.
    + vm_compute; discriminate.
  - refine (proj2 (proj2 (proj2 (proj2 (Hdb 1 (Post.mk 1 "Hi" "World" 1 3000 3000) _ _ _))))).
    + reflexivity.
    + vm_compute; reflexivity.
    + vm_compute; discriminate.
  - refine (proj2 (proj2 (proj2 (proj2 (Hnone _))))). vm_compute; reflexivity.
Defined.

(** ** Partial update *)

Lemma supplied_spec (field : option string) (v : string) :
  supplied field = Some v <->
  exists raw, field = Some raw /\ Js.trim raw = v /\ v <> "".
Proof.
  unfold supplied. destruct field as [raw|]; simpl.
  - destruct (Js.truthy (Js.trim raw)) eqn:T.
    + apply truthy_true in T. split.
      * intros [= <-]. exists raw. auto.
      * intros (raw' & [= <-] & <- & _). reflexivity.
    + apply truthy_false in T. split; [discriminate|].
      intros (raw' & [= <-] & <- & Hv). congruence.
  - split; [discriminate|]. intros (raw & H & _). discriminate.
Qed.















(** ** Failing requests leave the store alone *)

Ltac split_handler H :=
  repeat (match goal with
          | |- fst (match ?x with _ => _ end) = _ => destruct x eqn:?
          end; simpl in H |- *);
  try reflexivity;
  try (exfalso; simpl in H; intuition discriminate).

Lemma dev_handle_atomic (P : Platform) (e : Env) (r : Request) (s : Dev.DataStore) :
  outcome (snd (Dev.handle P e r s)) <> Success ->
  fst (Dev.handle P e r s) = s.
Proof.
  intros H. destruct r; simpl in H |- *.
  - unfold Dev.register, Dev.register_check, Dev.register_store in *. split_handler H.
  - unfold Dev.login in *. split_handler H.
  - unfold Dev.profile in *. split_handler H.
  - reflexivity.
  - unfold Dev.createPost in *. split_handler H.
  - unfold Dev.updatePost in *. split_handler H.
  - unfold Dev.deletePost in *. split_handler H.
  - reflexivity.
  - reflexivity.
  - reflexivity.
Qed.

Lemma db_handle_atomic (P : Platform) (e : Env) (r : Request) (d : Db.Database) :
  In (outcome (snd (Db.handle P e r d))) error_outcomes ->
  fst (Db.handle P e r d) = d.
Proof.
  unfold error_outcomes. intros H. destruct r; simpl in H |- *.
  - unfold Db.register in *. split_handler H.
  - unfold Db.login in *. split_handler H.
  - unfold Db.profile in *. split_handler H.
  - reflexivity.
  - unfold Db.createPost in *. split_handler H.
  - unfold Db.updatePost in *. split_handler H.
  - unfold Db.deletePost in *. split_handler H.
  - reflexivity.
  - reflexivity.
  - reflexivity.
Qed.

(** C10: a request answered with one of the error outcomes leaves the
    users, the posts and the id counters exactly as they were, on both
    servers and for every operation. *)
Theorem C10_errors_are_atomic
  (P : Platform) (e : Env) (r : Request) (s : Dev.DataStore) (d : Db.Database) :
  (In (outcome (snd (Dev.handle P e r s))) error_outcomes -> fst (Dev.handle P e r s) = s) /\
  (In (outcome (snd (Db.handle P e r d))) error_outcomes -> fst (Db.handle P e r d) = d).
Proof.
  split.
  - intros H. apply dev_handle_atomic. intros E. rewrite E in H.
    unfold error_outcomes in H. simpl in H. intuition discriminate.
  - apply db_handle_atomic.
Qed.

Lemma C10_witness :
  In (outcome (snd (Dev.handle Demo.platform (Demo.at_ 4000) (Register Scenario.alice)
                      Scenario.store))) error_outcomes /\
  In (outcome (snd (Db.handle Demo.platform (Demo.at_ 4000)
                      (DeletePost Scenario.auth_bob "1") Scenario.database))) error_outcomes /\
  fst (Dev.handle Demo.platform (Demo.at_ 4000) (Register Scenario.alice) Scenario.store)
    = Scenario.store /\
  fst (Db.handle Demo.platform (Demo.at_ 4000) (DeletePost Scenario.auth_bob "1")
         Scenario.database) = Scenario.database.
Proof.
  assert (H1 : In (outcome (snd (Dev.handle Demo.platform (Demo.at_ 4000)
                      (Register Scenario.alice) Scenario.store))) error_outcomes)
    by (vm_compute; auto).
  assert (H2 : In (outcome (snd (Db.handle Demo.platform (Demo.at_ 4000)
                      (DeletePost Scenario.auth_bob "1") Scenario.database))) error_outcomes)
    by (vm_compute; intuition).
  split; [exact H1|]. split; [exact H2|]. split.
  - exact (proj1 (C10_errors_are_atomic Demo.platform (Demo.at_ 4000)
                    (Register Scenario.alice) Scenario.store Scenario.database) H1).
  - exact (proj2 (C10_errors_are_atomic Demo.platform (Demo.at_ 4000)
                    (DeletePost Scenario.auth_bob "1") Scenario.store Scenario.database) H2).
Defined.

(** ** Login *)

Section Login.
Variable P : Platform.
Variables (e : Env) (b : LoginBody).
Hypothesis Hvalid : login_errors P b = [].

Let email := normalizeEmail P (lb_email b).

Lemma dev_login_cases s password :
  lb_password b = PText password ->
  Dev.login P e b s =
    (s, match find (Dev.by_email email) (Dev.users s) with
        | None => mkResponse 401 (JError "Invalid credentials")
        | Some u =>
            if bcrypt_compare P password (User.password u) then
              mkResponse 200 (JAuth "Login successful" (login_view u)
                (jwt_sign P (User.id u) (User.email u) (JWT_SECRET P) (now e)))
            else mkResponse 401 (JError "Invalid credentials")
        end).
Proof.
  intros Hp. unfold Dev.login. rewrite Hvalid, Hp. fold email.
  destruct (find (Dev.by_email email) (Dev.users s)) as [u|]; [|reflexivity].
  destruct (bcrypt_compare P password (User.password u)); reflexivity.
Qed.

Lemma db_login_cases d password :
  lb_password b = PText password -> Db.text email = true ->
  Db.login P e b d =
    (d, match find (Dev.by_email email) (Db.users d) with
        | None => mkResponse 401 (JError "Invalid credentials")
        | Some u =>
            if bcrypt_compare P password (User.password u) then
              mkResponse 200 (JAuth "Login successful" (login_view u)
                (jwt_sign P (User.id u) (User.email u) (JWT_SECRET P) (now e)))
            else mkResponse 401 (JError "Invalid credentials")
        end).
Proof.
  intros Hp Ht. unfold Db.login. rewrite Hvalid, Hp. fold email. rewrite Ht. simpl.
  rewrite find_hd_filter.
  destruct (filter (Dev.by_email email) (Db.users d)) as [|u rows]; [reflexivity|]. simpl.
  destruct (bcrypt_compare P password (User.password u)); reflexivity.
Qed.

Lemma dev_login_other s v :
  lb_password b = POther v ->
  Dev.login P e b s =
    (s, match find (Dev.by_email email) (Dev.users s) with
        | None => mkResponse 401 (JError "Invalid credentials")
        | Some _ => internal_error
        end).
Proof.
  intros Hp. unfold Dev.login. rewrite Hvalid, Hp. fold email.
  destruct (find (Dev.by_email email) (Dev.users s)); reflexivity.
Qed.

Lemma db_login_other d v :
  lb_password b = POther v -> Db.text email = true ->
  Db.login P e b d =
    (d, match find (Dev.by_email email) (Db.users d) with
        | None => mkResponse 401 (JError "Invalid credentials")
        | Some _ => internal_error
        end).
Proof.
  intros Hp Ht. unfold Db.login. rewrite Hvalid, Hp. fold email. rewrite Ht. simpl.
  rewrite find_hd_filter.
  destruct (filter (Dev.by_email email) (Db.users d)); reflexivity.
Qed.

Lemma db_login_nul d :
  Db.text email = false -> Db.login P e b d = (d, internal_error).
Proof.
  intros Ht. unfold Db.login. rewrite Hvalid. fold email. rewrite Ht. reflexivity.
Qed.

End Login.

Lemma login_invalid (P : Platform) (e : Env) (b : LoginBody)
  (s : Dev.DataStore) (d : Db.Database) :
  login_errors P b <> [] ->
  Dev.login P e b s = (s, mkResponse 400 (JErrors (login_errors P b))) /\
  Db.login P e b d = (d, mkResponse 400 (JErrors (login_errors P b))).
Proof.
  intros H. unfold Dev.login, Db.login.
  destruct (login_errors P b); [congruence|]. split; reflexivity.
Qed.

Lemma find_by_email_none (email : string) (us : list User.t) :
  find (Dev.by_email email) us = None <-> forall u, In u us -> User.email u <> email.
Proof.
  rewrite find_none_iff. unfold Dev.by_email.
  split; intros H u Hu; specialize (H u Hu).
  - apply String.eqb_neq; assumption.
  - apply String.eqb_neq; assumption.
Qed.

Lemma find_by_email_some (email : string) (us : list User.t) :
  (exists u, In u us /\ User.email u = email) ->
  exists u, find (Dev.by_email email) us = Some u.
Proof.
  intros (u & Hin & He).
  destruct (find (Dev.by_email email) us) as [u'|] eqn:F; [eauto|].
  destruct (proj1 (find_by_email_none email us) F u Hin He).
Qed.

Lemma login_contract_holds (P : Platform) (e : Env) (b : LoginBody) (password : string)
  (us : list User.t) :
  login_contract P e b password us
    (match find (Dev.by_email (normalizeEmail P (lb_email b))) us with
     | None => mkResponse 401 (JError "Invalid credentials")
     | Some u =>
         if bcrypt_compare P password (User.password u) then
           mkResponse 200 (JAuth "Login successful" (login_view u)
             (jwt_sign P (User.id u) (User.email u) (JWT_SECRET P) (now e)))
         else mkResponse 401 (JError "Invalid credentials")
     end).
Proof.
  unfold login_contract.
  destruct (find (Dev.by_email (normalizeEmail P (lb_email b))) us) as [u|] eqn:F.
  - destruct (bcrypt_compare P password (User.password u)) eqn:C.
    + repeat split.
      * discriminate.
      * intros [H | (u' & [= <-] & H)]; [|congruence].
        apply find_by_email_none in H. congruence.
      * discriminate.
      * intros u' [= <-] _. reflexivity.
    + repeat split.
      * intros _. right. exists u. auto.
      * intros u' [= <-]. congruence.
  - repeat split.
    + intros _. left. apply find_by_email_none. assumption.
    + discriminate.
Qed.

(** C4 (amended): a login request that does not pass validation is answered
    with 400, whoever is registered.  For one that passes validation and
    whose password is a JSON string, the answer is InvalidCredentials (401)
    exactly when no user has the normalized email or [bcrypt.compare] fails,
    the answer is the same in both cases, and otherwise it is 200 with the
    user (id, email, name, no hash) and a token; on the database server this
    holds for an email without NUL, and an email with NUL is answered with
    500.  With a password that is another JSON value the answer is 401 when
    no user has the email and 500 when one has.  The store is never
    changed. *)
Theorem C4_login_contract
  (P : Platform) (e : Env) (b : LoginBody) (s : Dev.DataStore) (d : Db.Database) :
  let email := normalizeEmail P (lb_email b) in
  let invalid := mkResponse 401 (JError "Invalid credentials") in
  (login_errors P b <> [] ->
     Dev.login P e b s = (s, mkResponse 400 (JErrors (login_errors P b))) /\
     Db.login P e b d = (d, mkResponse 400 (JErrors (login_errors P b))) /\
     outcome (mkResponse 400 (JErrors (login_errors P b))) = ValidationError) /\
  (login_errors P b = [] ->
     fst (Dev.login P e b s) = s /\ fst (Db.login P e b d) = d /\
     (forall password, lb_password b = PText password ->
        login_contract P e b password (Dev.users s) (snd (Dev.login P e b s)) /\
        (Db.text email = true ->
           login_contract P e b password (Db.users d) (snd (Db.login P e b d)))) /\
     (forall v, lb_password b = POther v ->
        ((forall u, In u (Dev.users s) -> User.email u <> email) ->
           snd (Dev.login P e b s) = invalid) /\
        ((exists u, In u (Dev.users s) /\ User.email u = email) ->
           snd (Dev.login P e b s) = internal_error) /\
        (Db.text email = true ->
           ((forall u, In u (Db.users d) -> User.email u <> email) ->
              snd (Db.login P e b d) = invalid) /\
           ((exists u, In u (Db.users d) /\ User.email u = email) ->
              snd (Db.login P e b d) = internal_error))) /\
     (Db.text email = false -> snd (Db.login P e b d) = internal_error) /\
     outcome internal_error = Internal).
Proof.
  intros email invalid. split.
  - intros H. destruct (login_invalid P e b s d H) as [-> ->]. auto.
  - intros Hvalid.
    assert (Fs : fst (Dev.login P e b s) = s).
    { destruct (lb_password b) as [pw|v] eqn:Hp.
      - rewrite (dev_login_cases P e b Hvalid s pw Hp). reflexivity.
      - rewrite (dev_login_other P e b Hvalid s v Hp). reflexivity. }
    assert (Fd : fst (Db.login P e b d) = d).
    { destruct (Db.text email) eqn:Ht.
      - destruct (lb_password b) as [pw|v] eqn:Hp.
        + rewrite (db_login_cases P e b Hvalid d pw Hp Ht). reflexivity.
        + rewrite (db_login_other P e b Hvalid d v Hp Ht). reflexivity.
      - rewrite (db_login_nul P e b Hvalid d Ht). reflexivity. }
    split; [exact Fs|]. split; [exact Fd|]. split; [|split; [|split]].
    + intros pw Hp. split.
      * rewrite (dev_login_cases P e b Hvalid s pw Hp). apply login_contract_holds.
      * intros Ht. rewrite (db_login_cases P e b Hvalid d pw Hp Ht).
        apply login_contract_holds.
    + intros v Hp. split; [|split; [|intros Ht; split]].
      * intros H. apply find_by_email_none in H.
        rewrite (dev_login_other P e b Hvalid s v Hp). fold email. rewrite H. reflexivity.
      * intros H. apply find_by_email_some in H. destruct H as (u & F).
        rewrite (dev_login_other P e b Hvalid s v Hp). fold email. rewrite F. reflexivity.
      * intros H. apply find_by_email_none in H.
        rewrite (db_login_other P e b Hvalid d v Hp Ht). fold email. rewrite H. reflexivity.
      * intros H. apply find_by_email_some in H. destruct H as (u & F).
        rewrite (db_login_other P e b Hvalid d v Hp Ht). fold email. rewrite F. reflexivity.
    + intros Ht. rewrite (db_login_nul P e b Hvalid d Ht). reflexivity.
    + reflexivity.
Qed.

Lemma C4_witness :
  login_errors Demo.platform (mkLoginBody "ALICE@example.com" (PText "wrong")) = [] /\
  snd (Dev.login Demo.platform (Demo.at_ 4000) (mkLoginBody "ALICE@example.com" (PText "wrong"))
         Scenario.store) = mkResponse 401 (JError "Invalid credentials") /\
  snd (Db.login Demo.platform (Demo.at_ 4000) (mkLoginBody "ALICE@example.com" (PText "wrong"))
         Scenario.database) = mkResponse 401 (JError "Invalid credentials") /\
  snd (Dev.login Demo.platform (Demo.at_ 4000) (mkLoginBody "ALICE@example.com" (POther "123456"))
         Scenario.store) = internal_error.
Proof.
  assert (Hv : login_errors Demo.platform (mkLoginBody "ALICE@example.com" (PText "wrong")) = [])
    by reflexivity.
  assert (Hv' : login_errors Demo.platform (mkLoginBody "ALICE@example.com" (POther "123456"))
                = []) by reflexivity.
  destruct (C4_login_contract Demo.platform (Demo.at_ 4000)
              (mkLoginBody "ALICE@example.com" (PText "wrong")) Scenario.store Scenario.database)
    as (_ & H).
  destruct (H Hv) as (_ & _ & Htext & _).
  destruct (Htext "wrong" eq_refl) as ((Hiff & Hsame & _) & Hdb).
  destruct (Hdb eq_refl) as (Hiff' & Hsame' & _).
  destruct (C4_login_contract Demo.platform (Demo.at_ 4000)
              (mkLoginBody "ALICE@example.com" (POther "123456"))
              Scenario.store Scenario.database) as (_ & H').
  destruct (H' Hv') as (_ & _ & _ & Hother & _).
  destruct (Hother "123456" eq_refl) as (_ & Hthrow & _).
  split; [exact Hv|]. split; [|split].
  - apply Hsame, Hiff. right.
    exists (User.mk 1 "alice@example.com" "secret1$salt" "Alice" 1000).
    split; vm_compute; reflexivity.
  - apply Hsame', Hiff'. right.
    exists (User.mk 1 "alice@example.com" "secret1$salt" "Alice" 1000).
    split; vm_compute; reflexivity.
  - apply Hthrow.
    exists (User.mk 1 "alice@example.com" "secret1$salt" "Alice" 1000).
    split; vm_compute; auto.
Defined.

(** C4 as stated fails: with an empty password no user has the given email,
    yet the answer is the ValidationError of the validators, not
    InvalidCredentials. *)
Lemma C4_counterexample :
  (forall u, In u (Dev.users Dev.dataStore) -> User.email u <> "a@b.co") /\
  outcome (snd (Dev.login Demo.platform (Demo.at_ 0) (mkLoginBody "a@b.co" (PText ""))
                  Dev.dataStore))
    = ValidationError /\
  outcome (snd (Db.login Demo.platform (Demo.at_ 0) (mkLoginBody "a@b.co" (PText "")) Db.empty))
    = ValidationError.
Proof.
  split; [intros u []|]. split; reflexivity.
Qed.

(** ** Registration *)

Lemma register_errors_nil (P : Platform) (b : RegisterBody) :
  register_errors P b = [] <->
  isEmail P (rb_email b) = true /\
  (6 <= isLength_count P (shown (rb_password b)))%nat /\
  rb_name b <> "".
Proof.
  unfold register_errors.
  destruct (isEmail P (rb_email b)) eqn:E;
    destruct (6 <=? isLength_count P (shown (rb_password b)))%nat eqn:L;
    destruct (Js.truthy (rb_name b)) eqn:T; cbn [app];
    first [apply Nat.leb_le in L | apply Nat.leb_gt in L];
    try apply truthy_true in T; try apply truthy_false in T;
    (split; [intros H; try discriminate H; auto | intros (H1 & H2 & H3)]);
    try reflexivity; try discriminate H1; try lia; try congruence.
Qed.


Lemma filter_nil_find {A} (f : A -> bool) (l : list A) :
  filter f l = [] <-> find f l = None.
Proof.
  rewrite find_hd_filter. destruct (filter f l); simpl; split; congruence.
Qed.

(** The registration of [server-dev.js] when no other request overlaps
    it. *)
Lemma dev_register_flat (P : Platform) (e : Env) (b : RegisterBody) (s : Dev.DataStore) :
  Dev.register P e b s =
    match register_errors P b with
    | (_ :: _) as errors => (s, mkResponse 400 (JErrors errors))
    | [] =>
        match find (Dev.by_email (normalizeEmail P (rb_email b))) (Dev.users s) with
        | Some _ => (s, mkResponse 409 (JError "User already exists"))
        | None =>
            match rb_password b with
            | POther _ => (s, internal_error)
            | PText password =>
                let newUser :=
                  User.mk (Dev.nextUserId s) (normalizeEmail P (rb_email b))
                          (bcrypt_hash P password (salt e)) (Js.trim (rb_name b)) (now e) in
                (Dev.mk (Dev.users s ++ [newUser]) (Dev.posts s)
                        (Dev.nextUserId s + 1) (Dev.nextPostId s),
                 mkResponse 201
                   (JAuth "User registered successfully" (user_view newUser)
                      (jwt_sign P (User.id newUser) (User.email newUser)
                                (JWT_SECRET P) (now e))))
            end
        end
    end.
Proof.
  unfold Dev.register, Dev.register_check, Dev.register_store.
  destruct (register_errors P b); [|reflexivity].
  destruct (find _ _); [reflexivity|]. simpl.
  destruct (rb_password b); reflexivity.
Qed.

Lemma varchar_text (n : nat) (x : string) : Db.varchar n x = true -> Db.text x = true.
Proof.
  unfold Db.varchar. intros H. apply andb_true_iff in H. tauto.
Qed.

Section Register.
Variable P : Platform.
Variables (e : Env) (b : RegisterBody).
Hypothesis Hvalid : register_errors P b = [].

Let email := normalizeEmail P (rb_email b).
Let name := Js.trim (rb_name b).


Lemma dev_register_check_fresh s :
  (forall u, In u (Dev.users s) -> User.email u <> email) ->
  Dev.register_check P b s = inr (Dev.mkRegistration email (rb_password b) name).
Proof.
  intros H. apply find_by_email_none in H.
  unfold Dev.register_check. rewrite Hvalid. fold email. rewrite H. reflexivity.
Qed.


Lemma dev_register_fresh s password :
  rb_password b = PText password ->
  (forall u, In u (Dev.users s) -> User.email u <> email) ->
  Dev.register P e b s =
    (Dev.mk (Dev.users s ++ [User.mk (Dev.nextUserId s) email
                               (bcrypt_hash P password (salt e)) name (now e)])
            (Dev.posts s) (Dev.nextUserId s + 1) (Dev.nextPostId s),
     mkResponse 201
       (JAuth "User registered successfully"
              (mkUserView (Dev.nextUserId s) email name (Some (now e)))
              (jwt_sign P (Dev.nextUserId s) email (JWT_SECRET P) (now e)))).
Proof.
  intros Hp H. unfold Dev.register. rewrite (dev_register_check_fresh s H).
  unfold Dev.register_store. simpl. rewrite Hp. reflexivity.
Qed.


Lemma db_register_nul d :
  Db.text email = false -> Db.register P e b d = (d, internal_error).
Proof.
  intros Ht. unfold Db.register. rewrite Hvalid. fold email. rewrite Ht. reflexivity.
Qed.




End Register.






(** ** Invariants of the stores *)

Lemma dev_run_cons (P : Platform) e r rs s :
  Dev.run P ((e, r) :: rs) s =
    (fst (Dev.run P rs (fst (Dev.handle P e r s))),
     snd (Dev.handle P e r s) :: snd (Dev.run P rs (fst (Dev.handle P e r s)))).
Proof.
  simpl. destruct (Dev.handle P e r s) as [s1 resp]. simpl.
  destruct (Dev.run P rs s1); reflexivity.
Qed.

Lemma db_run_cons (P : Platform) e r rs d :
  Db.run P ((e, r) :: rs) d =
    (fst (Db.run P rs (fst (Db.handle P e r d))),
     snd (Db.handle P e r d) :: snd (Db.run P rs (fst (Db.handle P e r d)))).
Proof.
  simpl. destruct (Db.handle P e r d) as [d1 resp]. simpl.
  destruct (Db.run P rs d1); reflexivity.
Qed.

Lemma dev_run_preserves (P : Platform) (I : Dev.DataStore -> Prop) :
  (forall e r s, I s -> I (fst (Dev.handle P e r s))) ->
  forall rs s, I s -> I (fst (Dev.run P rs s)).
Proof.
  intros step rs. induction rs as [|[e r] rs IH]; intros s Hs; [exact Hs|].
  rewrite dev_run_cons. simpl. apply IH, step, Hs.
Qed.

Lemma db_run_preserves (P : Platform) (I : Db.Database -> Prop) :
  (forall e r d, I d -> I (fst (Db.handle P e r d))) ->
  forall rs d, I d -> I (fst (Db.run P rs d)).
Proof.
  intros step rs. induction rs as [|[e r] rs IH]; intros d Hd; [exact Hd|].
  rewrite db_run_cons. simpl. apply IH, step, Hd.
Qed.

Lemma NoDup_snoc {A} (l : list A) (x : A) : NoDup l -> ~ In x l -> NoDup (l ++ [x]).
Proof.
  intros Hl Hx. apply NoDup_app; [assumption | repeat constructor; intros [] | ].
  intros y Hy [<- | []]. contradiction.
Qed.

Lemma Forall_snoc {A} (Q : A -> Prop) (l : list A) (x : A) :
  Forall Q l -> Q x -> Forall Q (l ++ [x]).
Proof. intros Hl Hx. apply Forall_app. split; [assumption | repeat constructor; assumption]. Qed.

Lemma Forall_lt_weaken {A} (f : A -> Z) (l : list A) (n m : Z) :
  n <= m -> Forall (fun x => f x < n) l -> Forall (fun x => f x < m) l.
Proof. intros H. apply Forall_impl. intros x Hx. lia. Qed.

Lemma Forall_lt_fresh {A} (f : A -> Z) (l : list A) (n : Z) :
  Forall (fun x => f x < n) l -> ~ In n (map f l).
Proof.
  intros H Hin. apply in_map_iff in Hin. destruct Hin as (x & Hx & Hin).
  rewrite Forall_forall in H. specialize (H x Hin). lia.
Qed.

Lemma find_by_email_fresh (email : string) (us : list User.t) :
  find (Dev.by_email email) us = None -> ~ In email (map User.email us).
Proof.
  intros F Hin. apply in_map_iff in Hin. destruct Hin as (u & Hu & Hin).
  apply find_by_email_none with (u := u) in F; congruence.
Qed.

Lemma users_ok_snoc (us : list User.t) (next : Z) (u : User.t) :
  users_ok us next -> User.id u = next ->
  find (Dev.by_email (User.email u)) us = None ->
  users_ok (us ++ [u]) (next + 1).
Proof.
  intros (He & Hi & Hlt) Hid F. unfold users_ok. rewrite !map_app. simpl.
  split; [apply NoDup_snoc; [assumption | apply find_by_email_fresh; assumption]|].
  split.
  - apply NoDup_snoc; [assumption|]. rewrite Hid. eapply Forall_lt_fresh; eassumption.
  - apply Forall_snoc; [|lia]. eapply Forall_lt_weaken; [|eassumption]. lia.
Qed.

Lemma users_ok_weaken (us : list User.t) (n m : Z) :
  n <= m -> users_ok us n -> users_ok us m.
Proof.
  intros H (He & Hi & Hlt). repeat split; trivial.
  eapply Forall_lt_weaken; eassumption.
Qed.

Lemma posts_ok_weaken (ps : list Post.t) (n m : Z) :
  n <= m -> posts_ok ps n -> posts_ok ps m.
Proof.
  intros H (Hi & Hlt). split; trivial. eapply Forall_lt_weaken; eassumption.
Qed.

Lemma posts_ok_snoc (ps : list Post.t) (next : Z) (p : Post.t) :
  posts_ok ps next -> Post.id p = next -> posts_ok (ps ++ [p]) (next + 1).
Proof.
  intros (Hi & Hlt) Hid. unfold posts_ok. rewrite map_app. simpl. split.
  - apply NoDup_snoc; [assumption|]. rewrite Hid. eapply Forall_lt_fresh; eassumption.
  - apply Forall_snoc; [|lia]. eapply Forall_lt_weaken; [|eassumption]. lia.
Qed.

Lemma map_set_nth {A B} (f : A -> B) (l : list A) (i : nat) (x : A) :
  map f (Js.set_nth i x l) = Js.set_nth i (f x) (map f l).
Proof.
  revert i. induction l as [|y r IH]; intros [|i]; simpl; auto. rewrite IH. reflexivity.
Qed.

Lemma set_nth_same {A} (l : list A) (i : nat) (x : A) :
  nth_error l i = Some x -> Js.set_nth i x l = l.
Proof.
  revert i. induction l as [|y r IH]; intros [|i]; simpl; try discriminate.
  - intros [= ->]. reflexivity.
  - intros H. rewrite (IH i H). reflexivity.
Qed.

Lemma Forall_set_nth {A} (Q : A -> Prop) (l : list A) (i : nat) (x : A) :
  Forall Q l -> Q x -> Forall Q (Js.set_nth i x l).
Proof.
  intros Hl Hx. revert i. induction Hl as [|y r Hy Hr IH]; intros [|i]; simpl; auto.
Qed.

Lemma map_splice1 {A B} (f : A -> B) (l : list A) (i : nat) :
  map f (Js.splice1 i l) = Js.splice1 i (map f l).
Proof.
  revert i. induction l as [|y r IH]; intros [|i]; simpl; auto. rewrite IH. reflexivity.
Qed.

Lemma In_splice1 {A} (l : list A) (i : nat) (x : A) : In x (Js.splice1 i l) -> In x l.
Proof.
  revert i. induction l as [|y r IH]; intros [|i]; simpl; auto.
  intros [H | H]; eauto.
Qed.

Lemma NoDup_splice1 {A} (l : list A) (i : nat) : NoDup l -> NoDup (Js.splice1 i l).
Proof.
  intros H. revert i. induction H as [|y r Hy Hr IH]; intros [|i]; simpl;
    try constructor; auto.
  intros Hin. apply Hy. eapply In_splice1; eassumption.
Qed.

Lemma Forall_splice1 {A} (Q : A -> Prop) (l : list A) (i : nat) :
  Forall Q l -> Forall Q (Js.splice1 i l).
Proof.
  rewrite !Forall_forall. intros H x Hx. apply H. eapply In_splice1; eassumption.
Qed.

Lemma NoDup_map_filter {A B} (f : A -> B) (g : A -> bool) (l : list A) :
  NoDup (map f l) -> NoDup (map f (filter g l)).
Proof.
  induction l as [|y r IH]; simpl; intros H; [constructor|].
  inversion H as [|? ? Hy Hr]; subst.
  destruct (g y); simpl; auto. constructor; auto.
  intros Hin. apply Hy. apply in_map_iff in Hin. destruct Hin as (x & Hx & Hin).
  apply filter_In in Hin. apply in_map_iff. exists x. tauto.
Qed.

Lemma Forall_filter_keep {A} (Q : A -> Prop) (g : A -> bool) (l : list A) :
  Forall Q l -> Forall Q (filter g l).
Proof.
  rewrite !Forall_forall. intros H x Hx. apply filter_In in Hx. apply H. tauto.
Qed.

Lemma posts_ok_set_nth (ps : list Post.t) (next : Z) (i : nat) (p p' : Post.t) :
  posts_ok ps next -> nth_error ps i = Some p -> Post.id p' = Post.id p ->
  posts_ok (Js.set_nth i p' ps) next.
Proof.
  intros (Hi & Hlt) Hn Hid. unfold posts_ok.
  rewrite map_set_nth, Hid, set_nth_same by (apply map_nth_error; assumption).
  split; [assumption|]. apply Forall_set_nth; [assumption|].
  rewrite Forall_forall in Hlt. rewrite Hid. apply Hlt. eapply nth_error_In; eassumption.
Qed.

Lemma posts_ok_splice1 (ps : list Post.t) (next : Z) (i : nat) :
  posts_ok ps next -> posts_ok (Js.splice1 i ps) next.
Proof.
  intros (Hi & Hlt). split.
  - rewrite map_splice1. apply NoDup_splice1. assumption.
  - apply Forall_splice1. assumption.
Qed.

Lemma posts_ok_filter (ps : list Post.t) (next : Z) (g : Post.t -> bool) :
  posts_ok ps next -> posts_ok (filter g ps) next.
Proof.
  intros (Hi & Hlt). split.
  - apply NoDup_map_filter. assumption.
  - apply Forall_filter_keep. assumption.
Qed.

Lemma posts_ok_map (ps : list Post.t) (next : Z) (f : Post.t -> Post.t) :
  (forall p, Post.id (f p) = Post.id p) ->
  posts_ok ps next -> posts_ok (map f ps) next.
Proof.
  intros Hf (Hi & Hlt). unfold posts_ok. rewrite map_map.
  rewrite (map_ext _ Post.id) by assumption. split; [assumption|].
  apply Forall_map. eapply Forall_impl; [|eassumption]. simpl. intros p Hp.
  rewrite Hf. assumption.
Qed.

Lemma authors_ok_more (us : list User.t) (u : User.t) (ps : list Post.t) :
  authors_ok us ps -> authors_ok (us ++ [u]) ps.
Proof.
  apply Forall_impl. intros p H. rewrite existsb_app, H. reflexivity.
Qed.

Lemma authors_ok_map (us : list User.t) (ps : list Post.t) (f : Post.t -> Post.t) :
  (forall p, Post.user_id (f p) = Post.user_id p) ->
  authors_ok us ps -> authors_ok us (map f ps).
Proof.
  intros Hf H. apply Forall_map. eapply Forall_impl; [|eassumption]. simpl.
  intros p Hp. rewrite Hf. assumption.
Qed.

Ltac split_state :=
  repeat (match goal with
          | |- context [fst (match ?x with _ => _ end)] => destruct x eqn:?
          end; simpl);
  try assumption.

Lemma dev_handle_ok (P : Platform) (e : Env) (r : Request) (s : Dev.DataStore) :
  dev_ok s -> dev_ok (fst (Dev.handle P e r s)).
Proof.
  intros Hs. pose proof Hs as (Hu & Hp). destruct r; simpl.
  - rewrite dev_register_flat. split_state. split; simpl; [|assumption].
    apply users_ok_snoc; auto.
  - unfold Dev.login. split_state.
  - unfold Dev.profile. split_state.
  - assumption.
  - unfold Dev.createPost. split_state. split; simpl; [assumption|].
    apply posts_ok_snoc; auto.
  - unfold Dev.updatePost. split_state. split; simpl; [assumption|].
    eapply posts_ok_set_nth; eauto.
  - unfold Dev.deletePost. split_state. split; simpl; [assumption|].
    apply posts_ok_splice1. assumption.
  - assumption.
  - assumption.
  - assumption.
Qed.

Lemma dev_initial_ok : dev_ok Dev.dataStore.
Proof. repeat split; simpl; constructor. Qed.

Lemma dev_run_ok (P : Platform) (rs : list (Env * Request)) :
  dev_ok (fst (Dev.run P rs Dev.dataStore)).
Proof.
  apply dev_run_preserves; [intros; apply dev_handle_ok; assumption | apply dev_initial_ok].
Qed.

(** The three ways an [INSERT INTO users] ends. *)
Lemma insert_user_cases (email password name : string) (t : Z) (d : Db.Database) :
  Db.insert_user email password name t d = (d, None) \/
  (Db.insert_user email password name t d
     = (Db.mk (Db.users d) (Db.posts d) (Db.users_id_seq d + 1) (Db.posts_id_seq d), None) /\
   existsb (Dev.by_email email) (Db.users d) = true) \/
  (Db.insert_user email password name t d
     = (Db.mk (Db.users d ++ [User.mk (Db.users_id_seq d) email password name t])
              (Db.posts d) (Db.users_id_seq d + 1) (Db.posts_id_seq d),
        Some (User.mk (Db.users_id_seq d) email password name t)) /\
   Db.varchar 255 email = true /\ Db.varchar 255 password = true /\
   Db.varchar 255 name = true /\ Db.int4 (Db.users_id_seq d) = true /\
   find (Dev.by_email email) (Db.users d) = None).
Proof.
  unfold Db.insert_user.
  destruct (Db.varchar 255 email) eqn:V1; simpl; [|auto].
  destruct (Db.varchar 255 password) eqn:V2; simpl; [|auto].
  destruct (Db.varchar 255 name) eqn:V3; simpl; [|auto].
  destruct (Db.int4 (Db.users_id_seq d)) eqn:I; simpl; [|auto].
  rewrite existsb_find.
  destruct (find (Dev.by_email email) (Db.users d)) eqn:F; [right; left | right; right];
    repeat split; reflexivity.
Qed.

(** The three ways an [INSERT INTO posts] ends. *)
Lemma insert_post_cases (title content : string) (user_id t : Z) (d : Db.Database) :
  Db.insert_post title content user_id t d = (d, None) \/
  (Db.insert_post title content user_id t d
     = (Db.mk (Db.users d) (Db.posts d) (Db.users_id_seq d) (Db.posts_id_seq d + 1), None) /\
   existsb (Dev.by_id user_id) (Db.users d) = false) \/
  (Db.insert_post title content user_id t d
     = (Db.mk (Db.users d) (Db.posts d ++ [Post.mk (Db.posts_id_seq d) title content user_id t t])
              (Db.users_id_seq d) (Db.posts_id_seq d + 1),
        Some (Post.mk (Db.posts_id_seq d) title content user_id t t)) /\
   Db.varchar 255 title = true /\ Db.text content = true /\ Db.int4 user_id = true /\
   Db.int4 (Db.posts_id_seq d) = true /\
   existsb (Dev.by_id user_id) (Db.users d) = true).
Proof.
  unfold Db.insert_post.
  destruct (Db.varchar 255 title) eqn:V1; simpl; [|auto].
  destruct (Db.text content) eqn:V2; simpl; [|auto].
  destruct (Db.int4 user_id) eqn:V3; simpl; [|auto].
  destruct (Db.int4 (Db.posts_id_seq d)) eqn:I; simpl; [|auto].
  destruct (existsb (Dev.by_id user_id) (Db.users d)) eqn:F; [right; right | right; left];
    repeat split; reflexivity.
Qed.

Lemma db_insert_user_ok (email password name : string) (t : Z) (d : Db.Database) :
  db_ok d -> db_ok (fst (Db.insert_user email password name t d)).
Proof.
  intros (Hu & Hp & Ha).
  destruct (insert_user_cases email password name t d)
    as [-> | [(-> & _) | (-> & _ & _ & _ & _ & F)]]; simpl.
  - split; [|split]; assumption.
  - split; simpl; [|split; assumption].
    apply (users_ok_weaken _ (Db.users_id_seq d)); auto; lia.
  - split; simpl; [apply users_ok_snoc; auto|].
    split; [assumption|]. apply authors_ok_more. assumption.
Qed.

Lemma db_insert_post_ok (title content : string) (user_id t : Z) (d : Db.Database) :
  db_ok d -> db_ok (fst (Db.insert_post title content user_id t d)).
Proof.
  intros (Hu & Hp & Ha).
  destruct (insert_post_cases title content user_id t d)
    as [-> | [(-> & _) | (-> & _ & _ & _ & _ & F)]]; simpl.
  - split; [|split]; assumption.
  - split; [assumption|]. split; simpl; [|assumption].
    apply (posts_ok_weaken _ (Db.posts_id_seq d)); auto; lia.
  - split; [assumption|]. split; simpl.
    + apply posts_ok_snoc; auto.
    + apply Forall_snoc; assumption.
Qed.

Lemma db_update_post_ok (b : UpdateBody) (t id : Z) (d d' : Db.Database) rows :
  db_ok d -> Db.update_post b t id d = Some (d', rows) -> db_ok d'.
Proof.
  intros (Hu & Hp & Ha). unfold Db.update_post.
  destruct (Db.set_fits b); [|discriminate]. intros [= <- _].
  split; [assumption|]. split; simpl.
  - apply posts_ok_map; [|assumption]. intros p. destruct (Db.post_has_id id p); reflexivity.
  - apply authors_ok_map; [|assumption]. intros p. destruct (Db.post_has_id id p); reflexivity.
Qed.

Lemma db_delete_post_ok (id : Z) (d : Db.Database) : db_ok d -> db_ok (Db.delete_post id d).
Proof.
  intros (Hu & Hp & Ha). split; [assumption|]. split; simpl.
  - apply posts_ok_filter. assumption.
  - apply Forall_filter_keep. assumption.
Qed.

Lemma db_handle_ok (P : Platform) (e : Env) (r : Request) (d : Db.Database) :
  db_ok d -> db_ok (fst (Db.handle P e r d)).
Proof.
  intros Hd. destruct r; simpl.
  - unfold Db.register.
    destruct (register_errors P b); [|assumption].
    destruct (negb _); [assumption|].
    destruct (filter _ _); [|assumption].
    destruct (rb_password b) as [password|v]; [|assumption].
    pose proof (db_insert_user_ok (normalizeEmail P (rb_email b))
                  (bcrypt_hash P password (salt e)) (Js.trim (rb_name b))
                  (now e) d Hd) as H.
    destruct (Db.insert_user _ _ _ _ d) as [d' [u|]]; exact H.
  - unfold Db.login. split_state.
  - unfold Db.profile. split_state.
  - assumption.
  - unfold Db.createPost.
    destruct (authenticateToken P (now e) authorization) as [resp|user]; [assumption|].
    destruct (create_errors b); [|assumption].
    pose proof (db_insert_post_ok (Js.trim (cb_title b)) (Js.trim (cb_content b))
                  (Jwt.id user) (now e) d Hd) as H.
    destruct (Db.insert_post _ _ _ _ d) as [d' [row|]]; exact H.
  - unfold Db.updatePost.
    destruct (authenticateToken P (now e) authorization) as [resp|user]; [assumption|].
    simpl. destruct (pg_int4in P id) as [n|]; [|assumption].
    destruct (filter _ _) as [|row rows]; [assumption|].
    destruct (negb _); [assumption|].
    destruct (Db.update_post b (now e) n d) as [[d' [|r0 rs]]|] eqn:U; simpl;
      try assumption; eapply db_update_post_ok; eassumption.
  - unfold Db.deletePost.
    destruct (authenticateToken P (now e) authorization) as [resp|user]; [assumption|].
    destruct (pg_int4in P id) as [n|]; [|assumption].
    destruct (filter _ _) as [|row rows]; [assumption|].
    destruct (negb _); [assumption|]. apply db_delete_post_ok. assumption.
  - assumption.
  - assumption.
  - assumption.
Qed.

Lemma db_initial_ok : db_ok Db.empty.
Proof. repeat split; simpl; constructor. Qed.

Lemma db_run_ok (P : Platform) (rs : list (Env * Request)) :
  db_ok (fst (Db.run P rs Db.empty)).
Proof.
  apply db_run_preserves; [intros; apply db_handle_ok; assumption | apply db_initial_ok].
Qed.





(** ** Email uniqueness *)





(** What a request does to the table of the users: nothing, or one row
    more, which its columns accepted. *)
Lemma db_users_step (P : Platform) e r d :
  Db.users (fst (Db.handle P e r d)) = Db.users d \/
  exists email password name,
    Db.varchar 255 email = true /\ Db.varchar 255 password = true /\
    Db.varchar 255 name = true /\ Db.int4 (Db.users_id_seq d) = true /\
    find (Dev.by_email email) (Db.users d) = None /\
    Db.users (fst (Db.handle P e r d))
      = (Db.users d ++ [User.mk (Db.users_id_seq d) email password name (now e)])%list.
Proof.
  destruct r; simpl; try (left; reflexivity).
  - unfold Db.register.
    destruct (register_errors P b); [|left; reflexivity].
    destruct (negb _); [left; reflexivity|].
    destruct (filter _ _); [|left; reflexivity].
    destruct (rb_password b) as [password|v]; [|left; reflexivity].
    destruct (insert_user_cases (normalizeEmail P (rb_email b))
                (bcrypt_hash P password (salt e)) (Js.trim (rb_name b)) (now e) d)
      as [-> | [(-> & _) | (-> & V1 & V2 & V3 & I & F)]]; try (left; reflexivity).
    right. do 3 eexists. repeat split; eassumption || reflexivity.
  - left. unfold Db.login. split_state; reflexivity.
  - left. unfold Db.profile. split_state; reflexivity.
  - left. unfold Db.createPost.
    destruct (authenticateToken P (now e) authorization) as [resp|user]; [reflexivity|].
    destruct (create_errors b); [|reflexivity].
    destruct (insert_post_cases (Js.trim (cb_title b)) (Js.trim (cb_content b))
                (Jwt.id user) (now e) d) as [-> | [(-> & _) | (-> & _)]]; reflexivity.
  - left. unfold Db.updatePost.
    destruct (authenticateToken P (now e) authorization) as [resp|user]; [reflexivity|].
    simpl. destruct (pg_int4in P id) as [n|]; [|reflexivity].
    destruct (filter _ _) as [|row rows]; [reflexivity|].
    destruct (negb _); [reflexivity|].
    unfold Db.update_post. destruct (Db.set_fits b); [|reflexivity].
    destruct (map _ (filter _ _)); reflexivity.
  - left. unfold Db.deletePost. split_state; reflexivity.
Qed.

(** What a request does to the database: nothing; a user or a post more,
    which the columns accepted; an id drawn and lost; the update of the
    posts of one id; or their deletion. *)
Lemma db_step (P : Platform) e r d :
  fst (Db.handle P e r d) = d \/
  fst (Db.handle P e r d)
    = Db.mk (Db.users d) (Db.posts d) (Db.users_id_seq d + 1) (Db.posts_id_seq d) \/
  (exists b password,
     register_errors P b = [] /\ rb_password b = PText password /\
     Db.varchar 255 (normalizeEmail P (rb_email b)) = true /\
     Db.varchar 255 (Js.trim (rb_name b)) = true /\
     Db.int4 (Db.users_id_seq d) = true /\
     find (Dev.by_email (normalizeEmail P (rb_email b))) (Db.users d) = None /\
     fst (Db.handle P e r d)
       = Db.mk (Db.users d ++ [User.mk (Db.users_id_seq d) (normalizeEmail P (rb_email b))
                                 (bcrypt_hash P password (salt e)) (Js.trim (rb_name b))
                                 (now e)])
               (Db.posts d) (Db.users_id_seq d + 1) (Db.posts_id_seq d)) \/
  fst (Db.handle P e r d)
    = Db.mk (Db.users d) (Db.posts d) (Db.users_id_seq d) (Db.posts_id_seq d + 1) \/
  (exists b user,
     Db.varchar 255 (Js.trim (cb_title b)) = true /\
     Db.text (Js.trim (cb_content b)) = true /\
     Db.int4 (Db.posts_id_seq d) = true /\
     existsb (Dev.by_id (Jwt.id user)) (Db.users d) = true /\
     fst (Db.handle P e r d)
       = Db.mk (Db.users d)
               (Db.posts d ++ [Post.mk (Db.posts_id_seq d) (Js.trim (cb_title b))
                                 (Js.trim (cb_content b)) (Jwt.id user) (now e) (now e)])
               (Db.users_id_seq d) (Db.posts_id_seq d + 1)) \/
  (exists b n,
     fst (Db.handle P e r d)
       = Db.mk (Db.users d)
               (map (fun q => if Db.post_has_id n q then apply_update b (now e) q else q)
                    (Db.posts d))
               (Db.users_id_seq d) (Db.posts_id_seq d)) \/
  (exists n, fst (Db.handle P e r d) = Db.delete_post n d).
Proof.
  destruct r; simpl; try (left; reflexivity).
  - unfold Db.register.
    destruct (register_errors P b) eqn:V; [|left; reflexivity].
    destruct (negb _); [left; reflexivity|].
    destruct (filter _ _); [|left; reflexivity].
    destruct (rb_password b) as [password|v] eqn:Hp; [|left; reflexivity].
    destruct (insert_user_cases (normalizeEmail P (rb_email b))
                (bcrypt_hash P password (salt e)) (Js.trim (rb_name b)) (now e) d)
      as [-> | [(-> & _) | (-> & V1 & V2 & V3 & I & F)]];
      [left; reflexivity | right; left; reflexivity |].
    right. right. left. exists b, password. repeat split; assumption.
  - left. unfold Db.login. split_state; reflexivity.
  - left. unfold Db.profile. split_state; reflexivity.
  - unfold Db.createPost.
    destruct (authenticateToken P (now e) authorization) as [resp|user]; [left; reflexivity|].
    destruct (create_errors b); [|left; reflexivity].
    destruct (insert_post_cases (Js.trim (cb_title b)) (Js.trim (cb_content b))
                (Jwt.id user) (now e) d)
      as [-> | [(-> & _) | (-> & V1 & V2 & V3 & I & F)]];
      [left; reflexivity | do 3 right; left; reflexivity |].
    do 4 right. left. exists b, user. repeat split; assumption.
  - unfold Db.updatePost.
    destruct (authenticateToken P (now e) authorization) as [resp|user]; [left; reflexivity|].
    simpl. destruct (pg_int4in P id) as [n|]; [|left; reflexivity].
    destruct (filter _ _) as [|row rows]; [left; reflexivity|].
    destruct (negb _); [left; reflexivity|].
    unfold Db.update_post. destruct (Db.set_fits b); [|left; reflexivity].
    do 5 right. left. exists b, n.
    destruct (map (apply_update b (now e)) _); reflexivity.
  - unfold Db.deletePost.
    destruct (authenticateToken P (now e) authorization) as [resp|user]; [left; reflexivity|].
    destruct (pg_int4in P id) as [n|]; [|left; reflexivity].
    destruct (filter _ _) as [|row rows]; [left; reflexivity|].
    destruct (negb _); [left; reflexivity|].
    do 6 right. exists n. reflexivity.
Qed.

Ltac db_cases P e r d :=
  let b := fresh "b" in let pw := fresh "password" in let user := fresh "user" in
  let n := fresh "n" in let E := fresh "E" in
  let Hvalid := fresh "Hvalid" in let Hpw := fresh "Hpw" in
  let Hemail := fresh "Hemail" in let Hname := fresh "Hname" in
  let Hseq := fresh "Hseq" in let Hfresh := fresh "Hfresh" in
  let Htitle := fresh "Htitle" in let Hcontent := fresh "Hcontent" in
  let Hauthor := fresh "Hauthor" in
  destruct (db_step P e r d)
    as [E | [E | [(b & pw & Hvalid & Hpw & Hemail & Hname & Hseq & Hfresh & E)
       | [E | [(b & user & Htitle & Hcontent & Hseq & Hauthor & E)
       | [(b & n & E) | (n & E)]]]]]];
  rewrite E; clear E; simpl.






(** ** Listing the posts *)

Section Sort.
Context {A : Type} (cmp : A -> A -> Z).
Let le (a b : A) : Prop := cmp a b <= 0.
Hypothesis le_total : forall a b, le a b \/ le b a.
Hypothesis le_trans : forall a b c, le a b -> le b c -> le a c.

Lemma insert_perm (x : A) (l : list A) : Permutation (Js.insert cmp x l) (x :: l).
Proof.
  induction l as [|y r IH]; simpl; [reflexivity|].
  destruct (cmp x y <=? 0); [reflexivity|].
  rewrite IH. apply perm_swap.
Qed.

Lemma sort_perm (l : list A) : Permutation (Js.sort cmp l) l.
Proof.
  induction l as [|x r IH]; simpl; [reflexivity|].
  rewrite insert_perm. apply perm_skip, IH.
Qed.

Lemma insert_sorted (x : A) (l : list A) :
  StronglySorted le l -> StronglySorted le (Js.insert cmp x l).
Proof.
  intros H. induction H as [|y r Hr IH Hy]; simpl.
  - repeat constructor.
  - destruct (Z.leb_spec (cmp x y) 0) as [Hxy | Hxy].
    + constructor; [constructor; assumption|].
      constructor; [exact Hxy|].
      eapply Forall_impl; [|exact Hy]. intros z Hz. eapply le_trans; eassumption.
    + constructor; [exact IH|].
      rewrite Forall_forall in Hy |- *. intros z Hz.
      apply (Permutation_in _ (insert_perm x r)) in Hz. destruct Hz as [<- | Hz].
      * destruct (le_total y x) as [H | H]; [exact H | unfold le in H; lia].
      * apply Hy. assumption.
Qed.

Lemma sort_sorted (l : list A) : StronglySorted le (Js.sort cmp l).
Proof.
  induction l as [|x r IH]; simpl; [constructor | apply insert_sorted, IH].
Qed.

End Sort.

Lemma StronglySorted_weaken {A} (R R' : A -> A -> Prop) (l : list A) :
  (forall a b, R a b -> R' a b) -> StronglySorted R l -> StronglySorted R' l.
Proof.
  intros H S. induction S as [|x r Sr IH Hx]; constructor; trivial.
  eapply Forall_impl; [|exact Hx]. apply H.
Qed.

Lemma newest_first_sorted (l : list PostWithAuthor) :
  StronglySorted not_older (Js.sort Dev.newest_first l).
Proof.
  apply (StronglySorted_weaken (fun a b => Dev.newest_first a b <= 0)).
  - unfold Dev.newest_first, not_older. intros; lia.
  - apply (sort_sorted Dev.newest_first); unfold Dev.newest_first; intros; lia.
Qed.

Lemma with_author_enriched (us : list User.t) (p : Post.t) :
  post (Dev.with_author us p) = p /\ enriched us (Dev.with_author us p).
Proof.
  unfold enriched, Dev.with_author.
  destruct (find (Dev.by_id (Post.user_id p)) us) eqn:F; simpl; rewrite F; auto.
Qed.



Lemma filter_by_id_unique (us : list User.t) (n : Z) (u : User.t) :
  NoDup (map User.id us) -> find (Dev.by_id n) us = Some u ->
  filter (Dev.by_id n) us = [u].
Proof.
  induction us as [|y r IH]; simpl; [discriminate|].
  intros Hnd. inversion Hnd as [|? ? Hy Hr]; subst.
  destruct (Dev.by_id n y) eqn:E.
  - intros [= <-]. f_equal.
    apply filter_nil_find, find_none_iff. intros z Hz.
    unfold Dev.by_id in *. apply Z.eqb_eq in E. apply Z.eqb_neq. intros Hzn.
    apply Hy. apply in_map_iff. exists z. split; [congruence | assumption].
  - intros F. apply IH; assumption.
Qed.

Lemma join_is_with_author (us : list User.t) (ps : list Post.t) :
  NoDup (map User.id us) -> authors_ok us ps ->
  flat_map (Db.join_author us) ps = map (Dev.with_author us) ps.
Proof.
  intros Hnd Ha. induction Ha as [|p r Hp Hr IH]; simpl; [reflexivity|].
  rewrite IH. rewrite existsb_find in Hp.
  unfold Db.join_author, Dev.with_author.
  destruct (find (Dev.by_id (Post.user_id p)) us) as [u|] eqn:F; [|discriminate].
  rewrite (filter_by_id_unique us _ u Hnd F). reflexivity.
Qed.



(** ** The bearer token *)

Section Authenticate.
Variable P : Platform.

Lemma header_token_second_field (h : option string) :
  header_token h = second_field h \/
  (header_token h = Some "" /\ second_field h = None).
Proof.
  destruct h as [h|]; simpl; [|auto].
  destruct (Js.truthy h) eqn:T; [auto|].
  apply truthy_false in T. subst h. auto.
Qed.

Lemma missing_token_iff (t : Z) (h : option string) :
  auth_outcome (authenticateToken P t h) = MissingToken <->
  second_field h = None \/ second_field h = Some "".
Proof.
  unfold authenticateToken.
  destruct (header_token_second_field h) as [E | [E1 E2]].
  - rewrite E. destruct (second_field h) as [tok|]; [|simpl; tauto].
    destruct (Js.truthy tok) eqn:T; simpl.
    + apply truthy_true in T.
      destruct (jwt_verify P tok (JWT_SECRET P) t); simpl;
        (split; [discriminate | intros [H | [= H]]; [discriminate | congruence]]).
    + apply truthy_false in T. subst tok. tauto.
  - rewrite E1, E2. simpl. tauto.
Qed.

Lemma invalid_token_iff (t : Z) (h : option string) :
  auth_outcome (authenticateToken P t h) = InvalidToken <->
  exists tok, second_field h = Some tok /\ tok <> "" /\
              jwt_verify P tok (JWT_SECRET P) t = None.
Proof.
  unfold authenticateToken.
  destruct (header_token_second_field h) as [E | [E1 E2]].
  - rewrite E. destruct (second_field h) as [tok|].
    2:{ simpl. split; [discriminate | intros (tok & H & _); discriminate]. }
    destruct (Js.truthy tok) eqn:T; simpl.
    + apply truthy_true in T.
      destruct (jwt_verify P tok (JWT_SECRET P) t) eqn:V; simpl.
      * split; [discriminate | intros (tok' & [= <-] & _ & H); congruence].
      * split; [intros _; exists tok; auto | reflexivity].
    + apply truthy_false in T. subst tok.
      split; [discriminate | intros (tok' & [= <-] & H & _); congruence].
  - rewrite E1, E2. simpl.
    split; [discriminate | intros (tok & H & _); discriminate].
Qed.

Lemma jwt_verify_none (tok : string) (t : Z) :
  jwt_verify P tok (JWT_SECRET P) t = None <->
  jwt_decode P tok = None \/
  exists tk, jwt_decode P tok = Some tk /\
    (Jwt.signature tk <> hs256 P (JWT_SECRET P) (Jwt.claims tk) \/
     Jwt.exp (Jwt.claims tk) <= t / 1000).
Proof.
  unfold jwt_verify. destruct (jwt_decode P tok) as [tk|]; [|tauto].
  destruct (String.eqb_spec (Jwt.signature tk) (hs256 P (JWT_SECRET P) (Jwt.claims tk)))
    as [Hs | Hs].
  - destruct (Z.leb_spec (Jwt.exp (Jwt.claims tk)) (t / 1000)) as [He | He].
    + split; [intros _; right; exists tk; auto | reflexivity].
    + split; [discriminate|].
      intros [D | (tk' & [= <-] & [D | D])]; [discriminate | contradiction | lia].
  - split; [intros _; right; exists tk; auto | reflexivity].
Qed.

Lemma jwt_verify_some (tok : string) (t : Z) (c : Jwt.Claims) :
  jwt_verify P tok (JWT_SECRET P) t = Some c <->
  exists tk, jwt_decode P tok = Some tk /\ Jwt.claims tk = c /\
    Jwt.signature tk = hs256 P (JWT_SECRET P) c /\ t / 1000 < Jwt.exp c.
Proof.
  unfold jwt_verify. destruct (jwt_decode P tok) as [tk|].
  2:{ split; [discriminate | intros (tk & H & _); discriminate]. }
  destruct (String.eqb_spec (Jwt.signature tk) (hs256 P (JWT_SECRET P) (Jwt.claims tk)))
    as [Hs | Hs].
  - destruct (Z.leb_spec (Jwt.exp (Jwt.claims tk)) (t / 1000)) as [He | He].
    + split; [discriminate | intros (tk' & [= <-] & <- & _ & H'); lia].
    + split.
      * intros [= <-]. exists tk. auto.
      * intros (tk' & [= <-] & <- & _). reflexivity.
  - split; [discriminate | intros (tk' & [= <-] & <- & H' & _); contradiction].
Qed.

Lemma authenticated_iff (t : Z) (h : option string) (c : Jwt.Claims) :
  authenticateToken P t h = inr c <->
  exists tok, second_field h = Some tok /\ tok <> "" /\
              jwt_verify P tok (JWT_SECRET P) t = Some c.
Proof.
  unfold authenticateToken.
  destruct (header_token_second_field h) as [E | [E1 E2]].
  - rewrite E. destruct (second_field h) as [tok|].
    2:{ split; [discriminate | intros (tok & H & _); discriminate]. }
    destruct (Js.truthy tok) eqn:T; simpl.
    + apply truthy_true in T.
      destruct (jwt_verify P tok (JWT_SECRET P) t) eqn:V.
      * split; [intros [= <-]; exists tok; auto | intros (tok' & [= <-] & _ & H); congruence].
      * split; [discriminate | intros (tok' & [= <-] & _ & H); congruence].
    + apply truthy_false in T. subst tok.
      split; [discriminate | intros (tok' & [= <-] & H & _); congruence].
  - rewrite E1, E2. simpl.
    split; [discriminate | intros (tok & H & _); discriminate].
Qed.

Lemma second_field_bearer (tok : string) :
  Js.split " " tok = [tok] -> second_field (Some ("Bearer " ++ tok)) = Some tok.
Proof.
  intros H. unfold second_field. simpl. rewrite H. reflexivity.
Qed.

End Authenticate.

Lemma jwt_sign_issued (P : Platform) (id : Z) (email : string) (t0 : Z) :
  jwt_sign P id email (JWT_SECRET P) t0 = jwt_encode P (issued P id email t0).
Proof. reflexivity. Qed.

Lemma issued_token_accepted (P : Platform) (id : Z) (email : string) (t0 t : Z) :
  travels P (issued P id email t0) ->
  t / 1000 < t0 / 1000 + 86400 ->
  authenticateToken P t (Some ("Bearer " ++ jwt_encode P (issued P id email t0)))
    = inr (Jwt.claims (issued P id email t0)).
Proof.
  intros (Hd & Hs & Hn) Ht. apply authenticated_iff.
  exists (jwt_encode P (issued P id email t0)).
  split; [apply second_field_bearer; assumption|]. split; [assumption|].
  apply jwt_verify_some. exists (issued P id email t0). repeat split; trivial.
Qed.

Lemma issued_token_expires (P : Platform) (id : Z) (email : string) (t0 t : Z) :
  travels P (issued P id email t0) ->
  t0 / 1000 + 86400 <= t / 1000 ->
  auth_outcome (authenticateToken P t
                  (Some ("Bearer " ++ jwt_encode P (issued P id email t0)))) = InvalidToken.
Proof.
  intros (Hd & Hs & Hn) Ht. apply invalid_token_iff.
  exists (jwt_encode P (issued P id email t0)).
  split; [apply second_field_bearer; assumption|]. split; [assumption|].
  apply jwt_verify_none. right. exists (issued P id email t0). split; [assumption|].
  right. exact Ht.
Qed.

Lemma day_in_seconds (t0 t : Z) : t0 + 86400000 <= t -> t0 / 1000 + 86400 <= t / 1000.
Proof.
  intros H. replace (t0 / 1000 + 86400) with ((t0 + 86400 * 1000) / 1000)
    by (apply Z.div_add; lia).
  apply Z.div_le_mono; lia.
Qed.

Lemma altered_token_rejected (P : Platform) (t : Z) (h : option string)
  (tok' : string) (tk tk' : Jwt.Token) :
  Jwt.signature tk = hs256 P (JWT_SECRET P) (Jwt.claims tk) ->
  second_field h = Some tok' -> tok' <> "" -> jwt_decode P tok' = Some tk' ->
  (Jwt.claims tk' = Jwt.claims tk /\ Jwt.signature tk' <> Jwt.signature tk) \/
  (Jwt.signature tk' = Jwt.signature tk /\
   hs256 P (JWT_SECRET P) (Jwt.claims tk') <> hs256 P (JWT_SECRET P) (Jwt.claims tk)) ->
  auth_outcome (authenticateToken P t h) = InvalidToken.
Proof.
  intros Hsig Hf Hn Hd Halt. apply invalid_token_iff. exists tok'.
  split; [assumption|]. split; [assumption|].
  apply jwt_verify_none. right. exists tk'. split; [assumption|]. left.
  destruct Halt as [[Hc Hs] | [Hs Hc]]; congruence.
Qed.

Lemma issued_by_handlers (P : Platform) (e : Env) (rb : RegisterBody) (lb : LoginBody)
  (s : Dev.DataStore) (d : Db.Database) (r : Response) (uv : UserView) (tok : string) :
  In r [snd (Dev.register P e rb s); snd (Dev.login P e lb s);
        snd (Db.register P e rb d); snd (Db.login P e lb d)] ->
  user_of r = Some uv -> token_of r = Some tok ->
  tok = jwt_encode P (issued P (uv_id uv) (uv_email uv) (now e)) /\
  (status r = 200 \/ status r = 201).
Proof.
  intros [<- | [<- | [<- | [<- | []]]]].
  - rewrite dev_register_flat. destruct (register_errors P rb); [|discriminate].
    destruct (find _ _); [discriminate|].
    destruct (rb_password rb); [|discriminate]. simpl. intros [= <-] [= <-]. auto.
  - unfold Dev.login. destruct (login_errors P lb); [|discriminate].
    destruct (find _ _) as [u|]; [|discriminate].
    destruct (lb_password lb); [|discriminate].
    destruct (negb _); [discriminate|]. simpl. intros [= <-] [= <-]. auto.
  - unfold Db.register. destruct (register_errors P rb); [|discriminate].
    destruct (negb _); [discriminate|].
    destruct (filter _ _); [|discriminate].
    destruct (rb_password rb) as [password|v]; [|discriminate].
    destruct (insert_user_cases (normalizeEmail P (rb_email rb))
                (bcrypt_hash P password (salt e)) (Js.trim (rb_name rb)) (now e) d)
      as [-> | [(-> & _) | (-> & _)]]; try discriminate.
    simpl. intros [= <-] [= <-]. auto.
  - unfold Db.login. destruct (login_errors P lb); [|discriminate].
    destruct (negb _); [discriminate|].
    destruct (filter _ _) as [|u rows]; [discriminate|].
    destruct (lb_password lb); [|discriminate].
    destruct (negb _); [discriminate|]. simpl. intros [= <-] [= <-]. auto.
Qed.

(** C3 (amended): [authenticateToken] answers MissingToken (401) exactly when
    the Authorization header has no non-empty second space-separated field
    (the word before the space is not looked at), and InvalidToken (403)
    exactly when that field is not a well-formed token, its tag is not the
    one of its claims under the secret, or its [exp] second is reached.  On
    success it passes on the claims the tag was computed for.  A token
    answered by register or login carries the id and email of the answer; it
    is accepted as [Bearer <token>] while the clock, in whole seconds, is
    below the second of issue plus 86400, and rejected once 24 hours have
    passed; a token that keeps its claims under another tag, or keeps the
    tag under claims with another tag, is rejected. *)
Theorem C3_authenticate
  (P : Platform) (t : Z) (h : option string) :
  (auth_outcome (authenticateToken P t h) = MissingToken <->
     second_field h = None \/ second_field h = Some "") /\
  (auth_outcome (authenticateToken P t h) = InvalidToken <->
     exists tok, second_field h = Some tok /\ tok <> "" /\
       (jwt_decode P tok = None \/
        exists tk, jwt_decode P tok = Some tk /\
          (Jwt.signature tk <> hs256 P (JWT_SECRET P) (Jwt.claims tk) \/
           Jwt.exp (Jwt.claims tk) <= t / 1000))) /\
  (forall c, authenticateToken P t h = inr c ->
     exists tok tk, second_field h = Some tok /\ jwt_decode P tok = Some tk /\
       Jwt.claims tk = c /\ Jwt.signature tk = hs256 P (JWT_SECRET P) c) /\
  (forall (e : Env) (rb : RegisterBody) (lb : LoginBody)
          (s : Dev.DataStore) (d : Db.Database)
          (r : Response) (uv : UserView) (tok : string),
     In r [snd (Dev.register P e rb s); snd (Dev.login P e lb s);
           snd (Db.register P e rb d); snd (Db.login P e lb d)] ->
     user_of r = Some uv -> token_of r = Some tok ->
     let tk := issued P (uv_id uv) (uv_email uv) (now e) in
     tok = jwt_encode P tk /\
     Jwt.id (Jwt.claims tk) = uv_id uv /\ Jwt.email (Jwt.claims tk) = uv_email uv /\
     (travels P tk -> h = Some ("Bearer " ++ tok) ->
        (t / 1000 < now e / 1000 + 86400 ->
           authenticateToken P t h = inr (Jwt.claims tk)) /\
        (now e + 86400000 <= t ->
           auth_outcome (authenticateToken P t h) = InvalidToken)) /\
     (forall tok' tk',
        second_field h = Some tok' -> tok' <> "" -> jwt_decode P tok' = Some tk' ->
        (Jwt.claims tk' = Jwt.claims tk /\ Jwt.signature tk' <> Jwt.signature tk) \/
        (Jwt.signature tk' = Jwt.signature tk /\
         hs256 P (JWT_SECRET P) (Jwt.claims tk') <> hs256 P (JWT_SECRET P) (Jwt.claims tk)) ->
        auth_outcome (authenticateToken P t h) = InvalidToken)).
Proof.
  split; [apply missing_token_iff|].
  split.
  { rewrite invalid_token_iff. split.
    - intros (tok & Hf & Hn & Hv). exists tok. apply jwt_verify_none in Hv. auto.
    - intros (tok & Hf & Hn & Hv). exists tok. apply jwt_verify_none in Hv. auto. }
  split.
  { intros c Hc. apply authenticated_iff in Hc. destruct Hc as (tok & Hf & _ & Hv).
    apply jwt_verify_some in Hv. destruct Hv as (tk & Hd & Hcl & Hs & _).
    exists tok, tk. auto. }
  intros e rb lb s d r uv tok Hr Hu Ht tk.
  destruct (issued_by_handlers P e rb lb s d r uv tok Hr Hu Ht) as (-> & _).
  split; [reflexivity|]. split; [reflexivity|]. split; [reflexivity|]. split.
  - intros Htr ->. split.
    + intros Hlt. apply issued_token_accepted; assumption.
    + intros Hold. apply issued_token_expires; [assumption|].
      apply day_in_seconds. assumption.
  - intros tok' tk' Hf Hn Hd Halt.
    eapply altered_token_rejected with (tk := tk); eauto.
Qed.

Lemma C3_witness :
  In (snd (Dev.login Demo.platform (Demo.at_ 1000)
             (mkLoginBody "alice@example.com" (PText "secret1")) Scenario.store))
     [snd (Dev.register Demo.platform (Demo.at_ 1000) Scenario.bob Scenario.store);
      snd (Dev.login Demo.platform (Demo.at_ 1000)
             (mkLoginBody "alice@example.com" (PText "secret1")) Scenario.store);
      snd (Db.register Demo.platform (Demo.at_ 1000) Scenario.bob Scenario.database);
      snd (Db.login Demo.platform (Demo.at_ 1000)
             (mkLoginBody "alice@example.com" (PText "secret1")) Scenario.database)] /\
  travels Demo.platform (issued Demo.platform 1 "alice@example.com" 1000) /\
  authenticateToken Demo.platform 4000 Scenario.auth_alice = inr Scenario.claims_alice /\
  auth_outcome (authenticateToken Demo.platform 86401000 Scenario.auth_alice) = InvalidToken.
Proof.
  assert (Hin : In (snd (Dev.login Demo.platform (Demo.at_ 1000)
             (mkLoginBody "alice@example.com" (PText "secret1")) Scenario.store))
     [snd (Dev.register Demo.platform (Demo.at_ 1000) Scenario.bob Scenario.store);
      snd (Dev.login Demo.platform (Demo.at_ 1000)
             (mkLoginBody "alice@example.com" (PText "secret1")) Scenario.store);
      snd (Db.register Demo.platform (Demo.at_ 1000) Scenario.bob Scenario.database);
      snd (Db.login Demo.platform (Demo.at_ 1000)
             (mkLoginBody "alice@example.com" (PText "secret1")) Scenario.database)])
    by (right; left; reflexivity).
  assert (Htr : travels Demo.platform (issued Demo.platform 1 "alice@example.com" 1000)).
  { repeat split; vm_compute; (reflexivity || discriminate). }
  split; [exact Hin|]. split; [exact Htr|]. split.
  - destruct (C3_authenticate Demo.platform 4000 Scenario.auth_alice) as (_ & _ & _ & H).
    destruct (H (Demo.at_ 1000) Scenario.bob (mkLoginBody "alice@example.com" (PText "secret1"))
                Scenario.store Scenario.database _
                (mkUserView 1 "alice@example.com" "Alice" None) Scenario.token_alice
                Hin eq_refl eq_refl) as (_ & _ & _ & Hacc & _).
    destruct (Hacc Htr eq_refl) as (Hok & _).
    apply Hok. vm_compute. reflexivity.
  - destruct (C3_authenticate Demo.platform 86401000 Scenario.auth_alice) as (_ & _ & _ & H).
    destruct (H (Demo.at_ 1000) Scenario.bob (mkLoginBody "alice@example.com" (PText "secret1"))
                Scenario.store Scenario.database _
                (mkUserView 1 "alice@example.com" "Alice" None) Scenario.token_alice
                Hin eq_refl eq_refl) as (_ & _ & _ & Hacc & _).
    destruct (Hacc Htr eq_refl) as (_ & Hold).
    apply Hold. vm_compute. discriminate.
Defined.

(** C3 as stated fails: a header that carries no Bearer token, ["Basic abc"],
    is not answered with MissingToken but with InvalidToken, and a valid
    token is accepted behind any scheme word; and a token issued at 0.999 s
    is rejected at 86400 s, less than 24 hours later. *)
Lemma C3_counterexample :
  auth_outcome (authenticateToken Demo.platform 4000 (Some "Basic abc")) = InvalidToken /\
  authenticateToken Demo.platform 4000 (Some ("Basic " ++ Scenario.token_alice))
    = inr Scenario.claims_alice /\
  86400000 - 999 < 86400000 /\
  auth_outcome
    (authenticateToken Demo.platform 86400000
       (Some ("Bearer " ++ jwt_sign Demo.platform 1 "alice@example.com"
                             (JWT_SECRET Demo.platform) 999))) = InvalidToken.
Proof.
  repeat split; vm_compute; reflexivity.
Qed.

(** ** The two servers side by side *)

Lemma map_unchanged (f : Post.t -> Post.t) (n : Z) (ps : list Post.t) :
  ~ In n (map Post.id ps) ->
  map (fun q => if Post.id q =? n then f q else q) ps = ps.
Proof.
  induction ps as [|y r IH]; simpl; intros H; [reflexivity|].
  destruct (Z.eqb_spec (Post.id y) n); [exfalso; auto|].
  rewrite IH; auto.
Qed.

Lemma filter_unchanged (n : Z) (ps : list Post.t) :
  ~ In n (map Post.id ps) ->
  filter (fun q => negb (Post.id q =? n)) ps = ps.
Proof.
  induction ps as [|y r IH]; simpl; intros H; [reflexivity|].
  destruct (Z.eqb_spec (Post.id y) n); [exfalso; auto|]. simpl.
  rewrite IH; auto.
Qed.

Lemma map_upd_set_nth (f : Post.t -> Post.t) (ps : list Post.t) (i : nat) (p : Post.t) :
  NoDup (map Post.id ps) -> nth_error ps i = Some p ->
  map (fun q => if Post.id q =? Post.id p then f q else q) ps = Js.set_nth i (f p) ps.
Proof.
  revert i. induction ps as [|y r IH]; intros [|i] Hnd Hn; simpl in *; try discriminate;
    inversion Hnd as [|? ? Hy Hr]; subst.
  - injection Hn as ->. rewrite Z.eqb_refl. f_equal. apply map_unchanged. assumption.
  - destruct (Z.eqb_spec (Post.id y) (Post.id p)) as [E | E].
    + exfalso. apply Hy. rewrite E. apply in_map. eapply nth_error_In; eassumption.
    + f_equal. apply IH; assumption.
Qed.

Lemma filter_splice1 (ps : list Post.t) (i : nat) (p : Post.t) :
  NoDup (map Post.id ps) -> nth_error ps i = Some p ->
  filter (fun q => negb (Post.id q =? Post.id p)) ps = Js.splice1 i ps.
Proof.
  revert i. induction ps as [|y r IH]; intros [|i] Hnd Hn; simpl in *; try discriminate;
    inversion Hnd as [|? ? Hy Hr]; subst.
  - injection Hn as ->. rewrite Z.eqb_refl. simpl. apply filter_unchanged. assumption.
  - destruct (Z.eqb_spec (Post.id y) (Post.id p)) as [E | E].
    + exfalso. apply Hy. rewrite E. apply in_map. eapply nth_error_In; eassumption.
    + simpl. f_equal. apply IH; assumption.
Qed.

Lemma same_id_spec (P : Platform) (id : string) :
  same_id P id = true -> exists n, Js.parseInt id = Some n /\ pg_int4in P id = Some n.
Proof.
  unfold same_id. destruct (Js.parseInt id) as [a|]; [|discriminate].
  destruct (pg_int4in P id) as [b|]; [|discriminate].
  intros H. apply Z.eqb_eq in H. subst b. exists a. auto.
Qed.

Lemma distinct_NoDup (l : list Z) : distinct l = true -> NoDup l.
Proof.
  induction l as [|x r IH]; simpl; intros H; [constructor|].
  apply andb_prop in H. destruct H as [Hx Hr].
  constructor; [|apply IH; assumption].
  intros Hin. apply negb_true_iff in Hx.
  assert (E : existsb (Z.eqb x) r = true).
  { apply existsb_exists. exists x. split; [assumption | apply Z.eqb_refl]. }
  congruence.
Qed.

(** A listing is settled by its rows when no two of them are of the same
    instant. *)
Lemma sorted_listing_unique (l1 l2 : list PostWithAuthor) :
  Permutation l1 l2 ->
  NoDup (map (fun x => Post.created_at (post x)) l1) ->
  StronglySorted not_older l1 -> StronglySorted not_older l2 -> l1 = l2.
Proof.
  revert l2. induction l1 as [|a r IH]; intros l2 Hperm Hnd S1 S2.
  - apply Permutation_nil in Hperm. subst. reflexivity.
  - destruct l2 as [|b r2]; [apply Permutation_sym, Permutation_nil in Hperm; discriminate|].
    inversion Hnd as [|? ? Ha Hr]; subst.
    inversion S1 as [|? ? S1r F1]; subst. inversion S2 as [|? ? S2r F2]; subst.
    rewrite Forall_forall in F1, F2.
    assert (E : a = b).
    { assert (Hab : In a (b :: r2)) by (apply (Permutation_in _ Hperm); left; reflexivity).
      assert (Hba : In b (a :: r))
        by (apply (Permutation_in _ (Permutation_sym Hperm)); left; reflexivity).
      destruct Hab as [-> | Hab]; [reflexivity|].
      destruct Hba as [-> | Hba]; [reflexivity|].
      exfalso. apply Ha.
      pose proof (F2 a Hab) as H1. pose proof (F1 b Hba) as H2.
      unfold not_older in H1, H2.
      replace (Post.created_at (post a)) with (Post.created_at (post b)) by lia.
      apply (in_map (fun x => Post.created_at (post x))). assumption. }
    subst b. f_equal. apply IH; trivial.
    eapply Permutation_cons_inv; eassumption.
Qed.

Section Simulation.
Variable P : Platform.

Lemma sim_register e b s :
  admissible P e (Register b) s = true ->
  Db.register P e b (embed s)
    = (embed (fst (Dev.register P e b s)), snd (Dev.register P e b s)).
Proof.
  intros Ha. simpl in Ha.
  apply andb_prop in Ha. destruct Ha as [Ha I].
  apply andb_prop in Ha. destruct Ha as [Ha V3].
  apply andb_prop in Ha. destruct Ha as [V1 V2].
  unfold Db.register. rewrite dev_register_flat.
  destruct (register_errors P b); [|reflexivity].
  rewrite (varchar_text _ _ V1). simpl.
  destruct (find (Dev.by_email (normalizeEmail P (rb_email b))) (Dev.users s)) eqn:F.
  - rewrite find_hd_filter in F.
    destruct (filter _ (Dev.users s)); [discriminate | reflexivity].
  - rewrite (proj2 (filter_nil_find _ _) F).
    destruct (rb_password b) as [password|v]; [|reflexivity].
    unfold Db.insert_user. simpl. rewrite V1, V2, V3, I, existsb_find, F. reflexivity.
Qed.

Lemma sim_login e b s :
  admissible P e (Login b) s = true ->
  Db.login P e b (embed s) = (embed (fst (Dev.login P e b s)), snd (Dev.login P e b s)).
Proof.
  intros Ha. simpl in Ha.
  unfold Db.login, Dev.login. destruct (login_errors P b); [|reflexivity].
  rewrite Ha. simpl. rewrite find_hd_filter.
  destruct (filter _ (Dev.users s)) as [|u rows]; simpl; [reflexivity|].
  destruct (lb_password b); [|reflexivity].
  destruct (negb _); reflexivity.
Qed.

Lemma sim_profile e auth s :
  admissible P e (Profile auth) s = true ->
  Db.profile P e auth (embed s)
    = (embed (fst (Dev.profile P e auth s)), snd (Dev.profile P e auth s)).
Proof.
  intros Ha. simpl in Ha. unfold Db.profile, Dev.profile.
  destruct (authenticateToken P (now e) auth) as [r|user]; [reflexivity|].
  rewrite Ha. simpl. rewrite find_hd_filter.
  destruct (filter _ (Dev.users s)) as [|u rows]; reflexivity.
Qed.

Lemma sim_list e s :
  dev_ok s -> authors_ok (Dev.users s) (Dev.posts s) ->
  admissible P e ListPosts s = true ->
  Db.listPosts e (embed s) = (embed (fst (Dev.listPosts s)), snd (Dev.listPosts s)).
Proof.
  intros ((_ & Hid & _) & _) Hau Ha. simpl in Ha.
  unfold Db.listPosts, Dev.listPosts, Db.select_posts, Dev.postsWithAuthors. simpl.
  rewrite (join_is_with_author _ _ Hid Hau).
  do 3 f_equal. apply sorted_listing_unique.
  - rewrite !sort_perm. reflexivity.
  - assert (Hk : Permutation
                   (map (fun x => Post.created_at (post x))
                      (Js.sort Dev.newest_first
                         (Js.sort (Db.scan_order e)
                            (map (Dev.with_author (Dev.users s)) (Dev.posts s)))))
                   (map Post.created_at (Dev.posts s))).
    { rewrite !sort_perm, map_map. apply Permutation_refl'. apply map_ext.
      intros p. destruct (with_author_enriched (Dev.users s) p) as [-> _]. reflexivity. }
    eapply Permutation_NoDup; [apply Permutation_sym; exact Hk|].
    apply distinct_NoDup. exact Ha.
  - apply newest_first_sorted.
  - apply newest_first_sorted.
Qed.

Lemma sim_create e auth b s :
  admissible P e (CreatePost auth b) s = true ->
  Db.createPost P e auth b (embed s)
    = (embed (fst (Dev.createPost P e auth b s)), snd (Dev.createPost P e auth b s)).
Proof.
  intros Ha. simpl in Ha. unfold Db.createPost, Dev.createPost.
  destruct (authenticateToken P (now e) auth) as [r|user]; [reflexivity|].
  destruct (create_errors b); [|reflexivity].
  apply andb_prop in Ha. destruct Ha as [Ha U].
  apply andb_prop in U. destruct U as [U1 U2].
  apply andb_prop in Ha. destruct Ha as [Ha I].
  apply andb_prop in Ha. destruct Ha as [V1 V2].
  unfold Db.insert_post. simpl. rewrite V1, V2, U1, I, U2. reflexivity.
Qed.

Lemma sim_update e auth id b s :
  dev_ok s -> admissible P e (UpdatePost auth id b) s = true ->
  Db.updatePost P e auth id b (embed s)
    = (embed (fst (Dev.updatePost P e auth id b s)), snd (Dev.updatePost P e auth id b s)).
Proof.
  intros (_ & Hid & _) Ha. simpl in Ha.
  apply andb_prop in Ha. destruct Ha as [Hsame Ht].
  destruct (same_id_spec P id Hsame) as (n & Hp & Hg).
  unfold Db.updatePost, Dev.updatePost.
  destruct (authenticateToken P (now e) auth) as [r|user]; [reflexivity|].
  rewrite Hp, Hg. simpl.
  change (Dev.post_is (Some n)) with (Db.post_has_id n).
  destruct (find (Db.post_has_id n) (Dev.posts s)) as [p|] eqn:F.
  - destruct (find_findIndex _ _ _ F) as (i & Hi & Hn). rewrite Hi, Hn.
    pose proof F as F'. rewrite find_hd_filter in F'.
    destruct (filter (Db.post_has_id n) (Dev.posts s)) as [|q rows] eqn:Fl; [discriminate|].
    injection F' as ->.
    destruct (negb (Post.user_id p =? Jwt.id user)); [reflexivity|].
    unfold Db.update_post. rewrite Ht.
    cbn [embed Db.posts Db.users Db.users_id_seq Db.posts_id_seq].
    rewrite Fl. simpl.
    apply find_some in F. destruct F as [_ Hpn]. unfold Db.post_has_id in Hpn.
    apply Z.eqb_eq in Hpn. subst n. unfold embed. simpl.
    unfold Db.post_has_id. rewrite (map_upd_set_nth _ _ i p Hid Hn). reflexivity.
  - apply findIndex_None in F as F'. rewrite F'.
    apply filter_nil_find in F. rewrite F. reflexivity.
Qed.

Lemma sim_delete e auth id s :
  dev_ok s -> admissible P e (DeletePost auth id) s = true ->
  Db.deletePost P e auth id (embed s)
    = (embed (fst (Dev.deletePost P e auth id s)), snd (Dev.deletePost P e auth id s)).
Proof.
  intros (_ & Hid & _) Hsame. simpl in Hsame.
  destruct (same_id_spec P id Hsame) as (n & Hp & Hg).
  unfold Db.deletePost, Dev.deletePost.
  destruct (authenticateToken P (now e) auth) as [r|user]; [reflexivity|].
  rewrite Hp, Hg. simpl.
  change (Dev.post_is (Some n)) with (Db.post_has_id n).
  destruct (find (Db.post_has_id n) (Dev.posts s)) as [p|] eqn:F.
  - destruct (find_findIndex _ _ _ F) as (i & Hi & Hn). rewrite Hi, Hn.
    pose proof F as F'. rewrite find_hd_filter in F'.
    destruct (filter (Db.post_has_id n) (Dev.posts s)) as [|q rows] eqn:Fl; [discriminate|].
    injection F' as ->.
    destruct (negb (Post.user_id p =? Jwt.id user)); [reflexivity|].
    apply find_some in F. destruct F as [_ Hpn]. unfold Db.post_has_id in Hpn.
    apply Z.eqb_eq in Hpn. subst n. unfold Db.delete_post, embed. simpl.
    unfold Db.post_has_id. rewrite (filter_splice1 _ i p Hid Hn). reflexivity.
  - apply findIndex_None in F as F'. rewrite F'.
    apply filter_nil_find in F. rewrite F. reflexivity.
Qed.

Lemma sim_step e r s :
  dev_ok s -> authors_ok (Dev.users s) (Dev.posts s) -> admissible P e r s = true ->
  Db.handle P e r (embed s) = (embed (fst (Dev.handle P e r s)), snd (Dev.handle P e r s)).
Proof.
  intros Hs Hau Ha. destruct r; simpl.
  - apply sim_register; assumption.
  - apply sim_login; assumption.
  - apply sim_profile; assumption.
  - apply sim_list; assumption.
  - apply sim_create; assumption.
  - apply sim_update; assumption.
  - apply sim_delete; assumption.
  - discriminate.
  - discriminate.
  - reflexivity.
Qed.

End Simulation.

Lemma dev_handle_authors (P : Platform) e r s :
  authors_ok (Dev.users s) (Dev.posts s) -> admissible P e r s = true ->
  authors_ok (Dev.users (fst (Dev.handle P e r s))) (Dev.posts (fst (Dev.handle P e r s))).
Proof.
  intros Hau Ha. destruct r; simpl in Ha |- *.
  - rewrite dev_register_flat. split_state. apply authors_ok_more. assumption.
  - unfold Dev.login. split_state.
  - unfold Dev.profile. split_state.
  - assumption.
  - unfold Dev.createPost.
    destruct (authenticateToken P (now e) authorization) as [resp|user]; [assumption|].
    destruct (create_errors b); [|assumption]. simpl.
    apply andb_prop in Ha. destruct Ha as [_ Ha].
    apply andb_prop in Ha. destruct Ha as [_ Ha].
    apply Forall_snoc; assumption.
  - unfold Dev.updatePost. split_state.
    apply Forall_set_nth; [assumption|]. simpl.
    unfold authors_ok in Hau. rewrite Forall_forall in Hau. apply Hau.
    eapply nth_error_In; eassumption.
  - unfold Dev.deletePost. split_state. apply Forall_splice1. assumption.
  - assumption.
  - assumption.
  - assumption.
Qed.

Lemma sim_run (P : Platform) (rs : list (Env * Request)) (s : Dev.DataStore) :
  dev_ok s -> authors_ok (Dev.users s) (Dev.posts s) ->
  admissible_run P rs s = true ->
  Db.run P rs (embed s) = (embed (fst (Dev.run P rs s)), snd (Dev.run P rs s)).
Proof.
  revert s. induction rs as [|[e r] rs IH]; intros s Hs Hau Ha; [reflexivity|].
  simpl in Ha. apply andb_prop in Ha. destruct Ha as [Ha Hrest].
  rewrite db_run_cons, dev_run_cons, (sim_step P e r s Hs Hau Ha). simpl.
  rewrite IH; auto using dev_handle_ok, dev_handle_authors.
Qed.

(** C8 (amended): on every sequence of admissible requests, served one after
    the other, the two servers give the same answers and end with the same
    users, posts and counters.  A request is admissible when the text it
    hands to the database holds no NUL and what it would store is accepted
    by the columns of [init.sql], the ids it uses and draws are [INTEGER]s,
    a post is created with a token whose user exists, the id in the path of
    an update or delete is read as the same integer by [parseInt] and by
    PostgreSQL, and a listing is asked for when no two posts have the same
    [created_at]. *)
Theorem C8_servers_agree_on_admissible_runs
  (P : Platform) (rs : list (Env * Request)) :
  admissible_run P rs Dev.dataStore = true ->
  snd (Db.run P rs Db.empty) = snd (Dev.run P rs Dev.dataStore) /\
  fst (Db.run P rs Db.empty) = embed (fst (Dev.run P rs Dev.dataStore)).
Proof.
  intros Ha. change Db.empty with (embed Dev.dataStore).
  rewrite (sim_run P rs Dev.dataStore dev_initial_ok); [auto | constructor | exact Ha].
Qed.

Lemma C8_witness :
  admissible_run Demo.platform Scenario.session Dev.dataStore = true /\
  snd (Db.run Demo.platform Scenario.session Db.empty)
    = snd (Dev.run Demo.platform Scenario.session Dev.dataStore) /\
  map status (snd (Dev.run Demo.platform Scenario.session Dev.dataStore))
    = [201; 201; 201; 403; 200; 200; 200; 200; 200; 200].
Proof.
  assert (Ha : admissible_run Demo.platform Scenario.session Dev.dataStore = true)
    by (vm_compute; reflexivity).
  split; [exact Ha|]. split.
  - exact (proj1 (C8_servers_agree_on_admissible_runs Demo.platform Scenario.session Ha)).
  - vm_compute. reflexivity.
Defined.

(** C8 as stated fails: a registration with a name of 256 characters is
    answered with 201 by the in-memory server and with 500 by the database
    server, whose [name] column is a [VARCHAR(255)]; [GET /api] is answered
    with 200 by [server-dev.js] and has no route in [server.js]; and of two
    posts created at the same instant the in-memory server lists the first
    one first, while the database server lists the second one first when
    its scan finds it first. *)
Lemma C8_counterexample :
  map status (snd (Dev.run Demo.platform [(Demo.at_ 1000, Register Scenario.carol)]
                     Dev.dataStore)) = [201] /\
  map status (snd (Db.run Demo.platform [(Demo.at_ 1000, Register Scenario.carol)]
                     Db.empty)) = [500] /\
  map status (snd (Dev.run Demo.platform [(Demo.at_ 1000, ApiIndex)] Dev.dataStore)) = [200] /\
  map status (snd (Db.run Demo.platform [(Demo.at_ 1000, ApiIndex)] Db.empty)) = [404] /\
  (let twice :=
     [(Demo.at_ 3000, CreatePost Scenario.auth_alice (mkCreateBody "One" "1"));
      (Demo.at_ 3000, CreatePost Scenario.auth_alice (mkCreateBody "Two" "2"))] in
   let last := mkEnv 4000 "salt" (fun id => - id) in
   map (fun x => Post.title (post x))
       (Dev.postsWithAuthors
          (fst (Dev.run Demo.platform twice
                  (fst (Dev.run Demo.platform [(Demo.at_ 1000, Register Scenario.alice)]
                          Dev.dataStore))))) = ["One"; "Two"] /\
   map (fun x => Post.title (post x))
       (Db.select_posts last
          (fst (Db.run Demo.platform twice
                  (fst (Db.run Demo.platform [(Demo.at_ 1000, Register Scenario.alice)]
                          Db.empty))))) = ["Two"; "One"]).
Proof.
  repeat split; vm_compute; reflexivity.
Qed.

(** The difference the specification mentions lies outside the runs of the
    servers: in a store where a post has no author, the in-memory listing
    shows the placeholder and the join of the database drops the post. *)
Lemma listing_without_author :
  Dev.postsWithAuthors Scenario.orphaned
    = [mkPostWithAuthor Scenario.orphan "Unknown" "unknown@example.com"] /\
  (forall e, Db.select_posts e (embed Scenario.orphaned) = []).
Proof.
  split; reflexivity.
Qed.

(** * Further properties of the code *)

(** ** The string primitives *)

Lemma string_length_app (a b : string) :
  String.length (a ++ b) = (String.length a + String.length b)%nat.
Proof. induction a as [|c r IH]; simpl; [reflexivity | rewrite IH; reflexivity]. Qed.

Lemma string_app_empty (a : string) : a ++ "" = a.
Proof. induction a as [|c r IH]; simpl; [reflexivity | rewrite IH; reflexivity]. Qed.

Lemma string_app_assoc (a b c : string) : (a ++ b) ++ c = a ++ (b ++ c).
Proof. induction a as [|x r IH]; simpl; [reflexivity | rewrite IH; reflexivity]. Qed.

Lemma space_shorter (s r : string) :
  Js.space s = Some r -> (String.length r < String.length s)%nat.
Proof.
  destruct s as [|c1 [|c2 [|c3 r3]]]; simpl;
    repeat match goal with |- context [if ?b then _ else _] => destruct b end;
    intros H; try discriminate H; injection H as <-; simpl; lia.
Qed.

Lemma space_app (s r q : string) :
  Js.space s = Some r -> Js.space (s ++ q) = Some (r ++ q).
Proof.
  destruct s as [|c1 [|c2 [|c3 r3]]]; simpl;
    repeat match goal with |- context [if ?b then _ else _] => destruct b end;
    intros H; try discriminate H; injection H as <-; try reflexivity.
Qed.

Lemma ltrim_eq (s : string) :
  Js.ltrim s = match Js.space s with Some r => Js.ltrim r | None => s end.
Proof.
  destruct s as [|c1 [|c2 [|c3 r3]]]; simpl;
    repeat (match goal with |- context [if ?b then _ else _] => destruct b end; simpl);
    reflexivity.
Qed.

Lemma ltrim_facts (n : nat) (s : string) :
  (String.length s <= n)%nat ->
  (String.length (Js.ltrim s) <= String.length s)%nat /\ Js.space (Js.ltrim s) = None.
Proof.
  revert s. induction n as [|n IH]; intros s Hn.
  - destruct s; [split; reflexivity | simpl in Hn; lia].
  - rewrite ltrim_eq. destruct (Js.space s) as [r|] eqn:E.
    + pose proof (space_shorter s r E) as Hr.
      destruct (IH r ltac:(lia)) as [H1 H2]. split; [lia | exact H2].
    + split; [lia | exact E].
Qed.

Lemma ltrim_length (s : string) : (String.length (Js.ltrim s) <= String.length s)%nat.
Proof. apply (ltrim_facts (String.length s)). lia. Qed.

Lemma space_ltrim (s : string) : Js.space (Js.ltrim s) = None.
Proof. apply (ltrim_facts (String.length s)). lia. Qed.

Lemma ltrim_fixed (s : string) : Js.space s = None -> Js.ltrim s = s.
Proof. intros H. rewrite ltrim_eq, H. reflexivity. Qed.

Lemma ltrim_same_length (s : string) :
  String.length (Js.ltrim s) = String.length s -> Js.ltrim s = s.
Proof.
  intros H. rewrite ltrim_eq in *. destruct (Js.space s) as [r|] eqn:E; [|reflexivity].
  pose proof (space_shorter s r E). pose proof (ltrim_length r). lia.
Qed.

Lemma ltrim_all_space (s : string) : all_space s -> Js.ltrim s = "".
Proof.
  induction 1 as [|w s Hw Hs IH]; [reflexivity|].
  rewrite ltrim_eq, (space_app w "" s Hw). exact IH.
Qed.

Lemma rtrim_step (c : ascii) (r : string) :
  Js.rtrim (String c r) =
    match Js.space (String c (Js.rtrim r)) with
    | Some EmptyString => ""
    | _ => String c (Js.rtrim r)
    end.
Proof. reflexivity. Qed.

Lemma rtrim_cons (c : ascii) (r : string) :
  Js.rtrim (String c r) = "" \/ Js.rtrim (String c r) = String c (Js.rtrim r).
Proof.
  rewrite rtrim_step. destruct (Js.space (String c (Js.rtrim r))) as [[|]|]; auto.
Qed.

Lemma rtrim_length (s : string) : (String.length (Js.rtrim s) <= String.length s)%nat.
Proof.
  induction s as [|c r IH]; [reflexivity|].
  destruct (rtrim_cons c r) as [-> | ->]; simpl; lia.
Qed.

Lemma rtrim_prefix (s : string) : exists q, s = Js.rtrim s ++ q.
Proof.
  induction s as [|c r (q & IH)]; [exists ""; reflexivity|].
  destruct (rtrim_cons c r) as [-> | ->].
  - exists (String c r). reflexivity.
  - exists q. simpl. rewrite <- IH. reflexivity.
Qed.

Lemma rtrim_idempotent (s : string) : Js.rtrim (Js.rtrim s) = Js.rtrim s.
Proof.
  induction s as [|c r IH]; [reflexivity|].
  rewrite rtrim_step.
  destruct (Js.space (String c (Js.rtrim r))) as [[|a t]|] eqn:E; [reflexivity| |];
    rewrite rtrim_step, IH, E; reflexivity.
Qed.

Lemma rtrim_same_length (s : string) :
  String.length (Js.rtrim s) = String.length s -> Js.rtrim s = s.
Proof.
  intros H. destruct (rtrim_prefix s) as (q & E).
  assert (L : String.length s = (String.length (Js.rtrim s) + String.length q)%nat).
  { rewrite E at 1. apply string_length_app. }
  destruct q as [|c q]; [|simpl in L; lia].
  rewrite string_app_empty in E. symmetry. exact E.
Qed.

Lemma space_of_prefix (p q : string) : Js.space (p ++ q) = None -> Js.space p = None.
Proof.
  intros H. destruct (Js.space p) as [r|] eqn:E; [|reflexivity].
  rewrite (space_app p r q E) in H. discriminate.
Qed.

Lemma trim_idempotent (s : string) : Js.trim (Js.trim s) = Js.trim s.
Proof.
  unfold Js.trim.
  destruct (rtrim_prefix (Js.ltrim s)) as (q & E).
  assert (N : Js.space (Js.rtrim (Js.ltrim s)) = None).
  { apply (space_of_prefix _ q). rewrite <- E. apply space_ltrim. }
  rewrite (ltrim_fixed _ N). apply rtrim_idempotent.
Qed.

Lemma trim_all_space (s : string) : all_space s -> Js.trim s = "".
Proof. intros H. unfold Js.trim. rewrite (ltrim_all_space s H). reflexivity. Qed.

(** A byte of the upper half is no white-space character by itself. *)
Lemma space1_upper (c : ascii) : (128 <= nat_of_ascii c)%nat -> Js.space1 c = false.
Proof.
  intros H. unfold Js.space1.
  rewrite orb_false_iff, andb_false_iff, Nat.eqb_neq, !Nat.leb_gt. lia.
Qed.

Lemma space2_bytes (c1 c2 : ascii) :
  Js.space2 c1 c2 = true -> nat_of_ascii c1 = 194%nat /\ nat_of_ascii c2 = 160%nat.
Proof.
  unfold Js.space2. rewrite andb_true_iff, !Nat.eqb_eq. tauto.
Qed.

Lemma space3_bytes (c1 c2 c3 : ascii) :
  Js.space3 c1 c2 c3 = true ->
  (128 <= nat_of_ascii c2)%nat /\ nat_of_ascii c2 <> 194%nat /\ (128 <= nat_of_ascii c3)%nat.
Proof.
  unfold Js.space3. cbv zeta.
  rewrite !orb_true_iff, !andb_true_iff, !orb_true_iff, !andb_true_iff,
          !Nat.eqb_eq, !Nat.leb_le.
  lia.
Qed.

Lemma space2_not (c1 c2 : ascii) : nat_of_ascii c1 <> 194%nat -> Js.space2 c1 c2 = false.
Proof.
  intros H. unfold Js.space2. rewrite andb_false_iff, !Nat.eqb_neq. tauto.
Qed.

(** The white-space characters and their bytes. *)
Lemma one_space_bytes (w : string) :
  one_space w ->
  (exists c1, w = String c1 "" /\ Js.space1 c1 = true) \/
  (exists c1 c2, w = String c1 (String c2 "") /\ Js.space1 c1 = false /\
                 Js.space2 c1 c2 = true) \/
  (exists c1 c2 c3, w = String c1 (String c2 (String c3 "")) /\ Js.space1 c1 = false /\
                    Js.space2 c1 c2 = false /\ Js.space3 c1 c2 c3 = true).
Proof.
  unfold one_space.
  destruct w as [|c1 [|c2 [|c3 r3]]]; simpl; try discriminate.
  - destruct (Js.space1 c1) eqn:S1; [|discriminate]. intros _. left. eauto.
  - destruct (Js.space1 c1) eqn:S1; [discriminate|].
    destruct (Js.space2 c1 c2) eqn:S2; [|discriminate]. intros _. right. left. eauto 6.
  - destruct (Js.space1 c1) eqn:S1; [discriminate|].
    destruct (Js.space2 c1 c2) eqn:S2; [discriminate|].
    destruct (Js.space3 c1 c2 c3) eqn:S3; [|discriminate].
    intros [= ->]. right. right. eauto 10.
Qed.

Lemma rtrim_one_space (w : string) : one_space w -> Js.rtrim w = "".
Proof.
  intros H. destruct (one_space_bytes w H)
    as [(c1 & -> & S1) | [(c1 & c2 & -> & S1 & S2) | (c1 & c2 & c3 & -> & S1 & S2 & S3)]].
  - simpl. rewrite S1. reflexivity.
  - destruct (space2_bytes c1 c2 S2) as [B1 B2].
    assert (R2 : Js.rtrim (String c2 "") = String c2 "").
    { simpl. rewrite (space1_upper c2) by lia. reflexivity. }
    rewrite rtrim_step, R2. simpl. rewrite S1, S2. reflexivity.
  - destruct (space3_bytes c1 c2 c3 S3) as (B2 & B2' & B3).
    assert (R3 : Js.rtrim (String c3 "") = String c3 "").
    { simpl. rewrite (space1_upper c3) by lia. reflexivity. }
    assert (R2 : Js.rtrim (String c2 (String c3 "")) = String c2 (String c3 "")).
    { rewrite rtrim_step, R3. simpl.
      rewrite (space1_upper c2) by lia. rewrite (space2_not c2 c3 B2'). reflexivity. }
    rewrite rtrim_step, R2. simpl. rewrite S1, S2, S3. reflexivity.
Qed.

Lemma rtrim_app_space (r w : string) : one_space w -> Js.rtrim (r ++ w) = Js.rtrim r.
Proof.
  intros H. induction r as [|c r IH].
  - apply rtrim_one_space. exact H.
  - change (String c r ++ w) with (String c (r ++ w)).
    rewrite !rtrim_step, IH. reflexivity.
Qed.

Lemma one_space_length (w : string) : one_space w -> (0 < String.length w)%nat.
Proof. intros H. apply space_shorter in H. lia. Qed.

(** Text that [trim] leaves as it is begins and ends with no white-space
    character. *)
Lemma trimmed_fixed (x : string) : Js.trim x = x -> Js.ltrim x = x /\ Js.rtrim x = x.
Proof.
  unfold Js.trim. intros H.
  pose proof (rtrim_length (Js.ltrim x)) as L1. pose proof (ltrim_length x) as L2.
  assert (E : Js.ltrim x = x).
  { apply ltrim_same_length. rewrite H in L1. lia. }
  rewrite E in H. auto.
Qed.

Lemma trimmed_no_space (x : string) :
  trimmed x -> ~ starts_with_space x /\ ~ ends_with_space x.
Proof.
  intros H. destruct (trimmed_fixed x H) as [HL HR]. split.
  - intros (w & r & Hw & E).
    assert (S : Js.space x = Some r) by (rewrite E; apply (space_app w "" r Hw)).
    rewrite ltrim_eq, S in HL.
    pose proof (ltrim_length r). pose proof (space_shorter x r S).
    rewrite HL in *. lia.
  - intros (r & w & Hw & E).
    rewrite E, (rtrim_app_space r w Hw) in HR.
    pose proof (rtrim_length r) as L. pose proof (one_space_length w Hw) as L'.
    rewrite HR, string_length_app in L. lia.
Qed.

Lemma split_nonempty (sep : ascii) (s : string) : Js.split sep s <> [].
Proof.
  destruct s as [|c r]; simpl; [discriminate|].
  destruct (Ascii.eqb c sep); [discriminate|].
  destruct (Js.split sep r); discriminate.
Qed.

Lemma split_cons (sep c : ascii) (r : string) :
  Js.split sep (String c r) =
    if Ascii.eqb c sep then "" :: Js.split sep r
    else match Js.split sep r with
         | h :: t => String c h :: t
         | [] => [String c ""]
         end.
Proof. reflexivity. Qed.

Lemma split_clean (sep : ascii) (s : string) :
  occurs sep s = false -> Js.split sep s = [s].
Proof.
  induction s as [|c r IH]; [reflexivity|]. simpl.
  destruct (Ascii.eqb c sep); [discriminate|]. simpl. intros H.
  rewrite (IH H). reflexivity.
Qed.

Lemma split_app (sep : ascii) (f rest : string) :
  occurs sep f = false ->
  Js.split sep (f ++ String sep rest) = f :: Js.split sep rest.
Proof.
  induction f as [|c r IH]; simpl.
  - intros _. rewrite Ascii.eqb_refl. reflexivity.
  - destruct (Ascii.eqb c sep); [discriminate|]. simpl. intros H.
    rewrite (IH H). reflexivity.
Qed.

(** ** The protected routes *)



(** X2: login, profile, the listing, the health check and the index of the
    endpoints never change a store, whatever they answer. *)
Theorem reading_routes_change_nothing
  (P : Platform) (e : Env) (r : Request) (s : Dev.DataStore) (d : Db.Database) :
  read_only r = true ->
  fst (Dev.handle P e r s) = s /\ fst (Db.handle P e r d) = d.
Proof.
  intros H. destruct r; try discriminate; simpl.
  - unfold Dev.login, Db.login. split; split_handler H.
  - unfold Dev.profile, Db.profile. split; split_handler H.
  - auto.
  - auto.
  - auto.
Qed.

Lemma reading_routes_change_nothing_witness :
  read_only (Login (mkLoginBody "alice@example.com" (PText "secret1"))) = true /\
  fst (Dev.handle Demo.platform (Demo.at_ 4000)
         (Login (mkLoginBody "alice@example.com" (PText "secret1"))) Scenario.store)
    = Scenario.store.
Proof.
  assert (H : read_only (Login (mkLoginBody "alice@example.com" (PText "secret1"))) = true)
    by reflexivity.
  split; [exact H|].
  exact (proj1 (reading_routes_change_nothing Demo.platform (Demo.at_ 4000) _
                  Scenario.store Scenario.database H)).
Defined.

(** ** Creating a post *)

Lemma create_errors_nil (b : CreateBody) :
  create_errors b = [] <-> cb_title b <> "" /\ cb_content b <> "".
Proof.
  unfold create_errors.
  destruct (Js.truthy (cb_title b)) eqn:T; destruct (Js.truthy (cb_content b)) eqn:C;
    cbn [app];
    try apply truthy_true in T; try apply truthy_false in T;
    try apply truthy_true in C; try apply truthy_false in C;
    (split; [intros H; try discriminate H; auto | intros (H1 & H2)]);
    try reflexivity; congruence.
Qed.

(** X3: for an authenticated actor, a create whose title or content is the
    empty text is answered with 400 and stores nothing; otherwise the
    in-memory server answers 201 and appends a post with the next id, the
    actor as owner, the trimmed title and content, and the time of the call
    as [created_at] and [updated_at], moving only the post counter.  The
    database server does the same when the parameters are accepted (a
    trimmed title of at most 255 characters, no NUL in the title or the
    content, an actor id and a next id that are [INTEGER]s) and the actor is
    a user; it answers 500 leaving everything as it is when a parameter is
    not accepted, and 500 with only the id drawn when the actor is not a
    user. *)
Theorem create_post_contract
  (P : Platform) (e : Env) (auth : option string) (b : CreateBody) (user : Jwt.Claims)
  (s : Dev.DataStore) (d : Db.Database) :
  authenticateToken P (now e) auth = inr user ->
  let newPost id :=
    Post.mk id (Js.trim (cb_title b)) (Js.trim (cb_content b)) (Jwt.id user)
            (now e) (now e) in
  let created id := mkResponse 201 (JPost "Post created successfully" (newPost id)) in
  let accepted :=
    Db.varchar 255 (Js.trim (cb_title b)) && Db.text (Js.trim (cb_content b))
    && Db.int4 (Jwt.id user) && Db.int4 (Db.posts_id_seq d) in
  (cb_title b = "" \/ cb_content b = "" ->
     fst (Dev.createPost P e auth b s) = s /\
     status (snd (Dev.createPost P e auth b s)) = 400 /\
     fst (Db.createPost P e auth b d) = d /\
     status (snd (Db.createPost P e auth b d)) = 400) /\
  (cb_title b <> "" -> cb_content b <> "" ->
     Dev.createPost P e auth b s =
       (Dev.mk (Dev.users s) (Dev.posts s ++ [newPost (Dev.nextPostId s)])
               (Dev.nextUserId s) (Dev.nextPostId s + 1),
        created (Dev.nextPostId s)) /\
     (accepted = true ->
      (exists u, In u (Db.users d) /\ User.id u = Jwt.id user) ->
        Db.createPost P e auth b d =
          (Db.mk (Db.users d) (Db.posts d ++ [newPost (Db.posts_id_seq d)])
                 (Db.users_id_seq d) (Db.posts_id_seq d + 1),
           created (Db.posts_id_seq d))) /\
     (accepted = true ->
      (forall u, In u (Db.users d) -> User.id u <> Jwt.id user) ->
        Db.createPost P e auth b d =
          (Db.mk (Db.users d) (Db.posts d) (Db.users_id_seq d) (Db.posts_id_seq d + 1),
           internal_error)) /\
     (accepted = false -> Db.createPost P e auth b d = (d, internal_error))).
Proof.
  intros Ha newPost created accepted. split.
  - intros Hempty.
    assert (Hne : create_errors b <> []).
    { intros E. apply create_errors_nil in E. tauto. }
    unfold Dev.createPost, Db.createPost. rewrite Ha.
    destruct (create_errors b); [congruence|]. auto.
  - intros Ht Hc.
    assert (Hv : create_errors b = []) by (apply create_errors_nil; auto).
    unfold Dev.createPost, Db.createPost. rewrite Ha, Hv.
    split; [reflexivity|]. unfold Db.insert_post. fold accepted.
    assert (Hacc : accepted = true ->
              Db.varchar 255 (Js.trim (cb_title b)) && Db.text (Js.trim (cb_content b))
              && Db.int4 (Jwt.id user) = true /\ Db.int4 (Db.posts_id_seq d) = true).
    { unfold accepted. intros H. apply andb_prop in H. exact H. }
    split; [|split].
    + intros Hfit (u & Hin & Hu). destruct (Hacc Hfit) as [H1 H2].
      assert (Hex : existsb (Dev.by_id (Jwt.id user)) (Db.users d) = true).
      { apply existsb_exists. exists u. split; [exact Hin|].
        unfold Dev.by_id. apply Z.eqb_eq. exact Hu. }
      rewrite H1, H2, Hex. reflexivity.
    + intros Hfit Hnone. destruct (Hacc Hfit) as [H1 H2].
      assert (Hex : existsb (Dev.by_id (Jwt.id user)) (Db.users d) = false).
      { rewrite existsb_find.
        destruct (find (Dev.by_id (Jwt.id user)) (Db.users d)) as [u|] eqn:F; [|reflexivity].
        apply find_some in F. destruct F as [Hin Hu]. unfold Dev.by_id in Hu.
        apply Z.eqb_eq in Hu. exfalso. exact (Hnone u Hin Hu). }
      rewrite H1, H2, Hex. reflexivity.
    + unfold accepted. intros Hno.
      destruct (Db.varchar 255 (Js.trim (cb_title b)) && Db.text (Js.trim (cb_content b))
                && Db.int4 (Jwt.id user)); simpl in *; [|reflexivity].
      rewrite Hno. reflexivity.
Qed.

Lemma create_post_contract_witness :
  authenticateToken Demo.platform 4000 Scenario.auth_bob = inr Scenario.claims_bob /\
  status (snd (Dev.createPost Demo.platform (Demo.at_ 4000) Scenario.auth_bob
                 (mkCreateBody " Second " "post") Scenario.store)) = 201 /\
  status (snd (Db.createPost Demo.platform (Demo.at_ 4000) Scenario.auth_bob
                 (mkCreateBody " Second " "post") Scenario.database)) = 201.
Proof.
  assert (Ha : authenticateToken Demo.platform (now (Demo.at_ 4000)) Scenario.auth_bob
               = inr Scenario.claims_bob) by (vm_compute; reflexivity).
  destruct (create_post_contract Demo.platform (Demo.at_ 4000) Scenario.auth_bob
              (mkCreateBody " Second " "post") Scenario.claims_bob
              Scenario.store Scenario.database Ha) as (_ & Hok).
  assert (H1 : cb_title (mkCreateBody " Second " "post") <> "") by discriminate.
  assert (H2 : cb_content (mkCreateBody " Second " "post") <> "") by discriminate.
  destruct (Hok H1 H2) as (Hdev & Hdb & _).
  split; [exact Ha|]. split.
  - rewrite Hdev. reflexivity.
  - rewrite Hdb; [reflexivity | reflexivity |].
    exists (User.mk 2 "bob@example.com" "secret2$salt" "Bob" 2000).
    split; [right; left; reflexivity | reflexivity].
Defined.

(** X4: the validators look at a field before it is trimmed.  On the
    in-memory server a title or a name that is not empty but made of
    white-space characters only passes [notEmpty()] and is stored as the
    empty text: the create is answered with 201 and a post with an empty
    title, the registration with 201 and a user with an empty name. *)
Theorem blank_fields_are_stored_empty
  (P : Platform) (e : Env) (auth : option string) (user : Jwt.Claims)
  (cb : CreateBody) (rb : RegisterBody) (s : Dev.DataStore) :
  (authenticateToken P (now e) auth = inr user ->
   cb_title cb <> "" -> all_space (cb_title cb) -> cb_content cb <> "" ->
     exists p, snd (Dev.createPost P e auth cb s)
                 = mkResponse 201 (JPost "Post created successfully" p) /\
               Post.title p = "" /\
               In p (Dev.posts (fst (Dev.createPost P e auth cb s)))) /\
  (forall password,
   isEmail P (rb_email rb) = true ->
   rb_password rb = PText password -> (6 <= isLength_count P password)%nat ->
   rb_name rb <> "" -> all_space (rb_name rb) ->
   (forall u, In u (Dev.users s) -> User.email u <> normalizeEmail P (rb_email rb)) ->
     exists u tok, snd (Dev.register P e rb s)
                 = mkResponse 201 (JAuth "User registered successfully" u tok) /\
               uv_name u = "" /\
               exists stored, In stored (Dev.users (fst (Dev.register P e rb s))) /\
                              User.id stored = uv_id u /\ User.name stored = "").
Proof.
  split.
  - intros Ha Ht Hblank Hc.
    assert (Hv : create_errors cb = []) by (apply create_errors_nil; auto).
    unfold Dev.createPost. rewrite Ha, Hv.
    eexists. split; [reflexivity|]. simpl. split.
    + apply trim_all_space. exact Hblank.
    + apply in_or_app. right. left. reflexivity.
  - intros password Hemail Hp Hlen Hname Hblank Hfresh.
    assert (Hvalid : register_errors P rb = []).
    { apply register_errors_nil. rewrite Hp. simpl. auto. }
    rewrite (dev_register_fresh P e rb Hvalid s password Hp Hfresh).
    apply trim_all_space in Hblank.
    eexists. eexists. split; [reflexivity|]. simpl. split; [exact Hblank|].
    eexists. split; [apply in_or_app; right; left; reflexivity|].
    simpl. auto.
Qed.

Lemma blank_fields_are_stored_empty_witness :
  let blank_title := String "194" (String "160" (String "009" " ")) in
  authenticateToken Demo.platform 4000 Scenario.auth_bob = inr Scenario.claims_bob /\
  cb_title (mkCreateBody blank_title "post") <> "" /\
  all_space (cb_title (mkCreateBody blank_title "post")) /\
  cb_content (mkCreateBody blank_title "post") <> "" /\
  exists p, snd (Dev.createPost Demo.platform (Demo.at_ 4000) Scenario.auth_bob
                   (mkCreateBody blank_title "post") Scenario.store)
              = mkResponse 201 (JPost "Post created successfully" p) /\
            Post.title p = "".
Proof.
  intros blank_title.
  assert (Ha : authenticateToken Demo.platform (now (Demo.at_ 4000)) Scenario.auth_bob
               = inr Scenario.claims_bob) by (vm_compute; reflexivity).
  assert (H1 : cb_title (mkCreateBody blank_title "post") <> "") by discriminate.
  assert (H2 : all_space (cb_title (mkCreateBody blank_title "post"))).
  { exact (all_space_cons (String "194" (String "160" "")) _ eq_refl
             (all_space_cons (String "009" "") _ eq_refl
                (all_space_cons " " "" eq_refl all_space_nil))). }
  assert (H3 : cb_content (mkCreateBody blank_title "post") <> "") by discriminate.
  split; [exact Ha|]. split; [exact H1|]. split; [exact H2|]. split; [exact H3|].
  destruct (proj1 (blank_fields_are_stored_empty Demo.platform (Demo.at_ 4000)
                     Scenario.auth_bob Scenario.claims_bob (mkCreateBody blank_title "post")
                     Scenario.alice Scenario.store) Ha H1 H2 H3) as (p & Hr & Ht & _).
  exists p. split; assumption.
Defined.

(** ** What a run keeps *)

Lemma In_set_nth {A} (l : list A) (i : nat) (x y : A) :
  In y (Js.set_nth i x l) -> y = x \/ In y l.
Proof.
  revert i. induction l as [|z r IH]; intros [|i]; simpl; auto.
  - intros [<- | H]; auto.
  - intros [<- | H]; auto. destruct (IH i H); auto.
Qed.

Lemma descends_refl (p : Post.t) : descends p p.
Proof. repeat split. Qed.

Lemma descends_update (b : UpdateBody) (t : Z) (p : Post.t) :
  descends p (apply_update b t p).
Proof. repeat split. Qed.

Lemma dev_handle_lineage (P : Platform) e r s :
  Dev.nextPostId s <= Dev.nextPostId (fst (Dev.handle P e r s)) /\
  forall p', In p' (Dev.posts (fst (Dev.handle P e r s))) ->
    (exists p, In p (Dev.posts s) /\ descends p p') \/ Post.id p' = Dev.nextPostId s.
Proof.
  assert (Hsame : Dev.nextPostId s <= Dev.nextPostId s /\
            forall p', In p' (Dev.posts s) ->
              (exists p, In p (Dev.posts s) /\ descends p p') \/
              Post.id p' = Dev.nextPostId s).
  { split; [lia|]. intros p' H. left. exists p'. split; [exact H | apply descends_refl]. }
  destruct r; simpl; try exact Hsame.
  - rewrite dev_register_flat. split_state.
  - unfold Dev.login. split_state.
  - unfold Dev.profile. split_state.
  - unfold Dev.createPost. split_state. split; [lia|].
    intros p' H. apply in_app_or in H. destruct H as [H | [<- | []]].
    + left. exists p'. split; [exact H | apply descends_refl].
    + right. reflexivity.
  - unfold Dev.updatePost. split_state. split; [lia|].
    intros p' H. left. apply In_set_nth in H. destruct H as [-> | H].
    + eexists. split; [eapply nth_error_In; eassumption | apply descends_update].
    + exists p'. split; [exact H | apply descends_refl].
  - unfold Dev.deletePost. split_state. split; [lia|].
    intros p' H. left. exists p'. split; [eapply In_splice1; eassumption | apply descends_refl].
Qed.

Lemma db_handle_lineage (P : Platform) e r d :
  Db.posts_id_seq d <= Db.posts_id_seq (fst (Db.handle P e r d)) /\
  forall p', In p' (Db.posts (fst (Db.handle P e r d))) ->
    (exists p, In p (Db.posts d) /\ descends p p') \/ Post.id p' = Db.posts_id_seq d.
Proof.
  assert (Hsame : forall p', In p' (Db.posts d) ->
              (exists p, In p (Db.posts d) /\ descends p p') \/
              Post.id p' = Db.posts_id_seq d).
  { intros p' H. left. exists p'. split; [exact H | apply descends_refl]. }
  db_cases P e r d; (split; [lia|]); try exact Hsame.
  - intros p' H. apply in_app_or in H. destruct H as [H | [<- | []]].
    + left. exists p'. split; [exact H | apply descends_refl].
    + right. reflexivity.
  - intros p' H. left. apply in_map_iff in H.
    destruct H as (q & <- & Hq). exists q. split; [exact Hq|].
    destruct (Db.post_has_id n q); [apply descends_update | apply descends_refl].
  - intros p' H. apply filter_In in H. left. exists p'.
    split; [tauto | apply descends_refl].
Qed.

Lemma descends_trans (p q r : Post.t) : descends p q -> descends q r -> descends p r.
Proof. unfold descends. intros (? & ? & ?) (? & ? & ?). repeat split; congruence. Qed.

Lemma dev_run_lineage (P : Platform) rs s :
  Dev.nextPostId s <= Dev.nextPostId (fst (Dev.run P rs s)) /\
  forall p', In p' (Dev.posts (fst (Dev.run P rs s))) ->
    (exists p, In p (Dev.posts s) /\ descends p p') \/ Dev.nextPostId s <= Post.id p'.
Proof.
  revert s. induction rs as [|[e r] rs IH]; intros s.
  - simpl. split; [lia|]. intros p' H. left. exists p'.
    split; [exact H | apply descends_refl].
  - rewrite dev_run_cons. simpl.
    destruct (dev_handle_lineage P e r s) as (Hn & Hstep).
    destruct (IH (fst (Dev.handle P e r s))) as (Hn' & Hrest).
    split; [lia|]. intros p' H.
    destruct (Hrest p' H) as [(q & Hq & Hd) | Hnew]; [|right; lia].
    destruct (Hstep q Hq) as [(p & Hp & Hd') | Hid].
    + left. exists p. split; [exact Hp | eapply descends_trans; eassumption].
    + right. destruct Hd as (Hd & _). lia.
Qed.

Lemma db_run_lineage (P : Platform) rs d :
  Db.posts_id_seq d <= Db.posts_id_seq (fst (Db.run P rs d)) /\
  forall p', In p' (Db.posts (fst (Db.run P rs d))) ->
    (exists p, In p (Db.posts d) /\ descends p p') \/ Db.posts_id_seq d <= Post.id p'.
Proof.
  revert d. induction rs as [|[e r] rs IH]; intros d.
  - simpl. split; [lia|]. intros p' H. left. exists p'.
    split; [exact H | apply descends_refl].
  - rewrite db_run_cons. simpl.
    destruct (db_handle_lineage P e r d) as (Hn & Hstep).
    destruct (IH (fst (Db.handle P e r d))) as (Hn' & Hrest).
    split; [lia|]. intros p' H.
    destruct (Hrest p' H) as [(q & Hq & Hd) | Hnew]; [|right; lia].
    destruct (Hstep q Hq) as [(p & Hp & Hd') | Hid].
    + left. exists p. split; [exact Hp | eapply descends_trans; eassumption].
    + right. destruct Hd as (Hd & _). lia.
Qed.

(** X5: whatever requests are served, a post keeps its id, its owner and its
    creation time for as long as it is stored, the post counter never goes
    back, and every post stored later is either one of the posts stored now
    or has an id at or above the present counter: an id that is free below
    the counter, such as the id of a deleted post, is never given out
    again.  This holds on both servers. *)
Theorem posts_keep_their_identity
  (P : Platform) (rs : list (Env * Request)) (s : Dev.DataStore) (d : Db.Database) :
  let s' := fst (Dev.run P rs s) in
  let d' := fst (Db.run P rs d) in
  Dev.nextPostId s <= Dev.nextPostId s' /\
  (forall p', In p' (Dev.posts s') ->
     (exists p, In p (Dev.posts s) /\ descends p p') \/ Dev.nextPostId s <= Post.id p') /\
  (forall n, n < Dev.nextPostId s -> (forall p, In p (Dev.posts s) -> Post.id p <> n) ->
     forall p', In p' (Dev.posts s') -> Post.id p' <> n) /\
  Db.posts_id_seq d <= Db.posts_id_seq d' /\
  (forall p', In p' (Db.posts d') ->
     (exists p, In p (Db.posts d) /\ descends p p') \/ Db.posts_id_seq d <= Post.id p') /\
  (forall n, n < Db.posts_id_seq d -> (forall p, In p (Db.posts d) -> Post.id p <> n) ->
     forall p', In p' (Db.posts d') -> Post.id p' <> n).
Proof.
  intros s' d'.
  destruct (dev_run_lineage P rs s) as (Hn & Hl).
  destruct (db_run_lineage P rs d) as (Hn' & Hl').
  split; [exact Hn|]. split; [exact Hl|]. split.
  { intros n Hlt Hfree p' Hp' Hid. destruct (Hl p' Hp') as [(p & Hp & Hd & _) | Hnew].
    - apply (Hfree p Hp). congruence.
    - lia. }
  split; [exact Hn'|]. split; [exact Hl'|].
  intros n Hlt Hfree p' Hp' Hid. destruct (Hl' p' Hp') as [(p & Hp & Hd & _) | Hnew].
  - apply (Hfree p Hp). congruence.
  - lia.
Qed.

Lemma posts_keep_their_identity_witness :
  1 < Dev.nextPostId (fst (Dev.run Demo.platform Scenario.session Dev.dataStore)) /\
  (forall p, In p (Dev.posts (fst (Dev.run Demo.platform Scenario.session Dev.dataStore))) ->
     Post.id p <> 1) /\
  forall p',
    In p' (Dev.posts (fst (Dev.run Demo.platform
             [(Demo.at_ 9900, CreatePost Scenario.auth_bob (mkCreateBody "Again" "post"))]
             (fst (Dev.run Demo.platform Scenario.session Dev.dataStore))))) ->
    Post.id p' <> 1.
Proof.
  assert (H1 : 1 < Dev.nextPostId (fst (Dev.run Demo.platform Scenario.session Dev.dataStore)))
    by (vm_compute; reflexivity).
  assert (H2 : forall p,
            In p (Dev.posts (fst (Dev.run Demo.platform Scenario.session Dev.dataStore))) ->
            Post.id p <> 1) by (vm_compute; intros p []).
  split; [exact H1|]. split; [exact H2|].
  exact (proj1 (proj2 (proj2 (posts_keep_their_identity Demo.platform
           [(Demo.at_ 9900, CreatePost Scenario.auth_bob (mkCreateBody "Again" "post"))]
           (fst (Dev.run Demo.platform Scenario.session Dev.dataStore)) Db.empty)))
         1 H1 H2).
Defined.

Lemma dev_register_result (P : Platform) e b s :
  fst (Dev.register P e b s) = s \/
  exists password,
    register_errors P b = [] /\ rb_password b = PText password /\
    find (Dev.by_email (normalizeEmail P (rb_email b))) (Dev.users s) = None /\
    fst (Dev.register P e b s) =
      Dev.mk (Dev.users s ++ [User.mk (Dev.nextUserId s) (normalizeEmail P (rb_email b))
                                (bcrypt_hash P password (salt e))
                                (Js.trim (rb_name b)) (now e)])
             (Dev.posts s) (Dev.nextUserId s + 1) (Dev.nextPostId s).
Proof.
  rewrite dev_register_flat. destruct (register_errors P b); [|auto].
  destruct (find _ _); simpl; [auto|].
  destruct (rb_password b) as [password|v]; simpl; [|auto].
  right. exists password. auto.
Qed.

(** Only a registration changes the users. *)
Lemma dev_handle_users (P : Platform) e r s :
  Dev.users (fst (Dev.handle P e r s)) = Dev.users s /\
  Dev.nextUserId (fst (Dev.handle P e r s)) = Dev.nextUserId s \/
  exists b password,
    r = Register b /\ register_errors P b = [] /\ rb_password b = PText password /\
    find (Dev.by_email (normalizeEmail P (rb_email b))) (Dev.users s) = None /\
    fst (Dev.handle P e r s) =
      Dev.mk (Dev.users s ++ [User.mk (Dev.nextUserId s) (normalizeEmail P (rb_email b))
                                (bcrypt_hash P password (salt e))
                                (Js.trim (rb_name b)) (now e)])
             (Dev.posts s) (Dev.nextUserId s + 1) (Dev.nextPostId s).
Proof.
  destruct r; simpl; try (left; split; reflexivity).
  - destruct (dev_register_result P e b s) as [-> | (password & Hv & Hp & F & Hr)]; [auto|].
    right. exists b, password. auto.
  - left. unfold Dev.login. split; split_state; reflexivity.
  - left. unfold Dev.profile. split; split_state; reflexivity.
  - left. unfold Dev.createPost. split; split_state; reflexivity.
  - left. unfold Dev.updatePost. split; split_state; reflexivity.
  - left. unfold Dev.deletePost. split; split_state; reflexivity.
Qed.

Lemma dev_ids_consecutive_step (P : Platform) e r s :
  map User.id (Dev.users s) = map Z.of_nat (seq 1 (List.length (Dev.users s))) /\
  Dev.nextUserId s = Z.of_nat (List.length (Dev.users s)) + 1 ->
  let s' := fst (Dev.handle P e r s) in
  map User.id (Dev.users s') = map Z.of_nat (seq 1 (List.length (Dev.users s'))) /\
  Dev.nextUserId s' = Z.of_nat (List.length (Dev.users s')) + 1.
Proof.
  intros (Hm & Hn) s'. subst s'.
  destruct (dev_handle_users P e r s) as [(-> & ->) | (b & password & _ & _ & _ & _ & ->)];
    [auto|].
  simpl. rewrite length_app, Nat.add_comm. simpl List.length.
  rewrite seq_S, !map_app, <- Hm, Hn. simpl. split; [f_equal; f_equal; lia | lia].
Qed.

(** X6: on every run the ids of the stored users are pairwise distinct, and
    so are the ids of the stored posts, and all of them lie below the
    counter that gives out the next one, on both servers.  On the in-memory
    server the users carry the ids 1, 2, 3, ... in the order of their
    registration. *)
Theorem ids_are_unique_and_ordered
  (P : Platform) (rs : list (Env * Request)) :
  let s := fst (Dev.run P rs Dev.dataStore) in
  let d := fst (Db.run P rs Db.empty) in
  NoDup (map User.id (Dev.users s)) /\ NoDup (map Post.id (Dev.posts s)) /\
  Forall (fun u => User.id u < Dev.nextUserId s) (Dev.users s) /\
  Forall (fun p => Post.id p < Dev.nextPostId s) (Dev.posts s) /\
  map User.id (Dev.users s) = map Z.of_nat (seq 1 (List.length (Dev.users s))) /\
  NoDup (map User.id (Db.users d)) /\ NoDup (map Post.id (Db.posts d)) /\
  Forall (fun u => User.id u < Db.users_id_seq d) (Db.users d) /\
  Forall (fun p => Post.id p < Db.posts_id_seq d) (Db.posts d).
Proof.
  intros s d.
  destruct (dev_run_ok P rs) as ((_ & H1 & H2) & H3 & H4).
  destruct (db_run_ok P rs) as ((_ & H5 & H6) & (H7 & H8) & _).
  repeat (split; [assumption|]).
  split; [|repeat split; assumption].
  apply (dev_run_preserves P
           (fun s => map User.id (Dev.users s) = map Z.of_nat (seq 1 (List.length (Dev.users s))) /\
                     Dev.nextUserId s = Z.of_nat (List.length (Dev.users s)) + 1)).
  - intros e r s0 H. apply dev_ids_consecutive_step. exact H.
  - split; reflexivity.
Qed.

(** X7: on the database server every stored post has exactly one author
    row, whatever requests were served: the foreign key is checked when the
    post is inserted and users are never removed. *)
Theorem db_posts_have_one_author
  (P : Platform) (rs : list (Env * Request)) (p : Post.t) :
  In p (Db.posts (fst (Db.run P rs Db.empty))) ->
  exists u, filter (Dev.by_id (Post.user_id p)) (Db.users (fst (Db.run P rs Db.empty))) = [u] /\
            User.id u = Post.user_id p.
Proof.
  intros Hin. destruct (db_run_ok P rs) as ((_ & Hid & _) & _ & Ha).
  unfold authors_ok in Ha. rewrite Forall_forall in Ha. specialize (Ha p Hin).
  rewrite existsb_find in Ha.
  destruct (find (Dev.by_id (Post.user_id p)) (Db.users (fst (Db.run P rs Db.empty))))
    as [u|] eqn:F; [|discriminate].
  exists u. split; [apply filter_by_id_unique; assumption|].
  apply find_some in F. destruct F as [_ F]. apply Z.eqb_eq. exact F.
Qed.

Lemma db_posts_have_one_author_witness :
  In (Post.mk 1 "Hi" "World" 1 3000 3000)
     (Db.posts (fst (Db.run Demo.platform Scenario.requests Db.empty))) /\
  exists u, filter (Dev.by_id 1)
              (Db.users (fst (Db.run Demo.platform Scenario.requests Db.empty))) = [u] /\
            User.id u = 1.
Proof.
  assert (H : In (Post.mk 1 "Hi" "World" 1 3000 3000)
                 (Db.posts (fst (Db.run Demo.platform Scenario.requests Db.empty))))
    by (left; reflexivity).
  split; [exact H|].
  exact (db_posts_have_one_author Demo.platform Scenario.requests _ H).
Defined.

Lemma tidy_pick (field : option string) (old : string) :
  trimmed old -> trimmed (pick field old).
Proof.
  intros Ho. unfold pick. destruct (supplied field) as [v|] eqn:E; [|exact Ho].
  apply supplied_spec in E. destruct E as (raw & _ & <- & _). apply trim_idempotent.
Qed.

Lemma tidy_apply_update (b : UpdateBody) (t : Z) (p : Post.t) :
  tidy_post p -> tidy_post (apply_update b t p).
Proof.
  intros (Ht & Hc). split; simpl; apply tidy_pick; assumption.
Qed.

Lemma dev_handle_tidy_posts (P : Platform) e r s :
  Forall tidy_post (Dev.posts s) -> Forall tidy_post (Dev.posts (fst (Dev.handle P e r s))).
Proof.
  intros H. destruct r; simpl; try assumption.
  - rewrite dev_register_flat. split_state.
  - unfold Dev.login. split_state.
  - unfold Dev.profile. split_state.
  - unfold Dev.createPost. split_state. apply Forall_snoc; [assumption|].
    split; apply trim_idempotent.
  - unfold Dev.updatePost. split_state. apply Forall_set_nth; [assumption|].
    apply tidy_apply_update. rewrite Forall_forall in H. apply H.
    eapply nth_error_In; eassumption.
  - unfold Dev.deletePost. split_state. apply Forall_splice1. assumption.
Qed.

Lemma db_handle_tidy_posts (P : Platform) e r d :
  Forall tidy_post (Db.posts d) -> Forall tidy_post (Db.posts (fst (Db.handle P e r d))).
Proof.
  intros H. db_cases P e r d; try assumption.
  - apply Forall_snoc; [assumption|]. split; apply trim_idempotent.
  - apply Forall_map. eapply Forall_impl; [|exact H]. simpl. intros q Hq.
    destruct (Db.post_has_id n q); [apply tidy_apply_update|]; assumption.
  - apply Forall_filter_keep. assumption.
Qed.

Lemma new_user_hashed_tidy (P : Platform) (e : Env) (b : RegisterBody) (password : string)
  (id : Z) :
  register_errors P b = [] -> rb_password b = PText password ->
  let u := User.mk id (normalizeEmail P (rb_email b))
             (bcrypt_hash P password (salt e)) (Js.trim (rb_name b)) (now e) in
  hashed P u /\ tidy_user u.
Proof.
  intros Hv Hp u. apply register_errors_nil in Hv. destruct Hv as (_ & Hlen & _).
  rewrite Hp in Hlen. split.
  - exists password, (salt e). auto.
  - apply trim_idempotent.
Qed.

Lemma dev_handle_users_kept (P : Platform) e r s :
  Forall (fun u => hashed P u /\ tidy_user u) (Dev.users s) ->
  Forall (fun u => hashed P u /\ tidy_user u) (Dev.users (fst (Dev.handle P e r s))).
Proof.
  intros H.
  destruct (dev_handle_users P e r s) as [(-> & _) | (b & password & _ & Hv & Hp & _ & ->)];
    [assumption|].
  simpl. apply Forall_snoc; [assumption|]. apply new_user_hashed_tidy; assumption.
Qed.

Lemma db_handle_users_kept (P : Platform) e r d :
  Forall (fun u => hashed P u /\ tidy_user u) (Db.users d) ->
  Forall (fun u => hashed P u /\ tidy_user u) (Db.users (fst (Db.handle P e r d))).
Proof.
  intros H. db_cases P e r d; try assumption.
  apply Forall_snoc; [assumption|]. apply new_user_hashed_tidy; assumption.
Qed.

(** X8: a password is never stored as it was sent: on every run of either
    server, the [password] of every stored user is a result of
    [bcrypt.hash] for a password of six characters or more. *)
Theorem stored_passwords_are_hashes
  (P : Platform) (rs : list (Env * Request)) :
  Forall (hashed P) (Dev.users (fst (Dev.run P rs Dev.dataStore))) /\
  Forall (hashed P) (Db.users (fst (Db.run P rs Db.empty))).
Proof.
  split.
  - eapply Forall_impl; [|apply (dev_run_preserves P
        (fun s => Forall (fun u => hashed P u /\ tidy_user u) (Dev.users s)))].
    + intros u H. apply H.
    + intros e r s H. apply dev_handle_users_kept. exact H.
    + constructor.
  - eapply Forall_impl; [|apply (db_run_preserves P
        (fun d => Forall (fun u => hashed P u /\ tidy_user u) (Db.users d)))].
    + intros u H. apply H.
    + intros e r d H. apply db_handle_users_kept. exact H.
    + constructor.
Qed.

(** X9: everything a run stores has passed [trim]: the name of every stored
    user and the title and content of every stored post are text that
    [trim] leaves unchanged, so text that neither begins nor ends with a
    white-space character of JavaScript, on both servers and through every
    update. *)
Theorem stored_text_is_trimmed
  (P : Platform) (rs : list (Env * Request)) :
  let s := fst (Dev.run P rs Dev.dataStore) in
  let d := fst (Db.run P rs Db.empty) in
  Forall tidy_user (Dev.users s) /\ Forall tidy_post (Dev.posts s) /\
  Forall tidy_user (Db.users d) /\ Forall tidy_post (Db.posts d) /\
  (forall x, trimmed x -> ~ starts_with_space x /\ ~ ends_with_space x).
Proof.
  intros s d. split; [|split; [|split; [|split]]].
  - eapply Forall_impl; [|apply (dev_run_preserves P
        (fun s => Forall (fun u => hashed P u /\ tidy_user u) (Dev.users s)))].
    + intros u H. apply H.
    + intros e r s0 H. apply dev_handle_users_kept. exact H.
    + constructor.
  - apply (dev_run_preserves P (fun s => Forall tidy_post (Dev.posts s))).
    + intros e r s0 H. apply dev_handle_tidy_posts. exact H.
    + constructor.
  - eapply Forall_impl; [|apply (db_run_preserves P
        (fun d => Forall (fun u => hashed P u /\ tidy_user u) (Db.users d)))].
    + intros u H. apply H.
    + intros e r d0 H. apply db_handle_users_kept. exact H.
    + constructor.
  - apply (db_run_preserves P (fun d => Forall tidy_post (Db.posts d))).
    + intros e r d0 H. apply db_handle_tidy_posts. exact H.
    + constructor.
  - apply trimmed_no_space.
Qed.

(** ** Time stamps *)

Lemma timely_later (t t' : Z) (p : Post.t) : t <= t' -> timely t p -> timely t' p.
Proof. unfold timely. intros; lia. Qed.

Lemma timely_update (b : UpdateBody) (t t' : Z) (p : Post.t) :
  t <= t' -> timely t p -> timely t' (apply_update b t' p).
Proof. unfold timely. simpl. intros; lia. Qed.

Lemma dev_handle_timely (P : Platform) e r s t :
  t <= now e -> Forall (timely t) (Dev.posts s) ->
  Forall (timely (now e)) (Dev.posts (fst (Dev.handle P e r s))).
Proof.
  intros Ht H.
  assert (H' : Forall (timely (now e)) (Dev.posts s)).
  { eapply Forall_impl; [|exact H]. intros p. apply timely_later. exact Ht. }
  clear H. destruct r; simpl; try assumption.
  - rewrite dev_register_flat. split_state.
  - unfold Dev.login. split_state.
  - unfold Dev.profile. split_state.
  - unfold Dev.createPost. split_state. apply Forall_snoc; [assumption|].
    unfold timely. simpl. lia.
  - unfold Dev.updatePost. split_state. apply Forall_set_nth; [assumption|].
    apply (timely_update b (now e)); [lia|]. rewrite Forall_forall in H'. apply H'.
    eapply nth_error_In; eassumption.
  - unfold Dev.deletePost. split_state. apply Forall_splice1. assumption.
Qed.

Lemma db_handle_timely (P : Platform) e r d t :
  t <= now e -> Forall (timely t) (Db.posts d) ->
  Forall (timely (now e)) (Db.posts (fst (Db.handle P e r d))).
Proof.
  intros Ht H.
  assert (H' : Forall (timely (now e)) (Db.posts d)).
  { eapply Forall_impl; [|exact H]. intros p. apply timely_later. exact Ht. }
  clear H. db_cases P e r d; try assumption.
  - apply Forall_snoc; [assumption|]. unfold timely. simpl. lia.
  - apply Forall_map. eapply Forall_impl; [|exact H']. simpl. intros q Hq.
    destruct (Db.post_has_id n q); [|assumption].
    apply (timely_update b (now e)); [lia | assumption].
  - apply Forall_filter_keep. assumption.
Qed.

Lemma dev_run_timely (P : Platform) rs s t :
  clock_ok t rs -> Forall (timely t) (Dev.posts s) ->
  Forall (timely (last_clock t rs)) (Dev.posts (fst (Dev.run P rs s))).
Proof.
  revert s t. induction rs as [|[e r] rs IH]; intros s t Hc H; [exact H|].
  destruct Hc as [Ht Hc]. rewrite dev_run_cons. simpl.
  apply IH; [exact Hc|]. eapply dev_handle_timely; eassumption.
Qed.

Lemma db_run_timely (P : Platform) rs d t :
  clock_ok t rs -> Forall (timely t) (Db.posts d) ->
  Forall (timely (last_clock t rs)) (Db.posts (fst (Db.run P rs d))).
Proof.
  revert d t. induction rs as [|[e r] rs IH]; intros d t Hc H; [exact H|].
  destruct Hc as [Ht Hc]. rewrite db_run_cons. simpl.
  apply IH; [exact Hc|]. eapply db_handle_timely; eassumption.
Qed.

(** X10: when the clock does not run backwards over a run, every stored post
    has [created_at <= updated_at], and no [updated_at] lies after the
    clock reading of the last request, on both servers. *)
Theorem timestamps_are_ordered
  (P : Platform) (t0 : Z) (rs : list (Env * Request)) :
  clock_ok t0 rs ->
  Forall (timely (last_clock t0 rs)) (Dev.posts (fst (Dev.run P rs Dev.dataStore))) /\
  Forall (timely (last_clock t0 rs)) (Db.posts (fst (Db.run P rs Db.empty))).
Proof.
  intros Hc. split.
  - apply dev_run_timely; [exact Hc | constructor].
  - apply db_run_timely; [exact Hc | constructor].
Qed.

Lemma timestamps_are_ordered_witness :
  clock_ok 0 (firstn 5 Scenario.session) /\
  Forall (timely 5000)
         (Dev.posts (fst (Dev.run Demo.platform (firstn 5 Scenario.session) Dev.dataStore))).
Proof.
  assert (H : clock_ok 0 (firstn 5 Scenario.session)).
  { simpl. repeat split; lia. }
  split; [exact H|].
  exact (proj1 (timestamps_are_ordered Demo.platform 0 (firstn 5 Scenario.session) H)).
Defined.

(** ** Register, then log in or read the profile *)

Lemma find_app_l {A} (f : A -> bool) (l1 l2 : list A) (x : A) :
  find f l1 = Some x -> find f (l1 ++ l2) = Some x.
Proof.
  induction l1 as [|y r IH]; simpl; [discriminate|]. destruct (f y); auto.
Qed.

Lemma find_app_r {A} (f : A -> bool) (l1 l2 : list A) :
  find f l1 = None -> find f (l1 ++ l2) = find f l2.
Proof.
  induction l1 as [|y r IH]; simpl; [reflexivity|]. destruct (f y); [discriminate | auto].
Qed.

Lemma dev_run_users_prefix (P : Platform) rs s :
  exists more, Dev.users (fst (Dev.run P rs s)) = (Dev.users s ++ more)%list.
Proof.
  revert s. induction rs as [|[e r] rs IH]; intros s.
  - exists []. simpl. rewrite app_nil_r. reflexivity.
  - rewrite dev_run_cons. simpl. destruct (IH (fst (Dev.handle P e r s))) as (more & ->).
    destruct (dev_handle_users P e r s)
      as [(-> & _) | (b & password & _ & _ & _ & _ & ->)].
    + exists more. reflexivity.
    + eexists. simpl. rewrite <- app_assoc. reflexivity.
Qed.

Lemma db_run_users_prefix (P : Platform) rs d :
  exists more, Db.users (fst (Db.run P rs d)) = (Db.users d ++ more)%list.
Proof.
  revert d. induction rs as [|[e r] rs IH]; intros d.
  - exists []. simpl. rewrite app_nil_r. reflexivity.
  - rewrite db_run_cons. simpl. destruct (IH (fst (Db.handle P e r d))) as (more & ->).
    destruct (db_users_step P e r d) as [-> | (em & pw & nm & _ & _ & _ & _ & _ & ->)].
    + exists more. reflexivity.
    + eexists. rewrite <- app_assoc. reflexivity.
Qed.

Lemma dev_register_201 (P : Platform) e b s :
  status (snd (Dev.register P e b s)) = 201 ->
  exists password,
  rb_password b = PText password /\
  register_errors P b = [] /\
  find (Dev.by_email (normalizeEmail P (rb_email b))) (Dev.users s) = None /\
  Dev.register P e b s =
    (Dev.mk (Dev.users s ++ [User.mk (Dev.nextUserId s) (normalizeEmail P (rb_email b))
                               (bcrypt_hash P password (salt e))
                               (Js.trim (rb_name b)) (now e)])
            (Dev.posts s) (Dev.nextUserId s + 1) (Dev.nextPostId s),
     mkResponse 201
       (JAuth "User registered successfully"
              (mkUserView (Dev.nextUserId s) (normalizeEmail P (rb_email b))
                          (Js.trim (rb_name b)) (Some (now e)))
              (jwt_sign P (Dev.nextUserId s) (normalizeEmail P (rb_email b))
                        (JWT_SECRET P) (now e)))).
Proof.
  rewrite dev_register_flat. destruct (register_errors P b); [|discriminate].
  destruct (find _ _); [discriminate|].
  destruct (rb_password b) as [password|v]; [|discriminate].
  intros _. exists password. auto.
Qed.

Lemma db_register_201 (P : Platform) e b d :
  status (snd (Db.register P e b d)) = 201 ->
  exists password,
  rb_password b = PText password /\
  register_errors P b = [] /\
  find (Dev.by_email (normalizeEmail P (rb_email b))) (Db.users d) = None /\
  Db.text (normalizeEmail P (rb_email b)) = true /\
  Db.int4 (Db.users_id_seq d) = true /\
  Db.register P e b d =
    (Db.mk (Db.users d ++ [User.mk (Db.users_id_seq d) (normalizeEmail P (rb_email b))
                             (bcrypt_hash P password (salt e))
                             (Js.trim (rb_name b)) (now e)])
           (Db.posts d) (Db.users_id_seq d + 1) (Db.posts_id_seq d),
     mkResponse 201
       (JAuth "User registered successfully"
              (mkUserView (Db.users_id_seq d) (normalizeEmail P (rb_email b))
                          (Js.trim (rb_name b)) (Some (now e)))
              (jwt_sign P (Db.users_id_seq d) (normalizeEmail P (rb_email b))
                        (JWT_SECRET P) (now e)))).
Proof.
  unfold Db.register. destruct (register_errors P b); [|discriminate].
  destruct (Db.text (normalizeEmail P (rb_email b))) eqn:T; [|discriminate]. simpl.
  destruct (filter _ _) eqn:F; [|discriminate].
  apply filter_nil_find in F.
  destruct (rb_password b) as [password|v]; [|discriminate].
  destruct (insert_user_cases (normalizeEmail P (rb_email b))
              (bcrypt_hash P password (salt e)) (Js.trim (rb_name b)) (now e) d)
    as [-> | [(-> & _) | (-> & _ & _ & _ & I & _)]]; try discriminate.
  intros _. exists password. auto 10.
Qed.




Lemma find_by_id_fresh (us : list User.t) (n : Z) :
  Forall (fun u => User.id u < n) us -> find (Dev.by_id n) us = None.
Proof.
  intros H. apply find_none_iff. intros u Hu. rewrite Forall_forall in H.
  specialize (H u Hu). unfold Dev.by_id. apply Z.eqb_neq. lia.
Qed.

Lemma db_profile_find (P : Platform) e auth d :
  Db.profile P e auth d =
    match authenticateToken P (now e) auth with
    | inl r => (d, r)
    | inr user =>
        if Db.int4 (Jwt.id user) then
          match find (Dev.by_id (Jwt.id user)) (Db.users d) with
          | None => (d, mkResponse 404 (JError "User not found"))
          | Some u => (d, mkResponse 200 (JUser (user_view u)))
          end
        else (d, internal_error)
    end.
Proof.
  unfold Db.profile. destruct (authenticateToken P (now e) auth) as [r|user]; [reflexivity|].
  destruct (Db.int4 (Jwt.id user)); [|reflexivity]. simpl.
  rewrite find_hd_filter. destruct (filter _ _); reflexivity.
Qed.

(** X12: a registered user can read its profile.  On every store a run has
    produced, when a registration is answered with 201 and its token can
    travel in a header, the profile route presented with [Bearer <token>]
    before the token expires answers, after any further requests, with 200
    and the very [user] object of the registration, on both servers. *)
Theorem register_then_profile
  (P : Platform) (rs0 rs : list (Env * Request)) (e e' : Env) (b : RegisterBody) :
  let s := fst (Dev.run P rs0 Dev.dataStore) in
  let d := fst (Db.run P rs0 Db.empty) in
  now e' / 1000 < now e / 1000 + 86400 ->
  (forall uv tok,
     status (snd (Dev.register P e b s)) = 201 ->
     user_of (snd (Dev.register P e b s)) = Some uv ->
     token_of (snd (Dev.register P e b s)) = Some tok ->
     travels P (issued P (uv_id uv) (uv_email uv) (now e)) ->
     snd (Dev.profile P e' (Some ("Bearer " ++ tok))
            (fst (Dev.run P rs (fst (Dev.register P e b s)))))
       = mkResponse 200 (JUser uv)) /\
  (forall uv tok,
     status (snd (Db.register P e b d)) = 201 ->
     user_of (snd (Db.register P e b d)) = Some uv ->
     token_of (snd (Db.register P e b d)) = Some tok ->
     travels P (issued P (uv_id uv) (uv_email uv) (now e)) ->
     snd (Db.profile P e' (Some ("Bearer " ++ tok))
            (fst (Db.run P rs (fst (Db.register P e b d)))))
       = mkResponse 200 (JUser uv)).
Proof.
  intros s d Ht. split.
  - intros uv tok H Hu Htok Htr.
    destruct (dev_run_ok P rs0) as ((_ & _ & Hlt) & _). fold s in Hlt.
    destruct (dev_register_201 P e b s H) as (pw & _ & _ & _ & Hr).
    rewrite Hr in Hu, Htok |- *. simpl in Hu, Htok. injection Hu as <-. injection Htok as <-.
    cbn [fst uv_id uv_email] in *.
    match goal with |- context [Dev.run P rs ?x] => set (s0 := x) end.
    destruct (dev_run_users_prefix P rs s0) as (more & Hmore).
    unfold Dev.profile. rewrite jwt_sign_issued.
    rewrite (issued_token_accepted P _ _ (now e) (now e') Htr Ht).
    rewrite Hmore. subst s0. cbn [Dev.users Jwt.id Jwt.claims issued].
    rewrite <- app_assoc, (find_app_r _ _ _ (find_by_id_fresh _ _ Hlt)). cbn [app find].
    unfold Dev.by_id at 1. cbn [User.id]. rewrite Z.eqb_refl. reflexivity.
  - intros uv tok H Hu Htok Htr.
    destruct (db_run_ok P rs0) as ((_ & _ & Hlt) & _). fold d in Hlt.
    destruct (db_register_201 P e b d H) as (pw & _ & _ & _ & _ & Hint & Hr).
    rewrite Hr in Hu, Htok |- *. simpl in Hu, Htok. injection Hu as <-. injection Htok as <-.
    cbn [fst uv_id uv_email] in *.
    match goal with |- context [Db.run P rs ?x] => set (d0 := x) end.
    destruct (db_run_users_prefix P rs d0) as (more & Hmore).
    rewrite db_profile_find, jwt_sign_issued.
    rewrite (issued_token_accepted P _ _ (now e) (now e') Htr Ht).
    rewrite Hmore. subst d0. cbn [Db.users Jwt.id Jwt.claims issued].
    rewrite Hint.
    rewrite <- app_assoc, (find_app_r _ _ _ (find_by_id_fresh _ _ Hlt)). cbn [app find].
    unfold Dev.by_id at 1. cbn [User.id]. rewrite Z.eqb_refl. reflexivity.
Qed.

Lemma register_then_profile_witness :
  now (Demo.at_ 9500) / 1000 < now (Demo.at_ 2000) / 1000 + 86400 /\
  snd (Dev.profile Demo.platform (Demo.at_ 9500) Scenario.auth_bob Scenario.store)
    = mkResponse 200 (JUser (mkUserView 2 "bob@example.com" "Bob" (Some 2000))).
Proof.
  assert (Ht : now (Demo.at_ 9500) / 1000 < now (Demo.at_ 2000) / 1000 + 86400)
    by (vm_compute; reflexivity).
  split; [exact Ht|].
  refine (proj1 (register_then_profile Demo.platform [(Demo.at_ 1000, Register Scenario.alice)]
                   [(Demo.at_ 3000, CreatePost Scenario.auth_alice (mkCreateBody "Hi" "World"))]
                   (Demo.at_ 2000) (Demo.at_ 9500) Scenario.bob Ht)
                (mkUserView 2 "bob@example.com" "Bob" (Some 2000)) Scenario.token_bob
                _ _ _ _).
  - reflexivity.
  - reflexivity.
  - reflexivity.
  - repeat split; vm_compute; (reflexivity || discriminate).
Defined.

(** ** Deleting and listing *)







Lemma in_sorted_listing (us : list User.t) (ps : list Post.t) (p : Post.t) :
  In p ps -> In (Dev.with_author us p) (Js.sort Dev.newest_first (map (Dev.with_author us) ps)).
Proof.
  intros H. apply (Permutation_in _ (Permutation_sym (sort_perm _ _))).
  apply in_map. exact H.
Qed.

(** X14: a post that was just created is in the next listing.  On the
    in-memory server it comes with the name and email of the first user
    whose id is the actor's, and with the placeholder ["Unknown"] when the
    token names an id that no user has, which the server does not check.
    On the database server, on every store a run has produced, a create
    answered with 201 is listed, in whatever order the rows are found, with
    the data of a user whose id is the actor's. *)
Theorem created_post_is_listed
  (P : Platform) (rs : list (Env * Request)) (e e' : Env) (auth : option string)
  (b : CreateBody) (user : Jwt.Claims) (s : Dev.DataStore) :
  authenticateToken P (now e) auth = inr user ->
  cb_title b <> "" -> cb_content b <> "" ->
  let d := fst (Db.run P rs Db.empty) in
  let newPost id :=
    Post.mk id (Js.trim (cb_title b)) (Js.trim (cb_content b)) (Jwt.id user)
            (now e) (now e) in
  let listing := Dev.postsWithAuthors (fst (Dev.createPost P e auth b s)) in
  (forall u, find (Dev.by_id (Jwt.id user)) (Dev.users s) = Some u ->
     In (mkPostWithAuthor (newPost (Dev.nextPostId s)) (User.name u) (User.email u)) listing) /\
  ((forall u, In u (Dev.users s) -> User.id u <> Jwt.id user) ->
     status (snd (Dev.createPost P e auth b s)) = 201 /\
     In (mkPostWithAuthor (newPost (Dev.nextPostId s)) "Unknown" "unknown@example.com")
        listing) /\
  (status (snd (Db.createPost P e auth b d)) = 201 ->
     exists u, In u (Db.users d) /\ User.id u = Jwt.id user /\
       In (mkPostWithAuthor (newPost (Db.posts_id_seq d)) (User.name u) (User.email u))
          (Db.select_posts e' (fst (Db.createPost P e auth b d)))).
Proof.
  intros Ha Ht Hc d newPost listing.
  destruct (create_errors_nil b) as [_ Hv]. specialize (Hv (conj Ht Hc)).
  assert (Hdev : Dev.createPost P e auth b s =
            (Dev.mk (Dev.users s) (Dev.posts s ++ [newPost (Dev.nextPostId s)])
                    (Dev.nextUserId s) (Dev.nextPostId s + 1),
             mkResponse 201 (JPost "Post created successfully" (newPost (Dev.nextPostId s))))).
  { unfold Dev.createPost. rewrite Ha, Hv. reflexivity. }
  assert (Hin : In (Dev.with_author (Dev.users s) (newPost (Dev.nextPostId s))) listing).
  { subst listing. rewrite Hdev. unfold Dev.postsWithAuthors. cbn [fst Dev.users Dev.posts].
    apply in_sorted_listing. apply in_or_app. right. left. reflexivity. }
  split; [|split].
  - intros u F. unfold Dev.with_author in Hin. cbn [Post.user_id newPost] in Hin.
    rewrite F in Hin. exact Hin.
  - intros Hnone. split; [rewrite Hdev; reflexivity|].
    unfold Dev.with_author in Hin. cbn [Post.user_id newPost] in Hin.
    assert (F : find (Dev.by_id (Jwt.id user)) (Dev.users s) = None).
    { apply find_none_iff. intros u Hu. unfold Dev.by_id. apply Z.eqb_neq.
      apply Hnone. exact Hu. }
    rewrite F in Hin. exact Hin.
  - intros H.
    pose proof (db_handle_ok P e (CreatePost auth b) d (db_run_ok P rs)) as Hok.
    cbn [Db.handle] in Hok. destruct Hok as ((_ & Hid & _) & _ & Hau).
    unfold Db.select_posts. rewrite (join_is_with_author _ _ Hid Hau).
    unfold Db.createPost in H |- *. rewrite Ha, Hv in H |- *.
    destruct (insert_post_cases (Js.trim (cb_title b)) (Js.trim (cb_content b))
                (Jwt.id user) (now e) d)
      as [E | [(E & _) | (E & _ & _ & _ & _ & C)]]; rewrite E in H |- *;
      try discriminate.
    rewrite existsb_find in C.
    destruct (find (Dev.by_id (Jwt.id user)) (Db.users d)) as [u|] eqn:F; [|discriminate].
    pose proof (find_some _ _ F) as [Hu Hi]. apply Z.eqb_eq in Hi.
    exists u. split; [exact Hu|]. split; [exact Hi|].
    cbn [fst Db.users Db.posts].
    replace (mkPostWithAuthor (newPost (Db.posts_id_seq d)) (User.name u) (User.email u))
      with (Dev.with_author (Db.users d) (newPost (Db.posts_id_seq d))).
    + apply (Permutation_in _ (Permutation_sym (sort_perm _ _))).
      apply (Permutation_in _ (Permutation_sym (sort_perm _ _))).
      apply in_map. apply in_or_app. right. left. reflexivity.
    + unfold Dev.with_author. cbn [Post.user_id newPost]. rewrite F. reflexivity.
Qed.

Lemma created_post_is_listed_witness :
  authenticateToken Demo.platform 4000 Scenario.auth_bob = inr Scenario.claims_bob /\
  cb_title (mkCreateBody "Second" "post") <> "" /\
  cb_content (mkCreateBody "Second" "post") <> "" /\
  In (mkPostWithAuthor (Post.mk 2 "Second" "post" 2 4000 4000) "Bob" "bob@example.com")
     (Dev.postsWithAuthors
        (fst (Dev.createPost Demo.platform (Demo.at_ 4000) Scenario.auth_bob
                (mkCreateBody "Second" "post") Scenario.store))).
Proof.
  assert (Ha : authenticateToken Demo.platform (now (Demo.at_ 4000)) Scenario.auth_bob
               = inr Scenario.claims_bob) by (vm_compute; reflexivity).
  assert (H1 : cb_title (mkCreateBody "Second" "post") <> "") by discriminate.
  assert (H2 : cb_content (mkCreateBody "Second" "post") <> "") by discriminate.
  split; [exact Ha|]. split; [exact H1|]. split; [exact H2|].
  exact (proj1 (created_post_is_listed Demo.platform [] (Demo.at_ 4000) (Demo.at_ 5000)
                  Scenario.auth_bob
                  (mkCreateBody "Second" "post") Scenario.claims_bob Scenario.store
                  Ha H1 H2)
           (User.mk 2 "bob@example.com" "secret2$salt" "Bob" 2000) eq_refl).
Defined.

(** ** The id of a path, as [parseInt] reads it *)

Lemma digits_stop (acc : option Z) (rest : string) :
  stops rest = true -> Js.digits 10 acc rest = acc.
Proof.
  destruct rest as [|c r]; simpl; [reflexivity|].
  destruct (Js.digit_val 10 c); [discriminate | reflexivity].
Qed.

Lemma digits_app (acc : option Z) (ds rest : string) :
  all_decimal ds = true -> stops rest = true ->
  Js.digits 10 acc (ds ++ rest) = Js.digits 10 acc ds.
Proof.
  revert acc. induction ds as [|c r IH]; intros acc Hd Hs; simpl.
  - apply digits_stop. exact Hs.
  - simpl in Hd. destruct (Js.digit_val 10 c); [|discriminate]. apply IH; assumption.
Qed.

Lemma digits_some (acc : Z) (ds : string) :
  0 <= acc -> all_decimal ds = true ->
  exists n, Js.digits 10 (Some acc) ds = Some n /\ 0 <= n.
Proof.
  revert acc. induction ds as [|c r IH]; intros acc Ha Hd; simpl.
  - exists acc. auto.
  - simpl in Hd. destruct (Js.digit_val 10 c) as [v|] eqn:E; [|discriminate].
    apply IH; [|exact Hd].
    unfold Js.digit_val in E.
    destruct ((48 <=? Z.of_nat (nat_of_ascii c)) && (Z.of_nat (nat_of_ascii c) <=? 57)) eqn:C1.
    + apply andb_prop in C1. destruct C1 as [C1 C2].
      apply Z.leb_le in C1. apply Z.leb_le in C2.
      destruct (Z.of_nat (nat_of_ascii c) - 48 <? 10); [|discriminate].
      injection E as <-. lia.
    + destruct ((97 <=? Z.of_nat (nat_of_ascii c)) && (Z.of_nat (nat_of_ascii c) <=? 122))
        eqn:C2.
      * apply andb_prop in C2. destruct C2 as [C2 C3]. apply Z.leb_le in C2.
        destruct (Z.of_nat (nat_of_ascii c) - 87 <? 10) eqn:L; [|discriminate].
        apply Z.ltb_lt in L. lia.
      * destruct ((65 <=? Z.of_nat (nat_of_ascii c)) && (Z.of_nat (nat_of_ascii c) <=? 90))
          eqn:C3; [|discriminate].
        apply andb_prop in C3. destruct C3 as [C3 C4]. apply Z.leb_le in C3.
        destruct (Z.of_nat (nat_of_ascii c) - 55 <? 10) eqn:L; [|discriminate].
        apply Z.ltb_lt in L. lia.
Qed.

(** A text that starts with a decimal digit has no white space in front. *)
Lemma ltrim_digit (c : ascii) (r : string) :
  Js.digit_val 10 c <> None -> Js.ltrim (String c r) = String c r.
Proof.
  intros Hd.
  destruct c as [[|] [|] [|] [|] [|] [|] [|] [|]];
    try (exfalso; apply Hd; reflexivity);
    destruct r as [|c2 [|c3 r3]]; reflexivity.
Qed.

(** What [parseInt] does with a text that starts with a decimal digit and
    is no hexadecimal literal. *)
Lemma parseInt_digit_first (c : ascii) (r : string) :
  Js.digit_val 10 c <> None ->
  match r with
  | String c1 _ => c <> "0"%char \/ (c1 <> "x"%char /\ c1 <> "X"%char)
  | EmptyString => True
  end ->
  Js.parseInt (String c r) =
    match Js.digits 10 None (String c r) with Some n => Some (1 * n) | None => None end.
Proof.
  intros Hd Hx. unfold Js.parseInt. rewrite (ltrim_digit c r Hd).
  destruct c as [[|] [|] [|] [|] [|] [|] [|] [|]];
    try (exfalso; apply Hd; reflexivity); try reflexivity.
  destruct r as [|c1 r1]; [reflexivity|].
  destruct Hx as [Hx | [Hx HX]]; [exfalso; apply Hx; reflexivity|].
  destruct c1 as [[|] [|] [|] [|] [|] [|] [|] [|]];
    try (exfalso; apply Hx; reflexivity); try (exfalso; apply HX; reflexivity);
    reflexivity.
Qed.

Lemma digit_not_x (c : ascii) :
  Js.digit_val 10 c <> None -> c <> "x"%char /\ c <> "X"%char.
Proof.
  intros H. split; intros ->; apply H; reflexivity.
Qed.

Lemma parseInt_ignores_the_rest (ds rest : string) :
  decimal ds = true -> stops rest = true ->
  Js.parseInt (ds ++ rest) = Js.parseInt ds /\
  exists n, Js.parseInt ds = Some n /\ 0 <= n.
Proof.
  unfold decimal. intros Hd Hs. apply andb_prop in Hd. destruct Hd as [Hne Hd].
  destruct ds as [|c r]; [discriminate|]. clear Hne.
  assert (Hc : Js.digit_val 10 c <> None).
  { simpl in Hd. destruct (Js.digit_val 10 c); [discriminate | discriminate]. }
  assert (Hr : all_decimal r = true).
  { simpl in Hd. destruct (Js.digit_val 10 c); [exact Hd | discriminate]. }
  assert (H1 : Js.parseInt (String c r) =
               match Js.digits 10 None (String c r) with
               | Some n => Some (1 * n) | None => None end).
  { apply parseInt_digit_first; [exact Hc|].
    destruct r as [|c1 r1]; [exact I|]. right. apply digit_not_x.
    simpl in Hr. destruct (Js.digit_val 10 c1); [discriminate | discriminate]. }
  assert (H2 : Js.parseInt (String c r ++ rest) =
               match Js.digits 10 None (String c r ++ rest) with
               | Some n => Some (1 * n) | None => None end).
  { change (String c r ++ rest) with (String c (r ++ rest)).
    apply parseInt_digit_first; [exact Hc|].
    destruct r as [|c1 r1]; simpl.
    - destruct rest as [|c1 r1]; [exact I|]. right. simpl in Hs.
      destruct (Js.digit_val 10 c1); [discriminate|].
      apply andb_prop in Hs. destruct Hs as [Hx HX].
      apply negb_true_iff in Hx. apply negb_true_iff in HX.
      apply Ascii.eqb_neq in Hx. apply Ascii.eqb_neq in HX. auto.
    - right. apply digit_not_x. simpl in Hr.
      destruct (Js.digit_val 10 c1); [discriminate | discriminate]. }
  rewrite H2, H1, (digits_app None (String c r) rest Hd Hs).
  split; [reflexivity|].
  simpl. destruct (Js.digit_val 10 c) as [v|] eqn:E; [|congruence].
  assert (Hv : 0 <= v).
  { destruct (digits_some 0 (String c "") (Z.le_refl 0)) as (n & Hn & Hn0).
    - simpl. rewrite E. reflexivity.
    - simpl in Hn. rewrite E in Hn. simpl in Hn. injection Hn as <-. lia. }
  destruct (digits_some v r Hv Hr) as (n & -> & Hn).
  exists (1 * n). split; [reflexivity | lia].
Qed.

(** X15: the in-memory server reads the id of a path with [parseInt], which
    stops at the first character that is not a digit.  An update or a delete
    whose path holds decimal digits followed by any text that does not start
    with a digit (nor with the [x] of a hexadecimal literal) does exactly
    what the request with the digits alone does. *)
Theorem dev_path_id_ignores_trailing_text
  (P : Platform) (e : Env) (auth : option string) (ds rest : string) (b : UpdateBody)
  (s : Dev.DataStore) :
  decimal ds = true -> stops rest = true ->
  Dev.updatePost P e auth (ds ++ rest) b s = Dev.updatePost P e auth ds b s /\
  Dev.deletePost P e auth (ds ++ rest) s = Dev.deletePost P e auth ds s /\
  exists n, Js.parseInt (ds ++ rest) = Some n /\ 0 <= n.
Proof.
  intros Hd Hs. destruct (parseInt_ignores_the_rest ds rest Hd Hs) as (Heq & n & Hn & Hpos).
  unfold Dev.updatePost, Dev.deletePost. rewrite Heq.
  split; [reflexivity|]. split; [reflexivity|]. exists n. rewrite <- Hn. auto.
Qed.

Lemma dev_path_id_ignores_trailing_text_witness :
  decimal "1" = true /\ stops "abc" = true /\
  snd (Dev.deletePost Demo.platform (Demo.at_ 7000) Scenario.auth_alice "1abc" Scenario.store)
    = mkResponse 200 (JMessage "Post deleted successfully").
Proof.
  assert (H1 : decimal "1" = true) by reflexivity.
  assert (H2 : stops "abc" = true) by reflexivity.
  split; [exact H1|]. split; [exact H2|].
  change "1abc" with ("1" ++ "abc").
  rewrite (proj1 (proj2 (dev_path_id_ignores_trailing_text Demo.platform (Demo.at_ 7000)
                           Scenario.auth_alice "1" "abc" (mkUpdateBody None None)
                           Scenario.store H1 H2))).
  vm_compute. reflexivity.
Defined.

(** ** The Authorization header *)

Lemma append_cons_truthy (a : string) (c : ascii) (b : string) :
  Js.truthy (a ++ String c b) = true.
Proof. destruct a; reflexivity. Qed.

Lemma header_token_fields (scheme tok : string) :
  occurs " " scheme = false -> occurs " " tok = false ->
  forall rest,
    header_token (Some (scheme ++ String " " (tok ++ String " " rest))) = Some tok /\
    header_token (Some (scheme ++ String " " tok)) = Some tok.
Proof.
  intros Hs Ht rest. unfold header_token. rewrite !append_cons_truthy.
  rewrite !(split_app " " scheme _ Hs), (split_app " " tok rest Ht),
          (split_clean " " tok Ht).
  auto.
Qed.

(** X16: of the Authorization header only the second field counts.  Whatever
    word stands before the first space, and whatever follows a second
    space, the middleware answers as it does for [Bearer <token>]: the
    scheme is not compared with [Bearer] and the rest is dropped. *)
Theorem only_the_second_field_counts
  (P : Platform) (t : Z) (scheme tok rest : string) :
  occurs " " scheme = false -> occurs " " tok = false ->
  authenticateToken P t (Some (scheme ++ String " " (tok ++ String " " rest)))
    = authenticateToken P t (Some ("Bearer " ++ tok)) /\
  authenticateToken P t (Some (scheme ++ String " " tok))
    = authenticateToken P t (Some ("Bearer " ++ tok)).
Proof.
  intros Hs Ht. unfold authenticateToken.
  destruct (header_token_fields scheme tok Hs Ht rest) as (-> & ->).
  assert (Hb : occurs " " "Bearer" = false) by reflexivity.
  change ("Bearer " ++ tok) with ("Bearer" ++ String " " tok).
  destruct (header_token_fields "Bearer" tok Hb Ht rest) as (_ & ->).
  auto.
Qed.

Lemma only_the_second_field_counts_witness :
  occurs " " "Token" = false /\ occurs " " Scenario.token_alice = false /\
  authenticateToken Demo.platform 4000
    (Some ("Token" ++ String " " (Scenario.token_alice ++ String " " "and more")))
    = inr Scenario.claims_alice.
Proof.
  assert (H1 : occurs " " "Token" = false) by reflexivity.
  assert (H2 : occurs " " Scenario.token_alice = false) by (vm_compute; reflexivity).
  split; [exact H1|]. split; [exact H2|].
  rewrite (proj1 (only_the_second_field_counts Demo.platform 4000 "Token"
                    Scenario.token_alice "and more" H1 H2)).
  vm_compute. reflexivity.
Defined.

(** ** The order of a listing *)

Lemma insert_keeps_instant (t : Z) (x : PostWithAuthor) (l : list PostWithAuthor) :
  filter (fun y => created_at_is t (post y)) (Js.insert Dev.newest_first x l) =
    if created_at_is t (post x)
    then x :: filter (fun y => created_at_is t (post y)) l
    else filter (fun y => created_at_is t (post y)) l.
Proof.
  induction l as [|y r IH]; simpl.
  - destruct (created_at_is t (post x)); reflexivity.
  - destruct (Z.leb_spec (Dev.newest_first x y) 0) as [Hle | Hgt]; simpl.
    + destruct (created_at_is t (post x)); reflexivity.
    + rewrite IH. unfold created_at_is, Dev.newest_first in *.
      destruct (Z.eqb_spec (Post.created_at (post x)) t) as [Ex | Ex];
        destruct (Z.eqb_spec (Post.created_at (post y)) t) as [Ey | Ey];
        try reflexivity.
      exfalso. lia.
Qed.

Lemma sort_keeps_instant (t : Z) (l : list PostWithAuthor) :
  filter (fun y => created_at_is t (post y)) (Js.sort Dev.newest_first l) =
  filter (fun y => created_at_is t (post y)) l.
Proof.
  induction l as [|x r IH]; simpl; [reflexivity|].
  rewrite insert_keeps_instant, IH. reflexivity.
Qed.

Lemma filter_map_post (us : list User.t) (t : Z) (ps : list Post.t) :
  map post (filter (fun y => created_at_is t (post y)) (map (Dev.with_author us) ps)) =
  filter (created_at_is t) ps.
Proof.
  induction ps as [|p r IH]; simpl; [reflexivity|].
  rewrite (proj1 (with_author_enriched us p)).
  destruct (created_at_is t p); simpl; rewrite IH;
    [rewrite (proj1 (with_author_enriched us p))|]; reflexivity.
Qed.

(** X17: the sort of the listing is stable: the posts created at one and the
    same instant come in the order in which the store holds them. *)
Theorem listing_keeps_ties_in_store_order (t : Z) (s : Dev.DataStore) :
  map post (filter (fun y => created_at_is t (post y)) (Dev.postsWithAuthors s)) =
  filter (created_at_is t) (Dev.posts s).
Proof.
  unfold Dev.postsWithAuthors. rewrite sort_keeps_instant. apply filter_map_post.
Qed.

(** ** The index of the endpoints *)




